(** * katdal chunk stores: NpyFileChunkStore and RadosChunkStore

    A shallow embedding of [katdal/chunkstore_npy.py] and
    [katdal/chunkstore_rados.py], together with the part of the
    [ChunkStore] base class they call into (key derivation, metadata
    validation, scoped error translation).  Python exceptions are values of
    [exn]; a method that touches a backend is a function from the state of
    that backend to a result and the next state. *)

From Stdlib Require Import ZArith Ascii String List Lia.
From Stdlib Require Import DecimalString DecimalN DecimalPos.
From stdpp Require Import base option list gmap sets strings.
From stdpp Require Import sorting.

Local Open Scope Z_scope.

(** ** Exceptions and results *)

(** Exception classes that are not part of the store's own taxonomy. *)
Inductive native_exn : Type :=
  | IOError
  | OSError
  | ImportError
  | TypeError
  | ValueError
  | RadosTimedOut
  | RadosObjectNotFound
  | RadosPermissionError
  | RadosError.

(** The standardised failure kinds of the chunk store.  The metadata test
    sees [MalformedRequest] as a [ValueError]. *)
Inductive std_kind : Type :=
  | StoreUnavailable
  | ChunkNotFound
  | MalformedRequest.

(** A raised exception: a standardised kind, optionally carrying the name of
    the offending chunk, or a backend-native exception. *)
Inductive exn : Type :=
  | Standard (k : std_kind) (chunk_name : option string)
  | Native (e : native_exn).

Inductive result (A : Type) : Type :=
  | Ok (a : A)
  | Raise (e : exn).
Arguments Ok {A} a.
Arguments Raise {A} e.

#[global] Instance native_exn_eq_dec : EqDecision native_exn.
Proof. solve_decision. Defined.

#[global] Instance std_kind_eq_dec : EqDecision std_kind.
Proof. solve_decision. Defined.

Definition native_exn_code (e : native_exn) : nat :=
  match e with
  | IOError => 0 | OSError => 1 | ImportError => 2 | TypeError => 3
  | ValueError => 4 | RadosTimedOut => 5 | RadosObjectNotFound => 6
  | RadosPermissionError => 7 | RadosError => 8
  end%nat.

Definition native_exn_of_code (n : nat) : option native_exn :=
  match n with
  | 0 => Some IOError | 1 => Some OSError | 2 => Some ImportError
  | 3 => Some TypeError | 4 => Some ValueError | 5 => Some RadosTimedOut
  | 6 => Some RadosObjectNotFound | 7 => Some RadosPermissionError
  | 8 => Some RadosError | _ => None
  end%nat.

#[global] Instance native_exn_countable : Countable native_exn.
Proof.
  apply (inj_countable native_exn_code native_exn_of_code).
  intros []; reflexivity.
Defined.

(** ** A state-and-exception monad

    [M W A] is a computation over a world [W] (a file system, a RADOS
    cluster) that returns an [A] or raises; the world reached when the
    exception was raised is kept. *)
Definition M (W A : Type) : Type := W -> result A * W.

Definition ret {W A} (a : A) : M W A := fun w => (Ok a, w).

Definition raise {W A} (e : exn) : M W A := fun w => (Raise e, w).

Definition bind {W A B} (m : M W A) (k : A -> M W B) : M W B :=
  fun w =>
    match m w with
    | (Ok a, w') => k a w'
    | (Raise e, w') => (Raise e, w')
    end.

Notation "'do' x <- m ;; k" := (bind m (fun x => k))
  (at level 10, x name, m at level 99, k at level 200).
Notation "'run' m ;; k" := (bind m (fun _ => k))
  (at level 10, m at level 99, k at level 200).

(** Lift a pure, possibly raising, computation. *)
Definition lift {W A} (r : result A) : M W A := fun w => (r, w).

(** ** Arrays *)

(** A NumPy dtype, as far as the stores look at it. *)
Record np_dtype : Type := {
  dtype_name : string;
  itemsize : Z;
  hasobject : bool
}.

#[global] Instance np_dtype_eq_dec : EqDecision np_dtype.
Proof. solve_decision. Defined.

(** An N-dimensional array: its shape, its dtype and its elements as the
    C-contiguous buffer that [tobytes] returns. *)
Record ndarray : Type := {
  shape : list Z;
  dtype : np_dtype;
  data : list Byte.byte
}.

Definition tobytes (a : ndarray) : list Byte.byte := data a.

(** NumPy integers are 64 bits wide and wrap around silently. *)
Definition wrap64 (x : Z) : Z := (x + 2 ^ 63) mod 2 ^ 64 - 2 ^ 63.

(** [np.prod] of a tuple of integers. *)
Definition np_prod (shp : list Z) : Z :=
  fold_left (fun acc x => wrap64 (acc * x)) shp 1.

(** The exact product, for specifications. *)
Definition product (shp : list Z) : Z := fold_right Z.mul 1 shp.

(** [np.ndarray(shape, dtype, buffer)]: a view of the start of [buffer].
    The test for an array that is too big multiplies the item size by the
    extents that are not zero: NumPy leaves the zero ones out of it, so an
    empty array still may not have an extent too large for the address
    space. *)
Definition np_ndarray (shp : list Z) (dt : np_dtype) (buffer : list Byte.byte)
  : result ndarray :=
  if existsb (fun d => d <? 0) shp then Raise (Native ValueError)
  else if 2 ^ 63 <=? product (List.filter (fun d => negb (d =? 0)) shp)
                     * itemsize dt
       then Raise (Native ValueError)
  else if Z.of_nat (length buffer) <? product shp * itemsize dt
       then Raise (Native TypeError)
  else Ok {| shape := shp; dtype := dt;
             data := take (Z.to_nat (product shp * itemsize dt)) buffer |}.

(** An array that NumPy can hold: non-negative extents and a buffer of
    exactly [product shape * itemsize] bytes, fewer than [2^63]. *)
Definition wf_ndarray (a : ndarray) : Prop :=
  Forall (fun d => 0 <= d) (shape a) /\
  0 <= itemsize (dtype a) /\
  Z.of_nat (length (data a)) = product (shape a) * itemsize (dtype a) /\
  product (shape a) * itemsize (dtype a) < 2 ^ 63.

(** ** Slice specifications *)

(** A Python [slice(start, stop, step)]; an omitted field is [None].  A
    slice written without a step, such as [slice(3, 5)], has unit stride. *)
Record slice : Type := {
  start : option Z;
  stop : option Z;
  step : option Z
}.

(** What a caller may put in one dimension: a slice or a bare integer. *)
Inductive index : Type :=
  | ASlice (s : slice)
  | AnInt (i : Z).

(** The [slices] argument of [get] and [put]: a sequence of per-dimension
    entries, or (wrongly) one entry that is not wrapped in a sequence. *)
Inductive slice_spec : Type :=
  | Seq (l : list index)
  | NotSeq (i : index).

(** [slice(a, b)] and [slice(a, b, k)]. *)
Definition slice2 (a b : Z) : index :=
  ASlice {| start := Some a; stop := Some b; step := None |}.
Definition slice3 (a b k : Z) : index :=
  ASlice {| start := Some a; stop := Some b; step := Some k |}.

(** ** Decimal formatting *)

(** [str(n)] for a natural number [n]. *)
Definition str_N (n : N) : string := NilZero.string_of_uint (N.to_uint n).

Fixpoint zeros (n : nat) : string :=
  match n with
  | O => EmptyString
  | S n' => String "0" (zeros n')
  end.

(** [s.zfill(width)] for a string of digits. *)
Definition zfill (width : nat) (s : string) : string :=
  zeros (width - String.length s) +:+ s.

(** ["{:05d}".format(i)]: at least five characters, the sign first. *)
Definition format_05d (i : Z) : string :=
  if i <? 0 then String "-" (zfill 4 (str_N (Z.to_N (- i))))
  else zfill 5 (str_N (Z.to_N i)).

(** ** The key and metadata engine of [ChunkStore] *)

(** Modelled from the spec: [ChunkStore.join] is defined in
    [katdal/chunkstore.py], which is absent; section 4.1 has it join name
    segments with the separator [/]. *)
Definition join (names : list string) : string := String.concat "/" names.

Definition unit_stride (s : slice) : bool :=
  match step s with
  | None => true
  | Some k => k =? 1
  end.

(** A proper range descriptor: both offsets present and unit stride. *)
Definition range_of (i : index) : option (Z * Z) :=
  match i with
  | ASlice s =>
      match start s, stop s with
      | Some a, Some b => if unit_stride s then Some (a, b) else None
      | _, _ => None
      end
  | AnInt _ => None
  end.

(** Modelled from the spec: the input constraints of section 4.1, which
    the absent [katdal/chunkstore.py] implements.  The validated slice
    specification is a non-empty sequence of proper range descriptors,
    kept as [(start, stop)] pairs; a bare entry, a bare integer or a slice
    without both offsets is rejected, as the metadata test expects. *)
Definition ranges_of (s : slice_spec) : option (list (Z * Z)) :=
  match s with
  | NotSeq _ => None
  | Seq [] => None
  | Seq l => mapM range_of l
  end.

(** Modelled from the spec: the index part of a chunk key (sections 3 and
    6), built in the absent [katdal/chunkstore.py]: the start offsets,
    zero-padded, joined by an underscore. *)
Definition index_string (starts : list Z) : string :=
  String.concat "_" (map format_05d starts).

(** Modelled from the spec: [ChunkStore.chunk_name] is defined in
    [katdal/chunkstore.py], which is absent; this is the operation
    deriveChunkKey of section 4.1.  It rejects a slice specification that
    is not a non-empty sequence of range descriptors or that has a step
    other than 1 with [MalformedRequest], and otherwise returns the key
    [<array_name>/<index>].  The width 5 of the zero padding is the one of
    the index strings quoted in the docstrings of both stores
    ([00001_00512]). *)
Definition chunk_name (array_name : string) (slices : slice_spec)
  : result string :=
  match ranges_of slices with
  | None => Raise (Standard MalformedRequest None)
  | Some rs => Ok (join [array_name; index_string (map fst rs)])
  end.

(** Modelled from the spec: the call
    [chunk_name(array_name, slices, chunk=chunk)].  The key derivation of
    section 4.1 takes an array name and a slice specification and nothing
    else, which is how [NpyFileChunkStore] calls it, and returns the key
    alone; a call that also passes the keyword [chunk] is refused by
    Python with a [TypeError] before any of the function runs. *)
Definition chunk_name_with_chunk (array_name : string) (slices : slice_spec)
    (chunk : ndarray) : result (string * list Z) :=
  Raise (Native TypeError).

(** The chunk shape of validated ranges: [stop - start] per dimension. *)
Definition shape_of (rs : list (Z * Z)) : list Z :=
  map (fun r => snd r - fst r) rs.

(** Modelled from the spec: [ChunkStore.chunk_metadata] is defined in
    [katdal/chunkstore.py], which is absent; this is the operation
    deriveChunkMetadata of section 4.1.  On top of the checks of the key
    derivation it compares the shape of a supplied chunk with the shape of
    the slices, rejects dtypes that contain objects, and requires a
    supplied dtype to agree with that of a supplied chunk.  It returns the
    pair [(chunk_name, shape)] that both of its callers unpack. *)
Definition chunk_metadata (array_name : string) (slices : slice_spec)
    (chunk : option ndarray) (dt : option np_dtype)
  : result (string * list Z) :=
  match ranges_of slices with
  | None => Raise (Standard MalformedRequest None)
  | Some rs =>
      let shp := shape_of rs in
      let key := join [array_name; index_string (map fst rs)] in
      match chunk with
      | Some c =>
          if negb (bool_decide (shape c = shp))
          then Raise (Standard MalformedRequest None)
          else if hasobject (dtype c)
          then Raise (Standard MalformedRequest None)
          else match dt with
               | Some d =>
                   if bool_decide (d = dtype c) then Ok (key, shp)
                   else Raise (Standard MalformedRequest None)
               | None => Ok (key, shp)
               end
      | None =>
          match dt with
          | Some d =>
              if hasobject d then Raise (Standard MalformedRequest None)
              else Ok (key, shp)
          | None => Ok (key, shp)
          end
      end
  end.

(** ** Scoped error translation *)

(** Modelled from the spec: [ChunkStore._standard_errors] is defined in
    [katdal/chunkstore.py], which is absent; this is the scoped-execution
    helper of section 4.2.  A native failure of the wrapped block that has
    an entry in the store's error map is raised again as the mapped
    standardised kind, carrying the chunk name it was given; anything else
    passes through unchanged. *)
Definition standard_errors {W A} (error_map : gmap native_exn std_kind)
    (chunk : option string) (body : M W A) : M W A :=
  fun w =>
    match body w with
    | (Raise (Native e), w') =>
        match error_map !! e with
        | Some k => (Raise (Standard k chunk), w')
        | None => (Raise (Native e), w')
        end
    | r => r
    end.

(** ** POSIX paths *)

Definition startswith_sep (s : string) : bool :=
  match s with
  | String c _ => Ascii.eqb c "/"
  | EmptyString => false
  end.

Fixpoint endswith (s suffix : string) : bool :=
  String.eqb s suffix ||
  match s with
  | EmptyString => false
  | String _ s' => endswith s' suffix
  end.

(** [os.path.join(a, b)]: an absolute [b] replaces [a]. *)
Definition os_path_join (a b : string) : string :=
  if startswith_sep b then b
  else if String.eqb a "" || endswith a "/" then a +:+ b
  else a +:+ "/" +:+ b.

(** [(p[:i], p[i:])] for [i = p.rfind('/') + 1], when [p] has a slash. *)
Fixpoint rsplit_sep (p : string) : option (string * string) :=
  match p with
  | EmptyString => None
  | String c p' =>
      match rsplit_sep p' with
      | Some (h, t) => Some (String c h, t)
      | None => if Ascii.eqb c "/" then Some ("/", p') else None
      end
  end.

(** [s.rstrip('/')]. *)
Fixpoint rstrip_sep (s : string) : string :=
  match s with
  | EmptyString => EmptyString
  | String c s' =>
      let r := rstrip_sep s' in
      if Ascii.eqb c "/" && String.eqb r "" then EmptyString else String c r
  end.

(** [os.path.split(p)]: the head loses its trailing slashes unless it
    consists of slashes only. *)
Definition os_path_split (p : string) : string * string :=
  let '(head, tail) :=
    match rsplit_sep p with
    | Some ht => ht
    | None => (EmptyString, p)
    end in
  (if String.eqb (rstrip_sep head) "" then head else rstrip_sep head, tail).

(** ** The file system *)

Inductive fs_event : Type :=
  | EvIsDir (p : string)
  | EvMakeDirs (p : string)
  | EvSave (p : string)
  | EvLoad (p : string).

(** The directories and the regular files that exist (the files are NPY
    files, and an NPY file describes itself, so it is kept as the array it
    holds), the calls made so far, and two injected failures: [fs_fault] is
    what the operating system answers every modifying and reading call
    with while it is set (a file system that went away), [save_fault] what
    it answers the writing of a file with (a full disk, a directory that
    may not be written to) while directories can still be made.  Paths are
    compared as strings, so a path is known under one spelling only. *)
Record filesystem : Type := {
  dirs : gset string;
  files : gmap string ndarray;
  fs_fault : option native_exn;
  save_fault : option native_exn;
  fs_log : list fs_event
}.

Definition fs_record (ev : fs_event) (fs : filesystem) : filesystem :=
  {| dirs := dirs fs; files := files fs; fs_fault := fs_fault fs;
     save_fault := save_fault fs; fs_log := fs_log fs ++ [ev] |}.

Definition fs_set_dirs (ds : gset string) (fs : filesystem) : filesystem :=
  {| dirs := ds; files := files fs; fs_fault := fs_fault fs;
     save_fault := save_fault fs; fs_log := fs_log fs |}.

Definition fs_set_file (p : string) (a : ndarray) (fs : filesystem)
  : filesystem :=
  {| dirs := dirs fs; files := <[p := a]> (files fs);
     fs_fault := fs_fault fs; save_fault := save_fault fs;
     fs_log := fs_log fs |}.

(** [os.path.isdir(p)]; it never raises. *)
Definition os_path_isdir (p : string) : M filesystem bool :=
  fun fs => (Ok (bool_decide (p ∈ dirs fs)), fs_record (EvIsDir p) fs).

(** [os.path.exists(p)], as [os.makedirs] asks it. *)
Definition path_exists (fs : filesystem) (p : string) : bool :=
  bool_decide (p ∈ dirs fs) || bool_decide (is_Some (files fs !! p)).

(** [os.mkdir(p)]: an [OSError] when [p] is there already, as a directory
    or as a file, and when its parent is not a directory; a path of one
    component is made in the working directory. *)
Definition os_mkdir (p : string) : M filesystem unit :=
  fun fs =>
    match fs_fault fs with
    | Some e => (Raise (Native e), fs)
    | None =>
        let head := fst (os_path_split p) in
        if String.eqb p "" || path_exists fs p
        then (Raise (Native OSError), fs)
        else if String.eqb head "" || bool_decide (head ∈ dirs fs)
        then (Ok tt, fs_set_dirs ({[ p ]} ∪ dirs fs) fs)
        else (Raise (Native OSError), fs)
    end.

(** The recursion of [os.makedirs(name)]: the parent is made first when it
    does not exist, then [name] itself.  [fuel] bounds the depth; the
    length of [name] is enough, as every parent is shorter.  A last
    component [.] names the parent itself: nothing is made for it, and
    [name] is from then on one more spelling of a directory that exists.
    The library lets an [EEXIST] of the recursive call pass, which one
    caller on its own does not meet: the parent did not exist when the
    call was made. *)
Fixpoint makedirs (fuel : nat) (name : string) : M filesystem unit :=
  fun fs =>
    let '(head, tail) := os_path_split name in
    let '(head, tail) :=
      if String.eqb tail "" then os_path_split head else (head, tail) in
    if negb (String.eqb head "") && negb (String.eqb tail "")
       && negb (path_exists fs head)
    then
      match fuel with
      | O => (Raise (Native OSError), fs)
      | S fuel' =>
          match makedirs fuel' head fs with
          | (Ok _, fs') =>
              if String.eqb tail "."
              then (Ok tt, fs_set_dirs ({[ name ]} ∪ dirs fs') fs')
              else os_mkdir name fs'
          | (Raise e, fs') => (Raise e, fs')
          end
      end
    else os_mkdir name fs.

(** [os.makedirs(name)]. *)
Definition os_makedirs (name : string) : M filesystem unit :=
  fun fs =>
    makedirs (String.length name) name (fs_record (EvMakeDirs name) fs).

(** [np.save(file, arr)]: the extension is added unless it is there; the
    file is created or replaced in its directory, which has to exist, and
    may not itself be a directory. *)
Definition np_save (file : string) (arr : ndarray) : M filesystem unit :=
  fun fs =>
    let file := if endswith file ".npy" then file else file +:+ ".npy" in
    let fs' := fs_record (EvSave file) fs in
    match fs_fault fs, save_fault fs with
    | Some e, _ => (Raise (Native e), fs')
    | None, Some e => (Raise (Native e), fs')
    | None, None =>
        let dirname := fst (os_path_split file) in
        if (String.eqb dirname "" || bool_decide (dirname ∈ dirs fs))
           && negb (bool_decide (file ∈ dirs fs))
        then (Ok tt, fs_set_file file arr fs')
        else (Raise (Native IOError), fs')
    end.

(** [np.load(file)]: a missing file is an [IOError]. *)
Definition np_load (file : string) : M filesystem ndarray :=
  fun fs =>
    let fs' := fs_record (EvLoad file) fs in
    match fs_fault fs with
    | Some e => (Raise (Native e), fs')
    | None =>
        match files fs !! file with
        | Some a => (Ok a, fs')
        | None => (Raise (Native IOError), fs')
        end
    end.

(** ** NpyFileChunkStore *)

Module NpyFileChunkStore.

Record t : Type := { path : string }.

(** [__init__(self, path)] *)
Definition init (path : string) : M filesystem t :=
  do isdir <- os_path_isdir path ;;
  if negb isdir then raise (Native IOError)
  else ret {| path := path |}.

Definition filename (self : t) (chunk_name : string) : string :=
  os_path_join (path self) chunk_name +:+ ".npy".

(** [get(self, array_name, slices, dtype=None)] *)
Definition get (self : t) (array_name : string) (slices : slice_spec)
    (dtype : option np_dtype) : M filesystem ndarray :=
  do name <- lift (chunk_name array_name slices) ;;
  np_load (filename self name).

(** [put(self, array_name, slices, chunk)] *)
Definition put (self : t) (array_name : string) (slices : slice_spec)
    (chunk : ndarray) : M filesystem unit :=
  do name <- lift (chunk_name array_name slices) ;;
  let file := filename self name in
  let dirname := fst (os_path_split file) in
  do isdir <- os_path_isdir dirname ;;
  run (if negb isdir then os_makedirs dirname else ret tt) ;;
  np_save file chunk.

End NpyFileChunkStore.

(** ** The RADOS cluster *)

(** The [conf] argument: a config dict or the path of a config file. *)
Inductive rados_conf : Type :=
  | ConfDict (d : list (string * string))
  | ConfFile (conffile : string).

Inductive rados_event : Type :=
  | EvRados (conf : rados_conf)
  | EvConfSet (option_name value : string)
  | EvConnect
  | EvOpenIoctx (pool : string)
  | EvRead (key : string) (length : Z)
  | EvWriteFull (key : string) (data : list Byte.byte).

(** What the [rados] library and the cluster behind it answer: whether the
    module could be imported, what the calls of the connection phase raise
    (if anything), which pools exist, what object I/O raises while the
    cluster is in trouble, the objects of the pool, and the calls made. *)
Record cluster : Type := {
  rados_module : bool;
  on_rados : option native_exn;
  on_conf_set : option native_exn;
  on_connect : option native_exn;
  on_open_ioctx : option native_exn;
  pools : gset string;
  io_fault : option native_exn;
  objects : gmap string (list Byte.byte);
  rados_log : list rados_event
}.

Definition rados_record (ev : rados_event) (c : cluster) : cluster :=
  {| rados_module := rados_module c; on_rados := on_rados c;
     on_conf_set := on_conf_set c; on_connect := on_connect c;
     on_open_ioctx := on_open_ioctx c; pools := pools c;
     io_fault := io_fault c; objects := objects c;
     rados_log := rados_log c ++ [ev] |}.

Definition rados_set_object (key : string) (b : list Byte.byte) (c : cluster)
  : cluster :=
  {| rados_module := rados_module c; on_rados := on_rados c;
     on_conf_set := on_conf_set c; on_connect := on_connect c;
     on_open_ioctx := on_open_ioctx c; pools := pools c;
     io_fault := io_fault c; objects := <[key := b]> (objects c);
     rados_log := rados_log c |}.

(** A library call of the connection phase with a scripted outcome. *)
Definition scripted (ev : rados_event) (outcome : cluster -> option native_exn)
  : M cluster unit :=
  fun c =>
    match outcome c with
    | Some e => (Raise (Native e), rados_record ev c)
    | None => (Ok tt, rados_record ev c)
    end.

(** [rados.Rados(conf=...)] or [rados.Rados(conffile=...)]. *)
Definition rados_Rados (conf : rados_conf) : M cluster unit :=
  scripted (EvRados conf) on_rados.

(** [cluster.conf_set(option, value)]. *)
Definition conf_set (option_name value : string) : M cluster unit :=
  scripted (EvConfSet option_name value) on_conf_set.

(** [cluster.connect()]. *)
Definition connect : M cluster unit := scripted EvConnect on_connect.

(** [cluster.open_ioctx(pool)]: a pool that does not exist is reported as
    an object that was not found. *)
Definition open_ioctx (pool : string) : M cluster string :=
  fun c =>
    let c' := rados_record (EvOpenIoctx pool) c in
    match on_open_ioctx c with
    | Some e => (Raise (Native e), c')
    | None =>
        if bool_decide (pool ∈ pools c) then (Ok pool, c')
        else (Raise (Native RadosObjectNotFound), c')
    end.

(** [ioctx.read(key, length)]: up to [length] bytes from the start of the
    object. *)
Definition ioctx_read (key : string) (length : Z)
  : M cluster (list Byte.byte) :=
  fun c =>
    let c' := rados_record (EvRead key length) c in
    match io_fault c with
    | Some e => (Raise (Native e), c')
    | None =>
        match objects c !! key with
        | Some b => (Ok (take (Z.to_nat length) b), c')
        | None => (Raise (Native RadosObjectNotFound), c')
        end
    end.

(** [ioctx.write_full(key, data)]: the object is replaced as a whole. *)
Definition ioctx_write_full (key : string) (b : list Byte.byte)
  : M cluster unit :=
  fun c =>
    let c' := rados_record (EvWriteFull key b) c in
    match io_fault c with
    | Some e => (Raise (Native e), c')
    | None => (Ok tt, rados_set_object key b c')
    end.

(** ** RadosChunkStore *)

Module RadosChunkStore.

Record t : Type := {
  _error_map : gmap native_exn std_kind;
  ioctx : string
}.

(** The error map in force while the cluster is being connected. *)
Definition initial_error_map : gmap native_exn std_kind :=
  <[RadosTimedOut := StoreUnavailable]>
    (<[RadosObjectNotFound := StoreUnavailable]> ∅).

(** [__init__(self, conf, pool, keyring=None, timeout=5.)]; [timeout]
    stands for [str(timeout)].  The base constructor keeps the map it is
    given as [self._error_map], the dict that the last statement updates. *)
Definition init (conf : rados_conf) (pool : string)
    (keyring : option string) (timeout : option string) : M cluster t :=
  fun c =>
    if negb (rados_module c) then (Raise (Native ImportError), c)
    else
      let error_map := initial_error_map in
      (do _ <- rados_Rados conf ;;
       run (match keyring with
            | Some k =>
                if String.eqb k "" then ret tt else conf_set "keyring" k
            | None => ret tt
            end) ;;
       run (match timeout with
            | Some s => conf_set "client mount timeout" s
            | None => ret tt
            end) ;;
       do io <- standard_errors error_map None
                  (run connect ;; open_ioctx pool) ;;
       ret {| _error_map := <[RadosObjectNotFound := ChunkNotFound]> error_map;
              ioctx := io |}) c.

(** [get(self, array_name, slices, dtype)] *)
Definition get (self : t) (array_name : string) (slices : slice_spec)
    (dtype : np_dtype) : M cluster ndarray :=
  do ks <- lift (chunk_metadata array_name slices None (Some dtype)) ;;
  let '(key, shape) := ks in
  let num_bytes := wrap64 (np_prod shape * itemsize dtype) in
  do data_str <- standard_errors (_error_map self) (Some key)
                   (ioctx_read key num_bytes) ;;
  lift (np_ndarray shape dtype data_str).

(** [put(self, array_name, slices, chunk)] *)
Definition put (self : t) (array_name : string) (slices : slice_spec)
    (chunk : ndarray) : M cluster unit :=
  do ks <- lift (chunk_name_with_chunk array_name slices chunk) ;;
  let '(key, shape) := ks in
  let data_str := tobytes chunk in
  standard_errors (_error_map self) (Some key)
    (ioctx_write_full key data_str).

End RadosChunkStore.

(** ** Vocabulary of the statements *)

(** A per-dimension entry that is a slice with an explicit step other
    than 1. *)
Definition bad_step (i : index) : bool :=
  match i with
  | ASlice s =>
      match step s with
      | Some k => negb (k =? 1)
      | None => false
      end
  | AnInt _ => false
  end.

(** The slice specification has a non-unit step in some dimension. *)
Definition non_unit_step (slices : slice_spec) : bool :=
  match slices with
  | Seq l => existsb bad_step l
  | NotSeq i => bad_step i
  end.

(** The result is a value or a backend-native exception: no standardised
    kind was raised. *)
Definition ok_or_native {A} (r : result A) : bool :=
  match r with
  | Ok _ => true
  | Raise (Native _) => true
  | Raise (Standard _ _) => false
  end.

(** The start offsets of a slice specification the engine accepts. *)
Definition starts_of (slices : slice_spec) : list Z :=
  match ranges_of slices with
  | Some rs => map fst rs
  | None => []
  end.

(** [int(s)] for a string of decimal digits. *)
Definition int_of_digits (s : string) : option N :=
  N.of_uint <$> NilEmpty.uint_of_string s.

(** No character of the string is the separator of the index string. *)
Fixpoint no_underscore (s : string) : bool :=
  match s with
  | EmptyString => true
  | String c s' => negb (Ascii.eqb c "_") && no_underscore s'
  end.

(** What follows a piece in a joined string: nothing, or the separator
    and more. *)
Definition starts_with_underscore_or_empty (r : string) : Prop :=
  r = "" \/ exists r', r = String "_" r'.

(** The capacity of the five-digit zero padding. *)
Definition in_padding_range (i : Z) : Prop := 0 <= i < 10 ^ 5.

(** ** Fixtures of the store tests *)

Definition float64 : np_dtype :=
  {| dtype_name := "float64"; itemsize := 8; hasobject := false |}.

Definition int64 : np_dtype :=
  {| dtype_name := "int64"; itemsize := 8; hasobject := false |}.

(** [np.ones(11)]: eleven times the eight bytes of [1.0]. *)
Definition ones11 : ndarray :=
  {| shape := [11]; dtype := float64;
     data := concat (repeat [Byte.x00; Byte.x00; Byte.x00; Byte.x00;
                             Byte.x00; Byte.x00; Byte.xf0; Byte.x3f] 11) |}.

(** [np.arange(10)[3:5]]. *)
Definition x_3_5 : ndarray :=
  {| shape := [2]; dtype := int64;
     data := [Byte.x03; Byte.x00; Byte.x00; Byte.x00;
              Byte.x00; Byte.x00; Byte.x00; Byte.x00;
              Byte.x04; Byte.x00; Byte.x00; Byte.x00;
              Byte.x00; Byte.x00; Byte.x00; Byte.x00] |}.

(** A store directory [/data] with nothing in it yet. *)
Definition empty_dir : filesystem :=
  {| dirs := {[ "/data" ]}; files := ∅; fs_fault := None;
     save_fault := None; fs_log := [] |}.

Definition npy_store : NpyFileChunkStore.t :=
  {| NpyFileChunkStore.path := "/data" |}.

(** A reachable cluster with an empty pool [chunks]. *)
Definition empty_pool : cluster :=
  {| rados_module := true; on_rados := None; on_conf_set := None;
     on_connect := None; on_open_ioctx := None; pools := {[ "chunks" ]};
     io_fault := None; objects := ∅; rados_log := [] |}.

(** The store that [RadosChunkStore.init] returns on [empty_pool]. *)
Definition rados_store : RadosChunkStore.t :=
  {| RadosChunkStore._error_map :=
       <[RadosObjectNotFound := ChunkNotFound]>
         RadosChunkStore.initial_error_map;
     RadosChunkStore.ioctx := "chunks" |}.

(** An array name that [os.path.join] keeps below the store directory: it
    is not empty and does not start with the separator. *)
Definition relative_name (array_name : string) : bool :=
  match array_name with
  | String c _ => negb (Ascii.eqb c "/")
  | EmptyString => false
  end.

(** The pool that holds the bytes of [x_3_5] as the object of [x[3:5]]. *)
Definition pool_with_x : cluster :=
  {| rados_module := true; on_rados := None; on_conf_set := None;
     on_connect := None; on_open_ioctx := None; pools := {[ "chunks" ]};
     io_fault := None; objects := {[ "x/00003" := data x_3_5 ]};
     rados_log := [] |}.

(** ** The outcome of connecting *)

(** How the connection phase reports a native failure [e]. *)
Definition while_connecting {A} (e : native_exn) : result A :=
  match RadosChunkStore.initial_error_map !! e with
  | Some k => Raise (Standard k None)
  | None => Raise (Native e)
  end.

(** Whether [init] calls [conf_set] at all. *)
Definition sets_conf (keyring timeout : option string) : bool :=
  match keyring, timeout with
  | Some k, None => negb (String.eqb k "")
  | _, Some _ => true
  | None, None => false
  end.

(** The result of [RadosChunkStore.init], read off the answers of the
    library. *)
Definition init_outcome (pool : string) (keyring timeout : option string)
    (c : cluster) : result RadosChunkStore.t :=
  if negb (rados_module c) then Raise (Native ImportError)
  else match on_rados c with
  | Some e => Raise (Native e)
  | None =>
  match (if sets_conf keyring timeout then on_conf_set c else None) with
  | Some e => Raise (Native e)
  | None =>
  match on_connect c with
  | Some e => while_connecting e
  | None =>
  match on_open_ioctx c with
  | Some e => while_connecting e
  | None =>
      if bool_decide (pool ∈ pools c)
      then Ok {| RadosChunkStore._error_map :=
                   <[RadosObjectNotFound := ChunkNotFound]>
                     RadosChunkStore.initial_error_map;
                 RadosChunkStore.ioctx := pool |}
      else while_connecting RadosObjectNotFound
  end end end end.

(** ** The error map of a connected RADOS store *)

(** What a store that [RadosChunkStore.init] returned makes of a native
    failure [e] of the I/O on the chunk [key]. *)
Definition while_serving (key : string) (e : native_exn) : exn :=
  match e with
  | RadosTimedOut => Standard StoreUnavailable (Some key)
  | RadosObjectNotFound => Standard ChunkNotFound (Some key)
  | _ => Native e
  end.

(** The error map of every store that [RadosChunkStore.init] returns. *)
Definition serving_error_map : gmap native_exn std_kind :=
  <[RadosObjectNotFound := ChunkNotFound]> RadosChunkStore.initial_error_map.

(** [empty_pool] while object I/O fails with [e]. *)
Definition failing_pool (e : native_exn) : cluster :=
  {| rados_module := true; on_rados := None; on_conf_set := None;
     on_connect := None; on_open_ioctx := None; pools := {[ "chunks" ]};
     io_fault := Some e; objects := ∅; rados_log := [] |}.

(** The pool holding only the first eight bytes of [x_3_5] as [x[3:5]]. *)
Definition pool_with_short_x : cluster :=
  {| rados_module := true; on_rados := None; on_conf_set := None;
     on_connect := None; on_open_ioctx := None; pools := {[ "chunks" ]};
     io_fault := None; objects := {[ "x/00003" := take 8 (data x_3_5) ]};
     rados_log := [] |}.

(** [x_3_5] with its bytes taken as two floats. *)
Definition x_3_5_as_float64 : ndarray :=
  {| shape := [2]; dtype := float64; data := data x_3_5 |}.

(** [np.arange(10)[5:7]], to overwrite [x_3_5] with. *)
Definition x_5_7 : ndarray :=
  {| shape := [2]; dtype := int64;
     data := [Byte.x05; Byte.x00; Byte.x00; Byte.x00;
              Byte.x00; Byte.x00; Byte.x00; Byte.x00;
              Byte.x06; Byte.x00; Byte.x00; Byte.x00;
              Byte.x00; Byte.x00; Byte.x00; Byte.x00] |}.

(** ** Vocabulary for the file system *)

(** What a call that only makes directories leaves behind: the files, the
    faults and the log as they were, and no directory fewer.  It ends in a
    value or in a native exception, and when it returns, the directory it
    was asked for is there. *)
Definition only_makes_dirs (name : string) (fs : filesystem)
    (r : result unit * filesystem) : Prop :=
  files (snd r) = files fs /\
  fs_fault (snd r) = fs_fault fs /\
  save_fault (snd r) = save_fault fs /\
  fs_log (snd r) = fs_log fs /\
  (forall d, d ∈ dirs fs -> d ∈ dirs (snd r)) /\
  ok_or_native (fst r) = true /\
  (fst r = Ok tt -> name ∈ dirs (snd r)).

Fixpoint no_sep (s : string) : bool :=
  match s with
  | EmptyString => true
  | String c s' => negb (Ascii.eqb c "/") && no_sep s'
  end.

(** The name of one level of a hierarchical array name: not empty, without
    separator, and not one of the two names that stand for a directory
    itself and for its parent. *)
Definition segment (s : string) : bool :=
  no_sep s && negb (String.eqb s "") && negb (String.eqb s ".")
  && negb (String.eqb s "..").

(** The directory [k] levels below [root] on the way down [segments]. *)
Definition directory_at (root : string) (segments : list string) (k : nat)
  : string :=
  String.concat "/" (root :: take k segments).

(** The root directory and the store directory [/data], nothing else. *)
Definition data_below_root : filesystem :=
  {| dirs := {[ "/"; "/data" ]}; files := ∅; fs_fault := None;
     save_fault := None; fs_log := [] |}.

(** The store directory with a regular file [/data/x] in it. *)
Definition dir_with_file_x : filesystem :=
  {| dirs := {[ "/data" ]}; files := {[ "/data/x" := x_3_5 ]};
     fs_fault := None; save_fault := None; fs_log := [] |}.

(** The empty store directory on a disk that takes no more files. *)
Definition full_disk : filesystem :=
  {| dirs := {[ "/data" ]}; files := ∅; fs_fault := None;
     save_fault := Some IOError; fs_log := [] |}.

(** * katfile/hdf5.py and katdal/datasources.py *)

(** ** Exceptions and outcomes of these modules *)

Inductive py_exn : Type :=
  | PyValueError
  | PyIndexError
  | PyNameError
  | PyAttributeError
  | PyKeyError
  | PyIOError
  | PyOSError (message : string)
  | PyTypeError
  | RedisConnectionError (message : string)
  | RedisTimeoutError (message : string)
  | WrongH5Version (message : string)
  | DataSourceNotFound (message : string).

Inductive outcome (A : Type) : Type :=
  | Returns (a : A)
  | Throws (e : py_exn).
Arguments Returns {A} a.
Arguments Throws {A} e.

Definition and_then {A B} (o : outcome A) (k : A -> outcome B) : outcome B :=
  match o with
  | Returns a => k a
  | Throws e => Throws e
  end.

Notation "'let*' x := o 'in' k" := (and_then o (fun x => k))
  (at level 10, x name, o at level 99, k at level 200).

(** ** Values as NumPy compares them *)

(** Which values of a type are NaN: NumPy's [==] finds a NaN equal to
    nothing, itself included. *)
Class HasNaN (V : Type) := isnan : V -> bool.

#[global] Instance Z_HasNaN : HasNaN Z := fun _ => false.
#[global] Instance string_HasNaN : HasNaN string := fun _ => false.

(** A float as far as [==] can tell: NaN, or the number it stands for. *)
Inductive np_float : Type :=
  | NaN
  | Finite (q : Z).

#[global] Instance np_float_eq_dec : EqDecision np_float.
Proof. solve_decision. Defined.

#[global] Instance np_float_HasNaN : HasNaN np_float :=
  fun v => match v with NaN => true | Finite _ => false end.

(** [a == b] on two elements. *)
Definition np_equal {V} `{EqDecision V} `{HasNaN V} (a b : V) : bool :=
  negb (isnan a) && bool_decide (a = b).

(** [a == b] on two arrays of one length, element by element; a cell that
    one of them lacks counts as unequal. *)
Fixpoint np_equal_arrays {V} `{EqDecision V} `{HasNaN V} (a b : list V)
  : list bool :=
  match a with
  | [] => map (fun _ => false) b
  | x :: a' =>
      match b with
      | [] => map (fun _ => false) a
      | y :: b' => np_equal x y :: np_equal_arrays a' b'
      end
  end.

(** [np.all(a)] for an array of Booleans. *)
Definition np_all (a : list bool) : bool := forallb (fun b => b) a.

(** [bool(a)] for an array of Booleans: that of its element when there is
    one, [False] when there is none, and a [ValueError] otherwise. *)
Definition array_truth (a : list bool) : outcome bool :=
  match a with
  | [] => Returns false
  | [b] => Returns b
  | _ => Throws PyValueError
  end.

(** The builtin [all] over the rows of a Boolean array of two or more
    dimensions: it asks each row for its truth and stops at the first
    that is false. *)
Fixpoint builtin_all (rows : list (list bool)) : outcome bool :=
  match rows with
  | [] => Returns true
  | row :: rest =>
      let* b := array_truth row in
      if (b : bool) then builtin_all rest else Returns false
  end.

(** ** HDF5 groups *)

(** A member of a group: a subgroup, a dataset of shape [()], a
    one-dimensional dataset of shape [(len values,)], or a dataset of two
    or more dimensions, kept as its sub-arrays along the first axis, each
    with its cells in a row. *)
Inductive h5_member (V : Type) : Type :=
  | Subgroup
  | ScalarDataset (v : V)
  | Dataset1D (values : list V)
  | DatasetND (rows : list (list V)).
Arguments Subgroup {V}.
Arguments ScalarDataset {V} v.
Arguments Dataset1D {V} values.
Arguments DatasetND {V} rows.

(** An [h5py.Group]: its attributes and its members by name. *)
Record h5_group (V : Type) : Type := {
  attrs : gmap string V;
  members : gmap string (h5_member V)
}.
Arguments attrs {V} _.
Arguments members {V} _.

(** [has_data(group, dataset_name)]: a subgroup has no [shape]. *)
Definition has_data {V} (group : h5_group V) (dataset_name : string)
  : outcome bool :=
  match members group !! dataset_name with
  | None => Returns false
  | Some Subgroup => Throws PyAttributeError
  | Some (ScalarDataset _) => Returns false
  | Some (Dataset1D _) => Returns true
  | Some (DatasetND _) => Returns true
  end.

(** What [get_single_value] returns: an attribute or an element of a
    one-dimensional dataset, or the first sub-array of a dataset of more
    dimensions. *)
Inductive single (V : Type) : Type :=
  | Value (v : V)
  | Row (cells : list V).
Arguments Value {V} v.
Arguments Row {V} cells.

(** [get_single_value(group, name)].  The comparison with the first
    element is NumPy's, and [all] is the builtin: over a one-dimensional
    array it sees Booleans, over an array of more dimensions it sees rows
    and asks each for its truth. *)
Definition get_single_value {V} `{EqDecision V} `{HasNaN V}
    (group : h5_group V) (name : string) : outcome (single V) :=
  match attrs group !! name with
  | Some v => Returns (Value v)
  | None =>
      let* found := has_data group name in
      if negb found then Throws PyValueError
      else
        match members group !! name with
        | Some (Dataset1D values) =>
            match values with
            | [] => Throws PyIndexError
            | v0 :: _ =>
                if negb (forallb (fun v => np_equal v v0) values)
                then Throws PyValueError
                else Returns (Value v0)
            end
        | Some (DatasetND rows) =>
            match rows with
            | [] => Throws PyIndexError
            | row0 :: _ =>
                let* same :=
                  builtin_all
                    (map (fun row => np_equal_arrays row row0) rows) in
                if negb same then Throws PyValueError
                else Returns (Row row0)
            end
        | _ => Throws PyKeyError
        end
  end.

(** ** NumPy index arrays *)

(** [a[idx]] for an array [idx] of indices that are not negative. *)
Definition take_indices {A} (a : list A) (idx : list nat)
  : outcome (list A) :=
  match mapM (fun i => a !! i) idx with
  | Some l => Returns l
  | None => Throws PyIndexError
  end.

(** [np.diff(x)] *)
Fixpoint np_diff (x : list Z) : list Z :=
  match x with
  | a :: t =>
      match t with
      | b :: _ => (b - a) :: np_diff t
      | [] => []
      end
  | [] => []
  end.

(** [mask.nonzero()[0]]: the positions of [True], counted from [k]. *)
Fixpoint nonzero_from (k : nat) (mask : list bool) : list nat :=
  match mask with
  | [] => []
  | b :: m => (if b then [k] else []) ++ nonzero_from (S k) m
  end.

Definition nonzero (mask : list bool) : list nat := nonzero_from 0 mask.

(** [np.cumsum] of a Boolean array, from the running total [acc]. *)
Fixpoint cumsum_from (acc : nat) (mask : list bool) : list nat :=
  match mask with
  | [] => []
  | b :: m =>
      let acc' := (acc + (if b then 1 else 0))%nat in
      acc' :: cumsum_from acc' m
  end.

Definition np_cumsum (mask : list bool) : list nat := cumsum_from 0 mask.

(** The order of a stable sort by key: by key, and by position among
    equal keys. *)
Definition key_then_index (a b : Z * nat) : Prop :=
  a.1 < b.1 \/ (a.1 = b.1 /\ (a.2 <= b.2)%nat).

#[global] Instance key_then_index_dec : RelDecision key_then_index.
Proof. intros a b. unfold key_then_index. apply _. Defined.

(** [np.argsort(x, kind='mergesort')]: the indices of [x] in the order of
    a stable sort. *)
Definition np_argsort_mergesort (x : list Z) : list nat :=
  (merge_sort key_then_index (zip x (seq 0 (length x)))).*2.

(** ** Sensor data *)

(** One record of a sensor dataset.  Timestamps are taken as integers;
    values are compared as NumPy compares them, and statuses, which are
    strings, by a decidable equality. *)
Record sample (V S : Type) : Type := {
  timestamp : Z;
  value : V;
  status : S
}.
Arguments timestamp {V S} _.
Arguments value {V S} _.
Arguments status {V S} _.

(** [np.rec.fromarrays([x, y, z])] *)
Fixpoint fromarrays {V S} (x : list Z) (y : list V) (z : list S)
  : list (sample V S) :=
  match x, y, z with
  | a :: x', b :: y', c :: z' =>
      {| timestamp := a; value := b; status := c |} :: fromarrays x' y' z'
  | _, _, _ => []
  end.

(** [last_of_run]: [True] where a timestamp differs from the next one,
    and at the end. *)
Definition last_of_run (x : list Z) : list bool :=
  map (fun d => negb (d =? 0)) (np_diff x) ++ [true].

(** [remove_duplicates(sensor)].  Only [x] and [y] are reordered by
    [sort_ind]; [z] keeps the order of the dataset.  The module defines no
    [logger], so the branch that is to warn about duplicates that differ
    ends in a [NameError] at its first statement. *)
Definition remove_duplicates {V S} `{EqDecision V} `{HasNaN V}
    `{EqDecision S}
    (sensor : list (sample V S)) : outcome (list (sample V S)) :=
  let x := map timestamp sensor in
  let y := map value sensor in
  let z := map status sensor in
  let sort_ind := np_argsort_mergesort x in
  let* x := take_indices x sort_ind in
  let* y := take_indices y sort_ind in
  let last_of_run := last_of_run x in
  let unique_ind := nonzero last_of_run in
  let* replacement :=
    take_indices unique_ind
      (map (fun c => (length unique_ind - c)%nat)
         (rev (np_cumsum (rev last_of_run)))) in
  let* y_repl := take_indices y replacement in
  let* differ :=
    (if negb (np_all (np_equal_arrays y_repl y)) then Returns true
     else let* z_repl := take_indices z replacement in
          Returns (negb (bool_decide (z_repl = z)))) in
  if (differ : bool) then Throws PyNameError
  else
    let* x_u := take_indices x unique_ind in
    let* y_u := take_indices y unique_ind in
    let* z_u := take_indices z unique_ind in
    Returns (fromarrays x_u y_u z_u).

(** ** Vocabulary for [remove_duplicates] *)

(** The elements of [a] at the positions where [mask] is [True]. *)
Fixpoint select {A} (mask : list bool) (a : list A) : list A :=
  match mask, a with
  | b :: m, v :: a' => if b then v :: select m a' else select m a'
  | _, _ => []
  end.

Definition count_true (mask : list bool) : nat :=
  length (filter (fun b => b = true) mask).

(** The number of [True] from each position on. *)
Fixpoint suffix_counts (mask : list bool) : list nat :=
  match mask with
  | [] => []
  | b :: m => ((if b then 1 else 0) + count_true m)%nat :: suffix_counts m
  end.

(** For each position, counted from [k], the first position from there on
    where [mask] is [True]. *)
Fixpoint next_true_from (k : nat) (mask : list bool) : list nat :=
  match mask with
  | [] => []
  | b :: m =>
      let r := next_true_from (S k) m in
      (if b then k else hd k r) :: r
  end.

(** For each position, the element of [a] at the first position from
    there on where [mask] is [True]. *)
Fixpoint fill_next {A} (mask : list bool) (a : list A) : list A :=
  match mask, a with
  | b :: m, v :: a' =>
      let r := fill_next m a' in
      (if b then v else hd v r) :: r
  | _, _ => []
  end.

(** The samples that are not followed by a sample of the same timestamp. *)
Fixpoint keep_last {V S} (l : list (sample V S)) : list (sample V S) :=
  match l with
  | [] => []
  | a :: t =>
      match t with
      | [] => [a]
      | b :: _ =>
          if timestamp b - timestamp a =? 0 then keep_last t
          else a :: keep_last t
      end
  end.

(** Neighbours of the same timestamp have the same value and status. *)
Fixpoint agreeing_neighbours {V S} `{EqDecision V} `{EqDecision S}
    (l : list (sample V S)) : bool :=
  match l with
  | [] => true
  | a :: t =>
      match t with
      | [] => true
      | b :: _ =>
          (if timestamp b - timestamp a =? 0
           then bool_decide (value a = value b)
                && bool_decide (status a = status b)
           else true)
          && agreeing_neighbours t
      end
  end.

(** Neighbours of the same timestamp agree on the field [f]. *)
Fixpoint neighbours_agree_on {V S A} (f : sample V S -> A)
    (l : list (sample V S)) : Prop :=
  match l with
  | [] => True
  | a :: t =>
      match t with
      | [] => True
      | b :: _ =>
          (timestamp b - timestamp a = 0 -> f a = f b)
          /\ neighbours_agree_on f t
      end
  end.

(** The order of the stable sort is a total order. *)
#[global] Instance key_then_index_total : Total key_then_index.
Proof. intros [k1 i1] [k2 i2]. unfold key_then_index. simpl. lia. Qed.

#[global] Instance key_then_index_trans : Transitive key_then_index.
Proof. intros [k1 i1] [k2 i2] [k3 i3]. unfold key_then_index. simpl. lia. Qed.

#[global] Instance key_then_index_antisymm : AntiSymm (=) key_then_index.
Proof.
  intros [k1 i1] [k2 i2]. unfold key_then_index. simpl. intros H1 H2.
  f_equal; lia.
Qed.

(** No value of the samples is a NaN. *)
Definition no_nan {V S} `{HasNaN V} (l : list (sample V S)) : bool :=
  forallb (fun s => negb (isnan (value s))) l.

(** Fixtures: a sensor out of order and one with a repeated record. *)
Definition reading (t v : Z) (s : string) : sample Z string :=
  {| timestamp := t; value := v; status := s |}.

Definition sensor_out_of_order : list (sample Z string) :=
  [reading 5 50 "error"; reading 3 30 "nominal"].

Definition sensor_with_repeat : list (sample Z string) :=
  [reading 1 10 "nominal"; reading 2 20 "warn"; reading 2 20 "warn";
   reading 3 30 "nominal"].

(** A sensor of floats that read NaN once. *)
Definition sensor_with_nan : list (sample np_float string) :=
  [{| timestamp := 1; value := Finite 10; status := "nominal" |};
   {| timestamp := 2; value := NaN; status := "failure" |};
   {| timestamp := 3; value := Finite 30; status := "nominal" |}].

(** ** The HDF5 loaders and their factory *)

(** [s.startswith(prefix)] *)
Definition startswith (s prefix : string) : bool := String.prefix prefix s.

(** [s.split(sep)] for a separator of one character. *)
Fixpoint str_split (sep : ascii) (s : string) : list string :=
  match s with
  | EmptyString => [EmptyString]
  | String c s' =>
      if Ascii.eqb c sep then EmptyString :: str_split sep s'
      else
        match str_split sep s' with
        | [] => [String c EmptyString]
        | w :: ws => String c w :: ws
        end
  end.

Definition apostrophe : ascii := Ascii.ascii_of_nat 39.

(** The start of [H5DataV2.__init__], up to the point where the file has
    been accepted.  [SimpleVisData_init] is the outcome of the constructor
    of the base class, [h5py_File] the outcome of [h5py.File(filename, 'r')]
    (the root group of the file, with attributes that are strings) and
    [load] the rest of the constructor. *)
Definition H5DataV2_init {A} (SimpleVisData_init : outcome unit)
    (h5py_File : outcome (h5_group string))
    (load : h5_group string -> outcome A) : outcome A :=
  let* _ := SimpleVisData_init in
  let* f := h5py_File in
  let version := default "1.x" (attrs f !! "version") in
  if negb (startswith version "2.") then
    Throws (WrongH5Version
              ("Attempting to load version '" +:+ version
               +:+ "' file with version 2 loader"))
  else if negb (bool_decide (is_Some (attrs f !! "augment_ts"))) then
    Throws PyValueError
  else load f.

(** The start of [H5DataV1.__init__], likewise. *)
Definition H5DataV1_init {A} (SimpleVisData_init : outcome unit)
    (h5py_File : outcome (h5_group string))
    (load : h5_group string -> outcome A) : outcome A :=
  let* _ := SimpleVisData_init in
  let* f := h5py_File in
  let version := default "1.x" (attrs f !! "version") in
  if negb (startswith version "1.") then
    Throws (WrongH5Version
              ("Attempting to load version '" +:+ version
               +:+ "' file with version 1 loader"))
  else if negb (bool_decide (is_Some (attrs f !! "augment"))) then
    Throws PyValueError
  else load f.

(** [h5_data(filename, *args, **kwargs)].  Both loaders open the same
    file, which does not change in between. *)
Definition h5_data {A} (SimpleVisData_init : outcome unit)
    (h5py_File : outcome (h5_group string))
    (load_v2 load_v1 : h5_group string -> outcome A) : outcome A :=
  match H5DataV2_init SimpleVisData_init h5py_File load_v2 with
  | Throws (WrongH5Version _) =>
      match H5DataV1_init SimpleVisData_init h5py_File load_v1 with
      | Throws (WrongH5Version message) =>
          let* version :=
            (if startswith message "Attempting to load" then
               match str_split apostrophe message !! 1%nat with
               | Some v => Returns v
               | None => Throws PyIndexError
               end
             else Returns "<unable to parse>") in
          Throws (WrongH5Version
                    ("Unknown HDF5 version '" +:+ version +:+ "'"))
      | o => o
      end
  | o => o
  end.

(** The version a loader reads from a file. *)
Definition file_version (f : h5_group string) : string :=
  default "1.x" (attrs f !! "version").

(** The text of [s] before its first [sep], all of [s] when it has none. *)
Fixpoint up_to (sep : ascii) (s : string) : string :=
  match s with
  | EmptyString => EmptyString
  | String c s' => if Ascii.eqb c sep then EmptyString
                   else String c (up_to sep s')
  end.

Fixpoint contains (sep : ascii) (s : string) : bool :=
  match s with
  | EmptyString => false
  | String c s' => Ascii.eqb c sep || contains sep s'
  end.

Definition raises_WrongH5Version {A} (o : outcome A) : bool :=
  match o with
  | Throws (WrongH5Version _) => true
  | _ => false
  end.

(** Fixtures: a file of a later format, and loaders that return the
    version they found. *)
Definition file_of_version (v : string) : h5_group string :=
  {| attrs := {["version" := v]}; members := ∅ |}.

Definition augmented_file (v key : string) : h5_group string :=
  {| attrs := <[key := "1"]> {["version" := v]}; members := ∅ |}.

Definition loaded_as (loader : string) (f : h5_group string)
  : outcome (string * string) :=
  Returns (loader, default "1.x" (attrs f !! "version")).

(** ** katdal/datasources.py *)

Module VisFlagsWeights.

(** The object that [VisFlagsWeights.__init__] leaves behind. *)
Record t : Type := {
  vis : ndarray;
  flags : ndarray;
  weights : ndarray;
  name : string
}.

End VisFlagsWeights.

Module DataSource.

(** [metadata_name] is [self.metadata.name]. *)
Record t : Type := {
  metadata_name : string;
  data : option VisFlagsWeights.t
}.

Definition name (self : t) : string :=
  let name := metadata_name self in
  match data self with
  | Some d =>
      if negb (String.eqb (VisFlagsWeights.name d) name) then
        name +:+ " | " +:+ VisFlagsWeights.name d
      else name
  | None => name
  end.

End DataSource.

(** What [urlparse.urlparse(url, scheme='file')] returns; [geturl] is the
    text its method of that name gives. *)
Record url_parts : Type := {
  scheme : string;
  netloc : string;
  path : string;
  query : string;
  geturl : string
}.

(** The libraries and builtins [from_url] and [open_data_source] call,
    over telescope states [T] and data sources [D]:
    - [urlparse url] is [urlparse.urlparse(url, scheme='file')];
    - [builtin_int s] is [int(s)], [None] when it raises [ValueError];
    - [builtin_repr s] is [repr(s)];
    - [load_from_file p] is [katsdptelstate.TelescopeState()], which
      makes an empty state in memory, followed by [load_from_file(p)],
      returning the state; the message of an [OSError] is its [str];
    - [TelescopeState endpoint db] is
      [katsdptelstate.TelescopeState(endpoint, db)];
    - [construct telstate capture_block_id stream_name source_name] is the
      body of [TelstateDataSource.__init__]. *)
Record services (T D : Type) : Type := {
  urlparse : string -> url_parts;
  parse_qsl : string -> list (string * string);
  builtin_int : string -> option Z;
  builtin_repr : string -> string;
  load_from_file : string -> outcome T;
  TelescopeState : string -> Z -> outcome T;
  isfile : string -> bool;
  construct : T -> option string -> option string -> string -> outcome D
}.
Arguments urlparse {T D} _ _.
Arguments parse_qsl {T D} _ _.
Arguments builtin_int {T D} _ _.
Arguments builtin_repr {T D} _ _.
Arguments load_from_file {T D} _ _.
Arguments TelescopeState {T D} _ _ _.
Arguments isfile {T D} _ _.
Arguments construct {T D} _ _ _ _ _.

(** [dict(pairs)]: a later pair replaces an earlier one of the same key. *)
Definition dict (pairs : list (string * string)) : gmap string string :=
  foldl (fun m kv => <[kv.1 := kv.2]> m) ∅ pairs.

(** The keyword parameters of [TelstateDataSource.__init__]. *)
Definition init_keywords : gset string :=
  {[ "capture_block_id"; "stream_name"; "source_name" ]}.

(** [cls(telstate, **kwargs)]: a keyword that is no parameter of
    [__init__(self, telstate, capture_block_id=None, stream_name=None,
    source_name='telstate')] is a [TypeError]. *)
Definition TelstateDataSource {T D} (env : services T D) (telstate : T)
    (kwargs : gmap string string) : outcome D :=
  if bool_decide (dom kwargs ⊆ init_keywords) then
    construct env telstate (kwargs !! "capture_block_id")
      (kwargs !! "stream_name") (default "telstate" (kwargs !! "source_name"))
  else Throws PyTypeError.

(** [TelstateDataSource.from_url(url)]; [Returns None] is falling off
    the end of the function. *)
Definition from_url {T D} (env : services T D) (url : string)
  : outcome (option D) :=
  let url_parts := urlparse env url in
  let kwargs := dict (parse_qsl env (query url_parts)) in
  let* db :=
    match builtin_int env (default "0" (kwargs !! "db")) with
    | Some n => Returns n
    | None => Throws PyValueError
    end in
  let kwargs := delete "db" kwargs in
  let kwargs := <["source_name" := geturl url_parts]> kwargs in
  if String.eqb (scheme url_parts) "file" then
    let* telstate :=
      match load_from_file env (path url_parts) with
      | Throws (PyOSError err) => Throws (DataSourceNotFound err)
      | o => o
      end in
    let* d := TelstateDataSource env telstate kwargs in
    Returns (Some d)
  else if String.eqb (scheme url_parts) "redis" then
    let* telstate :=
      match TelescopeState env (netloc url_parts) db with
      | Throws (RedisConnectionError e) => Throws (DataSourceNotFound e)
      | Throws (RedisTimeoutError e) => Throws (DataSourceNotFound e)
      | o => o
      end in
    let* d := TelstateDataSource env telstate kwargs in
    Returns (Some d)
  else Returns None.

(** The text that [open_data_source] adds to the message. *)
Definition scheme_hint {T D} (env : services T D) (p : string) : string :=
  " (add a URL scheme if " +:+ builtin_repr env p
  +:+ " is not meant to be a file)".

(** [open_data_source(url)]; [Returns None] is falling off the end of
    the handler. *)
Definition open_data_source {T D} (env : services T D) (url : string)
  : outcome (option D) :=
  match from_url env url with
  | Throws (DataSourceNotFound err) =>
      let url_parts := urlparse env url in
      if String.eqb (scheme url_parts) "file"
         && negb (isfile env (path url_parts)) then
        Throws (DataSourceNotFound (err +:+ scheme_hint env (path url_parts)))
      else Returns None
  | o => o
  end.

(** ** Vocabulary and fixtures for the data sources *)

(** The value [dict] keeps for a key: that of its last pair. *)
Fixpoint last_value (key : string) (pairs : list (string * string))
  : option string :=
  match pairs with
  | [] => None
  | (k, v) :: rest =>
      match last_value key rest with
      | Some v' => Some v'
      | None => if String.eqb k key then Some v else None
      end
  end.

(** The pairs found in the query of a URL. *)
Definition url_pairs {T D} (env : services T D) (url : string)
  : list (string * string) :=
  parse_qsl env (query (urlparse env url)).

(** The number of the Redis database a URL asks for. *)
Definition url_db {T D} (env : services T D) (url : string) : option Z :=
  builtin_int env (default "0" (last_value "db" (url_pairs env url))).

Definition url_keywords : list string :=
  ["db"; "capture_block_id"; "stream_name"; "source_name"].

Definition known_keys (pairs : list (string * string)) : bool :=
  forallb (fun kv => bool_decide (kv.1 ∈ url_keywords)) pairs.

(** A world with no file and no server; [urlparse] is given by a table
    of the URLs of interest. *)
Definition redis_url : url_parts :=
  {| scheme := "redis"; netloc := "localhost:6379"; path := "";
     query := "db=1"; geturl := "redis://localhost:6379?db=1" |}.

Definition bare_address : url_parts :=
  {| scheme := "file"; netloc := ""; path := "10.0.0.1";
     query := ""; geturl := "file:///10.0.0.1" |}.

Definition ftp_url : url_parts :=
  {| scheme := "ftp"; netloc := "host"; path := "/dump.rdb";
     query := ""; geturl := "ftp://host/dump.rdb" |}.

Definition file_url_with_stream : url_parts :=
  {| scheme := "file"; netloc := ""; path := "/dump.rdb";
     query := "stream_name=a&source_name=b&stream_name=c";
     geturl :=
       "file:///dump.rdb?stream_name=a&source_name=b&stream_name=c" |}.

Definition empty_world : services unit (option string * option string * string) :=
  {| urlparse := fun url =>
       if String.eqb url "redis://localhost:6379?db=1" then redis_url
       else if String.eqb url "ftp://host/dump.rdb" then ftp_url
       else if String.eqb url "10.0.0.1" then bare_address
       else file_url_with_stream;
     parse_qsl := fun q =>
       if String.eqb q "db=1" then [("db", "1")]
       else if String.eqb q "" then []
       else [("stream_name", "a"); ("source_name", "b");
             ("stream_name", "c")];
     builtin_int := fun s =>
       if String.eqb s "0" then Some 0
       else if String.eqb s "1" then Some 1 else None;
     builtin_repr := fun s => "'" +:+ s +:+ "'";
     load_from_file := fun p =>
       if String.eqb p "/dump.rdb" then Returns tt
       else Throws (PyOSError "[Errno 2] No such file or directory");
     TelescopeState := fun _ _ =>
       Throws (RedisConnectionError "Connection refused");
     isfile := fun p => String.eqb p "/dump.rdb";
     construct := fun _ cb st src => Returns (cb, st, src) |}.

(** ** The scans of a version 2 file *)

(** [simplify.get(act, 'stop')] *)
Definition simplify (act : string) : string :=
  if String.eqb act "scan" then "scan"
  else if String.eqb act "track" then "track"
  else if String.eqb act "slew" then "slew"
  else if String.eqb act "scan_ready" then "slew"
  else if String.eqb act "scan_complete" then "slew"
  else "stop".

(** [[n for n in xrange(len(state))
      if (n == 0) or (state[n] != state[n - 1])]] *)
Definition state_changes (state : list string) : list nat :=
  List.filter
    (fun n => (n =? 0)%nat
              || negb (String.eqb (nth n state "") (nth (n - 1) state "")))
    (seq 0 (length state)).

(** [a.searchsorted(v)] and [a.searchsorted(v, side='right')] for [a] in
    ascending order: the number of elements of [a] below [v], and the
    number of elements that are not above it.  Times are compared only,
    and are integers here. *)
Definition searchsorted (a : list Z) (v : Z) : Z :=
  Z.of_nat (length (List.filter (fun x => x <? v) a)).

Definition searchsorted_right (a : list Z) (v : Z) : Z :=
  Z.of_nat (length (List.filter (fun x => x <=? v) a)).

(** [if len(dump_endtimes) > 1 and (dump_endtimes[-1] == dump_endtimes[-2]):
        dump_endtimes = dump_endtimes[:-1]] *)
Definition discard_stop_packet (dump_endtimes : list Z) : list Z :=
  match rev dump_endtimes with
  | last :: before :: _ =>
      if last =? before then removelast dump_endtimes else dump_endtimes
  | _ => dump_endtimes
  end.

(** [a[i:j]]; a negative bound counts from the end. *)
Definition slice_bound (len i : Z) : Z :=
  if i <? 0 then Z.max 0 (i + len) else Z.min i len.

Definition py_slice {A} (a : list A) (i j : Z) : list A :=
  let len := Z.of_nat (length a) in
  take (Z.to_nat (slice_bound len j - slice_bound len i))
    (drop (Z.to_nat (slice_bound len i)) a).

Record scan_tables : Type := {
  _scan_states : list string;
  _scan_starts : list Z;
  _scan_ends : list Z
}.

(** The part of [H5DataV2.__init__] that partitions the data set into
    scans, from the activity sensor as [remove_duplicates] returned it
    and the end times of the dumps. *)
Definition partition_into_scans {S} (dump_endtimes : list Z)
    (activity_sensor : list (sample string S)) : outcome scan_tables :=
  let state := map (fun s => simplify (value s)) activity_sensor in
  let state_changes := state_changes state in
  let* scan_states := take_indices state state_changes in
  let* state_timestamps :=
    take_indices (map timestamp activity_sensor) state_changes in
  let scan_starts := map (searchsorted dump_endtimes) state_timestamps in
  let scan_ends :=
    map (fun s => s - 1) (tail scan_starts)
    ++ [Z.of_nat (length dump_endtimes) - 1] in
  Returns {| _scan_states := scan_states; _scan_starts := scan_starts;
             _scan_ends := scan_ends |}.

(** [H5DataV2.timestamps] while [_first_sample] and [_last_sample] are
    [first] and [last]. *)
Definition V2_timestamps (_data_timestamps : list Z) (first last : Z)
  : list Z :=
  py_slice _data_timestamps first (last + 1).

(** ** Vocabulary for the scans *)

(** A list without the elements that repeat the one before them. *)
Fixpoint collapse_after (prev : string) (l : list string) : list string :=
  match l with
  | [] => []
  | s :: rest =>
      if String.eqb s prev then collapse_after s rest
      else s :: collapse_after s rest
  end.

Definition collapse_runs (l : list string) : list string :=
  match l with
  | [] => []
  | s :: rest => s :: collapse_after s rest
  end.

Fixpoint adjacent_differ (l : list string) : Prop :=
  match l with
  | a :: (b :: _) as rest => a <> b /\ adjacent_differ rest
  | _ => True
  end.

(** The mask of the elements that differ from the one before them. *)
Fixpoint change_mask (prev : string) (l : list string) : list bool :=
  match l with
  | [] => []
  | s :: rest => negb (String.eqb s prev) :: change_mask s rest
  end.

(** Fixture: an antenna that slews, tracks and is stopped over five
    dumps. *)
Definition activity_of_pass : list (sample string string) :=
  [ {| timestamp := 10; value := "slew"; status := "nominal" |};
    {| timestamp := 15; value := "scan_ready"; status := "nominal" |};
    {| timestamp := 25; value := "track"; status := "nominal" |};
    {| timestamp := 45; value := "idle"; status := "nominal" |} ].

Definition dump_endtimes_of_pass : list Z := [10; 20; 30; 40; 50].

(** The same dumps as they are read, with the repeated dump of the stop
    packet. *)
Definition raw_dump_endtimes_of_pass : list Z := [10; 20; 30; 40; 50; 50].

Definition data_timestamps_of_pass : list Z := [5; 15; 25; 35; 45; 45].

(** The times at which the simplified activity changes. *)
Definition state_change_times {S} (activity_sensor : list (sample string S))
  : list Z :=
  match map (fun s => simplify (value s)) activity_sensor with
  | [] => []
  | s :: rest =>
      select (true :: change_mask s rest) (map timestamp activity_sensor)
  end.

(** ** The compound scans of a version 2 file *)

(** [[n for n in xrange(len(target))
      if target[n] and ((n == 0) or (target[n] != target[n - 1]))]] *)
Definition target_changes (target : list string) : list nat :=
  List.filter
    (fun n => negb (String.eqb (nth n target "") "")
              && ((n =? 0)%nat
                  || negb (String.eqb (nth n target "")
                             (nth (n - 1) target ""))))
    (seq 0 (length target)).

(** [tgt[1:-1]] *)
Definition strip_quotes (tgt : string) : string :=
  String.substring 1 (String.length tgt - 2) tgt.

(** [[f(x) for x in l]], where [f] may raise. *)
Fixpoint comprehension {A B} (f : A -> outcome B) (l : list A)
  : outcome (list B) :=
  match l with
  | [] => Returns []
  | x :: rest =>
      let* y := f x in
      let* ys := comprehension f rest in
      Returns (y :: ys)
  end.

Record compscan_tables (Tg : Type) : Type := {
  _compscan_targets : list Tg;
  _scan_compscans : list Z
}.
Arguments _compscan_targets {Tg} _.
Arguments _scan_compscans {Tg} _.

(** The part of [H5DataV2.__init__] that partitions the data set into
    compound scans, from the target sensor as [remove_duplicates] returned
    it.  [Target] is [katpoint.Target]. *)
Definition partition_into_compscans {St Tg} (Target : string -> outcome Tg)
    (dump_endtimes : list Z) (target_sensor : list (sample string St))
    (_scan_starts : list Z) : outcome (compscan_tables Tg) :=
  let target := map value target_sensor in
  let target_timestamps := map timestamp target_sensor in
  let target_changes := target_changes target in
  let* compscan_targets := take_indices target target_changes in
  let* target_timestamps := take_indices target_timestamps target_changes in
  let compscan_starts := map (searchsorted dump_endtimes) target_timestamps in
  let* _compscan_targets :=
    comprehension (fun tgt => Target (strip_quotes tgt)) compscan_targets in
  let _scan_compscans :=
    map (fun s => searchsorted_right compscan_starts s - 1) _scan_starts in
  Returns {| _compscan_targets := _compscan_targets;
             _scan_compscans := _scan_compscans |}.

(** [l[i]] for a Python list and for an array of one dimension: a
    negative index counts from the end. *)
Definition py_index {A} (l : list A) (i : Z) : outcome A :=
  let len := Z.of_nat (length l) in
  let i' := if i <? 0 then i + len else i in
  if (i' <? 0) || (len <=? i') then Throws PyIndexError
  else
    match l !! Z.to_nat i' with
    | Some x => Returns x
    | None => Throws PyIndexError
    end.

(** What [H5DataV2.scans] yields, with [_first_sample] and [_last_sample]
    as they are while the consumer has the item. *)
Record scan (Tg : Type) : Type := {
  scan_index : nat;
  compscan_index : Z;
  state : string;
  target : Tg;
  _first_sample : Z;
  _last_sample : Z
}.
Arguments scan_index {Tg} _.
Arguments compscan_index {Tg} _.
Arguments state {Tg} _.
Arguments target {Tg} _.
Arguments _first_sample {Tg} _.
Arguments _last_sample {Tg} _.

(** One turn of the loop of [H5DataV2.scans]. *)
Definition scans_body {Tg} (st : scan_tables) (ct : compscan_tables Tg)
    (scan_index : nat) : outcome (scan Tg) :=
  let* compscan_index :=
    py_index (_scan_compscans ct) (Z.of_nat scan_index) in
  let* state := py_index (_scan_states st) (Z.of_nat scan_index) in
  let* target := py_index (_compscan_targets ct) compscan_index in
  let* first := py_index (_scan_starts st) (Z.of_nat scan_index) in
  let* last := py_index (_scan_ends st) (Z.of_nat scan_index) in
  Returns {| scan_index := scan_index; compscan_index := compscan_index;
             state := state; target := target;
             _first_sample := first; _last_sample := last |}.

(** A generator: the items it yields, and the exception that ends it,
    if any. *)
Fixpoint generate {A B} (body : A -> outcome B) (l : list A)
  : list B * option py_exn :=
  match l with
  | [] => ([], None)
  | x :: rest =>
      match body x with
      | Throws e => ([], Some e)
      | Returns y =>
          let (ys, e) := generate body rest in (y :: ys, e)
      end
  end.

(** [H5DataV2.scans].  After its last item the generator sets
    [_first_sample] and [_last_sample] back to the whole data set, which
    no item shows. *)
Definition scans {Tg} (st : scan_tables) (ct : compscan_tables Tg)
  : list (scan Tg) * option py_exn :=
  generate (scans_body st ct) (seq 0 (length (_scan_states st))).

(** Fixture: the targets of the pass; the first one is set after the
    antenna has started to slew. *)
Definition targets_of_pass : list (sample string string) :=
  [ {| timestamp := 5; value := ""; status := "nominal" |};
    {| timestamp := 25; value := "'Sun, special'"; status := "nominal" |};
    {| timestamp := 45; value := "'Moon, special'"; status := "nominal" |} ].

Definition scan_tables_of_pass : scan_tables :=
  {| _scan_states := ["slew"; "track"; "stop"];
     _scan_starts := [0; 2; 4];
     _scan_ends := [1; 3; 4] |}.

Definition compscan_tables_of_pass : compscan_tables string :=
  {| _compscan_targets := ["Sun, special"; "Moon, special"];
     _scan_compscans := [-1; 0; 1] |}.

(** * Properties *)

(** ** The engine and the paths on the inputs of the docstrings *)

Example format_05d_1 : format_05d 1 = "00001".
Proof. reflexivity. Qed.
Example format_05d_512 : format_05d 512 = "00512".
Proof. reflexivity. Qed.
Example format_05d_big : format_05d 1234567 = "1234567".
Proof. reflexivity. Qed.
Example format_05d_neg : format_05d (-7) = "-0007".
Proof. reflexivity. Qed.
Example chunk_name_y :
  chunk_name "y" (Seq [slice2 3 7; slice2 2 5; slice2 1 2])
  = Ok "y/00003_00002_00001".
Proof. reflexivity. Qed.
Example os_path_split_file :
  os_path_split "/data/x/00003.npy" = ("/data/x", "00003.npy").
Proof. reflexivity. Qed.
Example os_path_split_root : os_path_split "/x" = ("/", "x").
Proof. reflexivity. Qed.
Example os_path_join_rel : os_path_join "/data" "x/00003" = "/data/x/00003".
Proof. reflexivity. Qed.
Example os_path_join_abs : os_path_join "/data" "/x/00003" = "/x/00003".
Proof. reflexivity. Qed.

(** ** The monad *)

Lemma bind_lift_raise {W A B} (e : exn) (k : A -> M W B) (w : W) :
  bind (lift (Raise e)) k w = (Raise e, w).
Proof. reflexivity. Qed.

Lemma bind_lift_ok {W A B} (a : A) (k : A -> M W B) (w : W) :
  bind (lift (Ok a)) k w = k a w.
Proof. reflexivity. Qed.

(** ** Strings *)

Lemma append_cons (x : ascii) (s t : string) :
  String x s +:+ t = String x (s +:+ t).
Proof. reflexivity. Qed.

Lemma append_assoc (a b c : string) : (a +:+ b) +:+ c = a +:+ b +:+ c.
Proof.
  induction a as [|x a IH]; [reflexivity|].
  rewrite !append_cons, IH. reflexivity.
Qed.

Lemma endswith_refl (s : string) : endswith s s = true.
Proof. destruct s; cbn [endswith]; rewrite String.eqb_refl; reflexivity. Qed.

Lemma endswith_append (s suffix : string) : endswith (s +:+ suffix) suffix = true.
Proof.
  induction s as [|x s IH].
  - apply endswith_refl.
  - rewrite append_cons. cbn [endswith]. rewrite IH. apply orb_true_r.
Qed.

Lemma length_append (s t : string) :
  String.length (s +:+ t) = (String.length s + String.length t)%nat.
Proof.
  induction s as [|c s IH]; [reflexivity|].
  rewrite append_cons. cbn [String.length]. rewrite IH. reflexivity.
Qed.

Lemma append_inj_r (s1 s2 t : string) : s1 +:+ t = s2 +:+ t -> s1 = s2.
Proof.
  revert s2. induction s1 as [|c1 s1 IH]; intros [|c2 s2] H.
  - reflexivity.
  - apply (f_equal String.length) in H.
    rewrite append_cons in H. cbn [String.length] in H.
    rewrite ?length_append in H. cbn [String.append String.length] in H. lia.
  - apply (f_equal String.length) in H.
    rewrite append_cons in H. cbn [String.length] in H.
    rewrite ?length_append in H. cbn [String.append String.length] in H. lia.
  - rewrite !append_cons in H. injection H as -> H.
    f_equal. apply IH, H.
Qed.

(** ** Validation of slice specifications *)

Lemma bad_step_no_range (i : index) : bad_step i = true -> range_of i = None.
Proof.
  destruct i as [[a b [k|]]|n]; simpl; try discriminate.
  intros Hk. unfold unit_stride. simpl.
  destruct a, b; try reflexivity.
  destruct (k =? 1); [discriminate | reflexivity].
Qed.

Lemma non_unit_step_rejected (slices : slice_spec) :
  non_unit_step slices = true -> ranges_of slices = None.
Proof.
  destruct slices as [l|i]; simpl; [|reflexivity].
  destruct l as [|x l]; [reflexivity|].
  intros H. apply mapM_None_2.
  apply existsb_exists in H as (y & Hin & Hy).
  apply Exists_exists. exists y. split.
  - apply list_elem_of_In. exact Hin.
  - apply bad_step_no_range. exact Hy.
Qed.

Lemma chunk_name_rejected (name : string) (slices : slice_spec) :
  ranges_of slices = None ->
  chunk_name name slices = Raise (Standard MalformedRequest None).
Proof. intros H. unfold chunk_name. rewrite H. reflexivity. Qed.

Lemma chunk_metadata_rejected (name : string) (slices : slice_spec)
    (chunk : option ndarray) (dt : option np_dtype) :
  ranges_of slices = None ->
  chunk_metadata name slices chunk dt = Raise (Standard MalformedRequest None).
Proof. intros H. unfold chunk_metadata. rewrite H. reflexivity. Qed.

Lemma chunk_name_accepted (name : string) (slices : slice_spec)
    (rs : list (Z * Z)) :
  ranges_of slices = Some rs ->
  chunk_name name slices = Ok (join [name; index_string (map fst rs)]).
Proof. intros H. unfold chunk_name. rewrite H. reflexivity. Qed.

(** ** C2: non-unit steps *)

(** [put] of the RADOS store never gets as far as the cluster: its call of
    the key derivation is refused, whatever the arguments. *)
Lemma rados_put_raises_TypeError (self : RadosChunkStore.t)
    (array_name : string) (slices : slice_spec) (chunk : ndarray)
    (c : cluster) :
  RadosChunkStore.put self array_name slices chunk c
  = (Raise (Native TypeError), c).
Proof. reflexivity. Qed.

(** C2.  A slice specification with a step other than 1 in some dimension
    makes [get] of both stores and [put] of the file store raise
    [MalformedRequest].  [put] of the RADOS store raises a [TypeError]
    instead: it hands the chunk to the key derivation, which takes none,
    so the call is refused before the slices are looked at.  In all four
    the file system and the cluster are left exactly as they were, with no
    call recorded, so nothing was asked of the backend. *)
Theorem non_unit_step_raises_before_io
    (array_name : string) (slices : slice_spec)
    (Hstep : non_unit_step slices = true) :
  (forall self dt fs,
      NpyFileChunkStore.get self array_name slices dt fs
      = (Raise (Standard MalformedRequest None), fs)) /\
  (forall self chunk fs,
      NpyFileChunkStore.put self array_name slices chunk fs
      = (Raise (Standard MalformedRequest None), fs)) /\
  (forall self dt c,
      RadosChunkStore.get self array_name slices dt c
      = (Raise (Standard MalformedRequest None), c)) /\
  (forall self chunk c,
      RadosChunkStore.put self array_name slices chunk c
      = (Raise (Native TypeError), c)).
Proof.
  apply non_unit_step_rejected in Hstep.
  split; [|split; [|split]]; intros.
  - unfold NpyFileChunkStore.get.
    rewrite (chunk_name_rejected _ _ Hstep). apply bind_lift_raise.
  - unfold NpyFileChunkStore.put.
    rewrite (chunk_name_rejected _ _ Hstep). apply bind_lift_raise.
  - unfold RadosChunkStore.get.
    rewrite (chunk_metadata_rejected _ _ _ _ Hstep). apply bind_lift_raise.
  - apply rados_put_raises_TypeError.
Qed.

Lemma non_unit_step_raises_before_io_witness :
  non_unit_step (Seq [slice3 0 10 2]) = true /\
  NpyFileChunkStore.get npy_store "x" (Seq [slice3 0 10 2]) (Some int64)
    empty_dir
  = (Raise (Standard MalformedRequest None), empty_dir) /\
  RadosChunkStore.get rados_store "x" (Seq [slice3 0 10 2]) int64 empty_pool
  = (Raise (Standard MalformedRequest None), empty_pool) /\
  RadosChunkStore.put rados_store "x" (Seq [slice3 0 10 2]) x_3_5 empty_pool
  = (Raise (Native TypeError), empty_pool).
Proof.
  split; [reflexivity|].
  pose proof (non_unit_step_raises_before_io "x" (Seq [slice3 0 10 2]) eq_refl)
    as (Hget & _ & Hrget & Hput).
  split; [apply Hget | split; [apply Hrget | apply Hput]].
Defined.

(** ** C9: construction of the file store *)

(** C9.  [NpyFileChunkStore.init] asks the file system one question, whether
    the path is a directory.  If it is not, an [IOError] is raised and no
    store exists to call [get] or [put] on; if it is, the store on that
    path is returned.  Either way the directories and files are untouched
    and the only call recorded is that check. *)
Theorem npy_init_checks_directory (path : string) (fs : filesystem) :
  (path ∉ dirs fs ->
   NpyFileChunkStore.init path fs
   = (Raise (Native IOError), fs_record (EvIsDir path) fs)) /\
  (path ∈ dirs fs ->
   NpyFileChunkStore.init path fs
   = (Ok {| NpyFileChunkStore.path := path |}, fs_record (EvIsDir path) fs)) /\
  dirs (snd (NpyFileChunkStore.init path fs)) = dirs fs /\
  files (snd (NpyFileChunkStore.init path fs)) = files fs /\
  fs_log (snd (NpyFileChunkStore.init path fs)) = fs_log fs ++ [EvIsDir path].
Proof.
  unfold NpyFileChunkStore.init, bind, os_path_isdir, raise, ret.
  repeat split.
  - intros H. rewrite bool_decide_eq_false_2 by exact H. reflexivity.
  - intros H. rewrite bool_decide_eq_true_2 by exact H. reflexivity.
  - destruct (bool_decide (path ∈ dirs fs)); reflexivity.
  - destruct (bool_decide (path ∈ dirs fs)); reflexivity.
  - destruct (bool_decide (path ∈ dirs fs)); reflexivity.
Qed.

(** ** C10, C1, C3: what the file store raises *)

Lemma np_load_ok_or_native (file : string) (fs : filesystem) :
  ok_or_native (fst (np_load file fs)) = true.
Proof.
  unfold np_load. destruct (fs_fault fs); [reflexivity|].
  destruct (files fs !! file); reflexivity.
Qed.

Lemma np_load_missing (file : string) (fs : filesystem) :
  fs_fault fs = None -> files fs !! file = None ->
  np_load file fs = (Raise (Native IOError), fs_record (EvLoad file) fs).
Proof. intros Hf Hm. unfold np_load. rewrite Hf, Hm. reflexivity. Qed.

Lemma np_save_ok_or_native (file : string) (a : ndarray) (fs : filesystem) :
  ok_or_native (fst (np_save file a fs)) = true.
Proof.
  unfold np_save. destruct (fs_fault fs); [reflexivity|].
  destruct (save_fault fs); [reflexivity|].
  match goal with |- context [if ?b then (Ok tt, _) else _] => destruct b end;
    reflexivity.
Qed.

Lemma os_mkdir_only_makes_dirs (p : string) (fs : filesystem) :
  only_makes_dirs p fs (os_mkdir p fs).
Proof.
  unfold only_makes_dirs, os_mkdir.
  destruct (fs_fault fs) as [e|] eqn:Hf;
    [cbn [fst snd ok_or_native]; repeat split; auto; discriminate|].
  destruct (String.eqb p "" || path_exists fs p);
    [cbn [fst snd ok_or_native]; repeat split; auto; discriminate|].
  destruct (String.eqb (fst (os_path_split p)) ""
            || bool_decide (fst (os_path_split p) ∈ dirs fs));
    cbn [fst snd ok_or_native fs_set_dirs files fs_fault save_fault fs_log
         dirs];
    repeat split; auto; try discriminate.
  - intros d Hd. apply elem_of_union. right. exact Hd.
  - intros _. apply elem_of_union. left. apply elem_of_singleton. reflexivity.
Qed.

Lemma only_makes_dirs_then (head name : string) (fs : filesystem)
    (r1 r2 : result unit * filesystem) :
  only_makes_dirs head fs r1 -> only_makes_dirs name (snd r1) r2 ->
  only_makes_dirs name fs r2.
Proof.
  intros (F1 & A1 & S1 & L1 & D1 & _ & _) (F2 & A2 & S2 & L2 & D2 & O2 & N2).
  unfold only_makes_dirs. repeat split; try congruence; auto.
Qed.

Lemma makedirs_only_makes_dirs (fuel : nat) (name : string) (fs : filesystem) :
  only_makes_dirs name fs (makedirs fuel name fs).
Proof.
  revert name fs. induction fuel as [|fuel IH]; intros name fs;
    cbn [makedirs];
    destruct (os_path_split name) as [h0 t0];
    destruct (if String.eqb t0 "" then os_path_split h0 else (h0, t0))
      as [head tail];
    destruct (negb (String.eqb head "") && negb (String.eqb tail "")
              && negb (path_exists fs head));
    try apply os_mkdir_only_makes_dirs.
  - unfold only_makes_dirs. cbn [fst snd ok_or_native].
    repeat split; auto; discriminate.
  - pose proof (IH head fs) as H1.
    destruct (makedirs fuel head fs) as [[[]|e] fs1] eqn:Hrec.
    + destruct (String.eqb tail ".").
      * destruct H1 as (F1 & A1 & S1 & L1 & D1 & _ & _).
        cbn [fst snd] in *. unfold only_makes_dirs.
        cbn [fst snd ok_or_native fs_set_dirs files fs_fault save_fault
             fs_log dirs].
        repeat split; auto.
        -- intros d Hd. apply elem_of_union. right. auto.
        -- intros _. apply elem_of_union. left. apply elem_of_singleton.
           reflexivity.
      * apply (only_makes_dirs_then head name fs (Ok tt, fs1)); [exact H1|].
        apply os_mkdir_only_makes_dirs.
    + destruct H1 as (F1 & A1 & S1 & L1 & D1 & O1 & _).
      cbn [fst snd] in *. unfold only_makes_dirs. cbn [fst snd].
      repeat split; auto; discriminate.
Qed.

Lemma rsplit_sep_parts (p h t : string) :
  rsplit_sep p = Some (h, t) -> p = h +:+ t.
Proof.
  revert h t. induction p as [|c p IH]; intros h t; [discriminate|].
  cbn [rsplit_sep].
  destruct (rsplit_sep p) as [[h' t']|].
  - intros [= <- <-]. rewrite append_cons, <- (IH h' t' eq_refl). reflexivity.
  - destruct (Ascii.eqb c "/") eqn:Hc; [|discriminate].
    intros [= <- <-]. apply Ascii.eqb_eq in Hc. subst c. reflexivity.
Qed.

Lemma rstrip_sep_shorter (s : string) :
  (String.length (rstrip_sep s) <= String.length s)%nat.
Proof.
  induction s as [|c s IH]; [reflexivity|].
  cbn [rstrip_sep].
  destruct (Ascii.eqb c "/" && String.eqb (rstrip_sep s) "");
    cbn [String.length]; lia.
Qed.

(** The two parts of [os.path.split] are together no longer than the
    path. *)
Lemma os_path_split_shorter (p : string) :
  (String.length (fst (os_path_split p))
   + String.length (snd (os_path_split p)) <= String.length p)%nat.
Proof.
  unfold os_path_split.
  destruct (rsplit_sep p) as [[h t]|] eqn:Hsplit.
  - apply rsplit_sep_parts in Hsplit. subst p. rewrite length_append.
    pose proof (rstrip_sep_shorter h).
    destruct (String.eqb (rstrip_sep h) ""); cbn [fst snd]; lia.
  - cbn [rstrip_sep String.eqb fst snd String.length]. lia.
Qed.

(** The depth that [os_makedirs] allows for is never used up: with the
    length of the name or anything more, [makedirs] does the same. *)
Lemma makedirs_fuel (fuel1 : nat) :
  forall (fuel2 : nat) (name : string) (fs : filesystem),
    (String.length name <= fuel1)%nat -> (String.length name <= fuel2)%nat ->
    makedirs fuel1 name fs = makedirs fuel2 name fs.
Proof.
  induction fuel1 as [|fuel1 IH]; intros fuel2 name fs H1 H2.
  - destruct name; [|cbn [String.length] in H1; lia].
    destruct fuel2; reflexivity.
  - pose proof (os_path_split_shorter name) as Hname.
    destruct fuel2 as [|fuel2].
    + destruct name; [reflexivity | cbn [String.length] in H2; lia].
    + cbn [makedirs].
      destruct (os_path_split name) as [h0 t0] eqn:Hsplit.
      cbn [fst snd] in Hname.
      pose proof (os_path_split_shorter h0) as Hhead.
      destruct (String.eqb_spec t0 "") as [->|Ht0].
      * destruct (os_path_split h0) as [head tail]. cbn [fst snd] in Hhead.
        destruct (negb (String.eqb head "") && negb (String.eqb tail "")
                  && negb (path_exists fs head)) eqn:Hcond; [|reflexivity].
        apply andb_true_iff in Hcond as [Hcond _].
        apply andb_true_iff in Hcond as [_ Htail].
        apply negb_true_iff, String.eqb_neq in Htail.
        destruct tail; [contradiction|]. cbn [String.length] in Hhead.
        rewrite (IH fuel2 head fs) by lia. reflexivity.
      * destruct (negb (String.eqb h0 "") && negb (String.eqb t0 "")
                  && negb (path_exists fs h0)) eqn:Hcond; [|reflexivity].
        destruct t0; [contradiction|]. cbn [String.length] in Hname.
        rewrite (IH fuel2 h0 fs) by lia. reflexivity.
Qed.

(** [os.makedirs] records its call and makes directories, nothing else. *)
Lemma os_makedirs_effect (name : string) (fs : filesystem) :
  let r := os_makedirs name fs in
  files (snd r) = files fs /\
  fs_fault (snd r) = fs_fault fs /\
  save_fault (snd r) = save_fault fs /\
  fs_log (snd r) = fs_log fs ++ [EvMakeDirs name] /\
  (forall d, d ∈ dirs fs -> d ∈ dirs (snd r)) /\
  ok_or_native (fst r) = true /\
  (fst r = Ok tt -> name ∈ dirs (snd r)).
Proof.
  unfold os_makedirs.
  pose proof (makedirs_only_makes_dirs (String.length name) name
                (fs_record (EvMakeDirs name) fs)) as H.
  exact H.
Qed.

Lemma os_makedirs_ok_or_native (name : string) (fs : filesystem) :
  ok_or_native (fst (os_makedirs name fs)) = true.
Proof. apply os_makedirs_effect. Qed.

(** With a slice specification the key derivation accepts, [get] is the
    load of the chunk's file and nothing else. *)
Lemma npy_get_accepted (self : NpyFileChunkStore.t) (array_name : string)
    (slices : slice_spec) (dt : option np_dtype) (rs : list (Z * Z))
    (fs : filesystem) :
  ranges_of slices = Some rs ->
  NpyFileChunkStore.get self array_name slices dt fs
  = np_load (NpyFileChunkStore.filename self
               (join [array_name; index_string (map fst rs)])) fs.
Proof.
  intros H. unfold NpyFileChunkStore.get.
  rewrite (chunk_name_accepted _ _ _ H). reflexivity.
Qed.

Lemma npy_put_ok_or_native (self : NpyFileChunkStore.t) (array_name : string)
    (slices : slice_spec) (chunk : ndarray) (rs : list (Z * Z))
    (fs : filesystem) :
  ranges_of slices = Some rs ->
  ok_or_native (fst (NpyFileChunkStore.put self array_name slices chunk fs))
  = true.
Proof.
  intros H. unfold NpyFileChunkStore.put.
  rewrite (chunk_name_accepted _ _ _ H), bind_lift_ok.
  unfold bind at 1. unfold os_path_isdir.
  match goal with |- context [bool_decide ?P] => destruct (bool_decide P) end;
    simpl negb; cbv iota.
  - unfold bind, ret. apply np_save_ok_or_native.
  - unfold bind.
    match goal with |- context [os_makedirs ?d ?w] =>
      pose proof (os_makedirs_ok_or_native d w) as Hm;
      destruct (os_makedirs d w) as [[[]|e] w'] end.
    + apply np_save_ok_or_native.
    + exact Hm.
Qed.

(** C10, as the code has it.  [get] and [put] of the file store never raise
    [ChunkNotFound] or [StoreUnavailable] and translate nothing: with a
    slice specification that the key derivation accepts, [get] is exactly
    the load of the chunk's file, and both methods end in a value or in the
    native exception of the file operation that failed (a missing file is
    the [IOError] of the load).  A slice specification that the key
    derivation rejects is the one source of a standardised kind:
    [MalformedRequest], raised before the file system is touched. *)
Theorem npy_store_raises_native_or_malformed
    (self : NpyFileChunkStore.t) (array_name : string) (slices : slice_spec)
    (dt : option np_dtype) (chunk : ndarray) (fs : filesystem) :
  match ranges_of slices with
  | None =>
      NpyFileChunkStore.get self array_name slices dt fs
      = (Raise (Standard MalformedRequest None), fs) /\
      NpyFileChunkStore.put self array_name slices chunk fs
      = (Raise (Standard MalformedRequest None), fs)
  | Some rs =>
      let file :=
        NpyFileChunkStore.filename self
          (join [array_name; index_string (map fst rs)]) in
      NpyFileChunkStore.get self array_name slices dt fs = np_load file fs /\
      ok_or_native (fst (NpyFileChunkStore.get self array_name slices dt fs))
      = true /\
      ok_or_native (fst (NpyFileChunkStore.put self array_name slices chunk fs))
      = true /\
      (fs_fault fs = None -> files fs !! file = None ->
       fst (NpyFileChunkStore.get self array_name slices dt fs)
       = Raise (Native IOError))
  end.
Proof.
  destruct (ranges_of slices) as [rs|] eqn:Hr.
  - cbv zeta. rewrite (npy_get_accepted _ _ _ _ _ _ Hr).
    repeat split.
    + apply np_load_ok_or_native.
    + apply (npy_put_ok_or_native _ _ _ _ _ _ Hr).
    + intros Hf Hm. rewrite (np_load_missing _ _ Hf Hm). reflexivity.
  - split.
    + unfold NpyFileChunkStore.get.
      rewrite (chunk_name_rejected _ _ Hr). apply bind_lift_raise.
    + unfold NpyFileChunkStore.put.
      rewrite (chunk_name_rejected _ _ Hr). apply bind_lift_raise.
Qed.

(** C10, as stated, fails: a step of 2 makes [get] of the file store raise
    the standardised kind [MalformedRequest]. *)
Lemma npy_get_raises_malformed_request :
  ok_or_native
    (fst (NpyFileChunkStore.get npy_store "x" (Seq [slice3 0 10 2])
            (Some int64) empty_dir)) = false /\
  fst (NpyFileChunkStore.get npy_store "x" (Seq [slice3 0 10 2])
         (Some int64) empty_dir)
  = Raise (Standard MalformedRequest None).
Proof. split; reflexivity. Qed.

(** C1 at the input of the store tests: on a store that holds no chunk,
    [get] of the file store ends in the [IOError] of the load, not in
    [ChunkNotFound]; [get] of the RADOS store on an empty pool does raise
    [ChunkNotFound], with the name of the chunk. *)
Theorem npy_get_missing_chunk_raises_IOError :
  fst (NpyFileChunkStore.get npy_store "haha" (Seq [slice2 0 1])
         (Some float64) empty_dir)
  = Raise (Native IOError) /\
  fst (RadosChunkStore.get rados_store "haha" (Seq [slice2 0 1])
         float64 empty_pool)
  = Raise (Standard ChunkNotFound (Some "haha/00000")).
Proof. split; vm_compute; reflexivity. Qed.

(** C3 at the input of the metadata test: a chunk of eleven elements put
    under a slice of ten.  The file store never shows the chunk to the
    engine: [put] returns normally and the file now holds the eleven
    elements.  The RADOS store writes nothing, but what it raises is the
    [TypeError] of its call of the key derivation, as for every chunk, and
    not [MalformedRequest]. *)
Theorem npy_put_accepts_shape_mismatch :
  shape ones11 <> [10 - 0] /\
  fst (NpyFileChunkStore.put npy_store "x" (Seq [slice3 0 10 1]) ones11
         empty_dir) = Ok tt /\
  files (snd (NpyFileChunkStore.put npy_store "x" (Seq [slice3 0 10 1]) ones11
                empty_dir)) !! "/data/x/00000.npy" = Some ones11 /\
  RadosChunkStore.put rados_store "x" (Seq [slice3 0 10 1]) ones11 empty_pool
  = (Raise (Native TypeError), empty_pool).
Proof.
  split; [discriminate|].
  split; [vm_compute; reflexivity|].
  split; [vm_compute; reflexivity|].
  apply rados_put_raises_TypeError.
Qed.

(** ** C6: object-not-found, while connecting and afterwards *)

Lemma init_outcome_correct (conf : rados_conf) (pool : string)
    (keyring timeout : option string) (c : cluster) :
  fst (RadosChunkStore.init conf pool keyring timeout c)
  = init_outcome pool keyring timeout c.
Proof.
  unfold RadosChunkStore.init, init_outcome.
  destruct (rados_module c); [|reflexivity]. cbv [negb].
  unfold bind at 1. unfold rados_Rados at 1. unfold scripted at 1.
  destruct (on_rados c) as [e|] eqn:Hr; [reflexivity|].
  assert (Hphase : forall c1 : cluster,
             on_connect c1 = on_connect c ->
             on_open_ioctx c1 = on_open_ioctx c ->
             pools c1 = pools c ->
             fst ((do io <- standard_errors RadosChunkStore.initial_error_map
                              None (run connect ;; open_ioctx pool) ;;
                   ret {| RadosChunkStore._error_map :=
                            <[RadosObjectNotFound := ChunkNotFound]>
                              RadosChunkStore.initial_error_map;
                          RadosChunkStore.ioctx := io |}) c1)
             = match on_connect c with
               | Some e => while_connecting e
               | None =>
                   match on_open_ioctx c with
                   | Some e => while_connecting e
                   | None =>
                       if bool_decide (pool ∈ pools c)
                       then Ok {| RadosChunkStore._error_map :=
                                    <[RadosObjectNotFound := ChunkNotFound]>
                                      RadosChunkStore.initial_error_map;
                                  RadosChunkStore.ioctx := pool |}
                       else while_connecting RadosObjectNotFound
                   end
               end).
  { intros c1 H1 H2 H3.
    unfold bind, standard_errors, connect, scripted, open_ioctx, ret,
      while_connecting.
    rewrite H1. destruct (on_connect c) as [e|].
    - destruct (RadosChunkStore.initial_error_map !! e); reflexivity.
    - simpl. rewrite H2. destruct (on_open_ioctx c) as [e|].
      + destruct (RadosChunkStore.initial_error_map !! e); reflexivity.
      + rewrite H3. destruct (bool_decide (pool ∈ pools c)); [reflexivity|].
        destruct (RadosChunkStore.initial_error_map !! RadosObjectNotFound);
          reflexivity. }
  destruct (on_conf_set c) as [e|] eqn:Hcs;
    destruct keyring as [k|], timeout as [s|]; simpl sets_conf;
    try destruct (String.eqb k ""); simpl negb; cbv iota;
    repeat (unfold bind at 1; unfold conf_set, scripted, ret; simpl;
            rewrite ?Hcs);
    try reflexivity; apply Hphase; reflexivity.
Qed.

Lemma initial_error_map_values (e : native_exn) (k : std_kind) :
  RadosChunkStore.initial_error_map !! e = Some k -> k = StoreUnavailable.
Proof.
  unfold RadosChunkStore.initial_error_map. intros H.
  apply lookup_insert_Some in H as [[_ H]|[_ H]]; [congruence|].
  apply lookup_insert_Some in H as [[_ H]|[_ H]]; [congruence|].
  rewrite lookup_empty in H. discriminate.
Qed.

Lemma while_connecting_never_chunk_not_found {A} (e : native_exn)
    (key : option string) :
  @while_connecting A e <> Raise (Standard ChunkNotFound key).
Proof.
  unfold while_connecting.
  destruct (RadosChunkStore.initial_error_map !! e) as [k|] eqn:Hk.
  - apply initial_error_map_values in Hk. subst k. discriminate.
  - discriminate.
Qed.

Lemma serving_error_map_not_found :
  (<[RadosObjectNotFound := ChunkNotFound]> RadosChunkStore.initial_error_map
     : gmap native_exn std_kind) !! RadosObjectNotFound = Some ChunkNotFound.
Proof. apply lookup_insert_eq. Qed.

Lemma init_outcome_store (pool : string) (keyring timeout : option string)
    (c : cluster) (self : RadosChunkStore.t) :
  init_outcome pool keyring timeout c = Ok self ->
  self = {| RadosChunkStore._error_map :=
              <[RadosObjectNotFound := ChunkNotFound]>
                RadosChunkStore.initial_error_map;
            RadosChunkStore.ioctx := pool |}.
Proof.
  unfold init_outcome, while_connecting.
  repeat match goal with
         | |- context [match ?x with _ => _ end] => destruct x
         end; congruence.
Qed.

(** C6.  While [init] connects to the cluster and opens the pool, the
    object-not-found signal of the library comes out as [StoreUnavailable],
    and [init] never raises [ChunkNotFound], whatever the library answers.
    When the library answers every call of [init] and the pool exists,
    [init] returns a store, and that store maps the signal to
    [ChunkNotFound]: [get] raises it, with the chunk name, when the read
    reports a missing object, and so does every block that runs under the
    translator of the store, such as the write of [put]. *)
Theorem rados_object_not_found_by_phase
    (conf : rados_conf) (pool : string) (keyring timeout : option string)
    (c : cluster) :
  (forall key,
      fst (RadosChunkStore.init conf pool keyring timeout c)
      <> Raise (Standard ChunkNotFound key)) /\
  (rados_module c = true -> on_rados c = None -> on_conf_set c = None ->
   on_connect c = Some RadosObjectNotFound \/
   on_connect c = None /\ on_open_ioctx c = Some RadosObjectNotFound \/
   on_connect c = None /\ on_open_ioctx c = None /\ pool ∉ pools c ->
   fst (RadosChunkStore.init conf pool keyring timeout c)
   = Raise (Standard StoreUnavailable None)) /\
  (rados_module c = true -> on_rados c = None -> on_conf_set c = None ->
   on_connect c = None -> on_open_ioctx c = None -> pool ∈ pools c ->
   exists self,
     fst (RadosChunkStore.init conf pool keyring timeout c) = Ok self /\
     RadosChunkStore._error_map self !! RadosObjectNotFound
     = Some ChunkNotFound /\
     (forall array_name slices dt key shp c',
         chunk_metadata array_name slices None (Some dt) = Ok (key, shp) ->
         fst (ioctx_read key (wrap64 (np_prod shp * itemsize dt)) c')
         = Raise (Native RadosObjectNotFound) ->
         fst (RadosChunkStore.get self array_name slices dt c')
         = Raise (Standard ChunkNotFound (Some key))) /\
     (forall A (body : M cluster A) key c',
         fst (body c') = Raise (Native RadosObjectNotFound) ->
         fst (standard_errors (RadosChunkStore._error_map self) (Some key)
                body c')
         = Raise (Standard ChunkNotFound (Some key)))) /\
  (forall self,
      fst (RadosChunkStore.init conf pool keyring timeout c) = Ok self ->
      RadosChunkStore._error_map self !! RadosObjectNotFound
      = Some ChunkNotFound).
Proof.
  rewrite init_outcome_correct.
  split; [|split; [|split]].
  - intros key. unfold init_outcome.
    repeat match goal with
           | |- context [while_connecting] => fail 1
           | |- context [match ?x with _ => _ end] => destruct x
           end;
      try discriminate.
    all: repeat match goal with
           | |- match ?x with _ => _ end <> _ => destruct x
           | |- (if ?x then _ else _) <> _ => destruct x
           end;
      try discriminate; apply while_connecting_never_chunk_not_found.
  - intros Hm Hr Hs Hnf. unfold init_outcome. rewrite Hm, Hr, Hs. simpl.
    destruct (sets_conf keyring timeout);
      destruct Hnf as [H|[[H1 H2]|(H1 & H2 & H3)]].
    all: rewrite ?H, ?H1, ?H2, ?(bool_decide_eq_false_2 _ H3); reflexivity.
  - intros Hm Hr Hs Hc Ho Hp. eexists. split.
    { unfold init_outcome. rewrite Hm, Hr, Hs, Hc, Ho.
      rewrite (bool_decide_eq_true_2 _ Hp). simpl.
      destruct (sets_conf keyring timeout); reflexivity. }
    cbn [RadosChunkStore._error_map].
    split; [apply serving_error_map_not_found|]. split.
    + intros array_name slices dt key shp c' Hmeta Hio.
      unfold RadosChunkStore.get. rewrite Hmeta. rewrite bind_lift_ok.
      unfold bind, standard_errors. cbn [RadosChunkStore._error_map].
      destruct (ioctx_read key (wrap64 (np_prod shp * itemsize dt)) c')
        as [r w]. simpl in Hio. subst r.
      rewrite serving_error_map_not_found. reflexivity.
    + intros A body key c' Hbody. unfold standard_errors.
      destruct (body c') as [r w]. simpl in Hbody. subst r.
      rewrite serving_error_map_not_found. reflexivity.
  - intros self H. apply init_outcome_store in H. subst self.
    apply serving_error_map_not_found.
Qed.

Lemma rados_object_not_found_by_phase_witness :
  fst (RadosChunkStore.init (ConfFile "/etc/ceph/ceph.conf") "nowhere" None
         (Some "5.0") empty_pool)
  = Raise (Standard StoreUnavailable None) /\
  exists self,
    fst (RadosChunkStore.init (ConfFile "/etc/ceph/ceph.conf") "chunks" None
           (Some "5.0") empty_pool) = Ok self /\
    fst (RadosChunkStore.get self "x" (Seq [slice2 3 5]) int64 empty_pool)
    = Raise (Standard ChunkNotFound (Some "x/00003")) /\
    fst (standard_errors (RadosChunkStore._error_map self) (Some "x/00003")
           (ioctx_read "x/00003" 16) empty_pool)
    = Raise (Standard ChunkNotFound (Some "x/00003")).
Proof.
  split.
  - destruct (rados_object_not_found_by_phase (ConfFile "/etc/ceph/ceph.conf")
                "nowhere" None (Some "5.0") empty_pool) as (_ & Hmissing & _).
    apply Hmissing; try reflexivity.
    right. right. split; [reflexivity|]. split; [reflexivity|].
    apply (bool_decide_eq_false_1 ("nowhere" ∈ pools empty_pool)).
    vm_compute. reflexivity.
  - destruct (rados_object_not_found_by_phase (ConfFile "/etc/ceph/ceph.conf")
                "chunks" None (Some "5.0") empty_pool) as (_ & _ & Hok & _).
    assert (Hpool : "chunks" ∈ pools empty_pool).
    { apply (bool_decide_eq_true_1 ("chunks" ∈ pools empty_pool)).
      vm_compute. reflexivity. }
    destruct (Hok eq_refl eq_refl eq_refl eq_refl eq_refl Hpool)
      as (self & Hinit & _ & Hget & Hblock).
    exists self. split; [exact Hinit|]. split.
    + apply (Hget "x" (Seq [slice2 3 5]) int64 "x/00003" [2]); reflexivity.
    + apply Hblock. reflexivity.
Defined.

(** ** C7: the bytes that [get] of the RADOS store asks for *)

Lemma wrap64_mod (x : Z) : wrap64 x mod 2 ^ 64 = x mod 2 ^ 64.
Proof.
  unfold wrap64. rewrite Zminus_mod_idemp_l. f_equal. lia.
Qed.

Lemma wrap64_congruent (x y : Z) :
  x mod 2 ^ 64 = y mod 2 ^ 64 -> wrap64 x = wrap64 y.
Proof.
  intros H. unfold wrap64.
  rewrite (Z.add_mod x), (Z.add_mod y), H by lia. reflexivity.
Qed.

Lemma wrap64_mul_l (a b : Z) : wrap64 (wrap64 a * b) = wrap64 (a * b).
Proof.
  apply wrap64_congruent.
  rewrite Z.mul_mod, wrap64_mod, <- Z.mul_mod by lia. reflexivity.
Qed.

Lemma wrap64_in_range (x : Z) : - 2 ^ 63 <= x < 2 ^ 63 -> wrap64 x = x.
Proof. intros H. unfold wrap64. rewrite Z.mod_small; lia. Qed.

Lemma np_prod_from (shp : list Z) (acc : Z) :
  wrap64 (fold_left (fun a x => wrap64 (a * x)) shp acc)
  = wrap64 (acc * product shp).
Proof.
  revert acc. induction shp as [|d shp IH]; intros acc; simpl.
  - f_equal. lia.
  - rewrite IH, wrap64_mul_l. f_equal. lia.
Qed.

(** The 64-bit byte count is the exact one as long as that fits. *)
Lemma num_bytes_exact (shp : list Z) (size : Z) :
  - 2 ^ 63 <= product shp * size < 2 ^ 63 ->
  wrap64 (np_prod shp * size) = product shp * size.
Proof.
  intros H. rewrite <- wrap64_mul_l. unfold np_prod.
  rewrite np_prod_from, wrap64_mul_l, Z.mul_1_l.
  apply wrap64_in_range. exact H.
Qed.

Lemma product_nonneg (shp : list Z) :
  Forall (fun d => 0 <= d) shp -> 0 <= product shp.
Proof.
  induction 1 as [|d shp Hd _ IH]; simpl; [lia|]. apply Z.mul_nonneg_nonneg; lia.
Qed.

Lemma no_negative_extent (shp : list Z) :
  Forall (fun d => 0 <= d) shp -> existsb (fun d => d <? 0) shp = false.
Proof.
  induction 1 as [|d shp Hd _ IH]; simpl; [reflexivity|].
  rewrite IH. destruct (Z.ltb_spec d 0); [lia | reflexivity].
Qed.

Lemma shape_of_nonneg (rs : list (Z * Z)) :
  Forall (fun r => fst r <= snd r) rs -> Forall (fun d => 0 <= d) (shape_of rs).
Proof.
  unfold shape_of. induction 1 as [|r rs Hr _ IH]; simpl; constructor;
    [lia | exact IH].
Qed.

Lemma shape_of_positive (rs : list (Z * Z)) :
  Forall (fun r => fst r < snd r) rs -> Forall (fun d => 0 < d) (shape_of rs).
Proof.
  unfold shape_of. induction 1 as [|r rs Hr _ IH]; simpl; constructor;
    [lia | exact IH].
Qed.

Lemma positive_nonneg (shp : list Z) :
  Forall (fun d => 0 < d) shp -> Forall (fun d => 0 <= d) shp.
Proof. induction 1; constructor; [lia | assumption]. Qed.

(** Without an extent of zero, the extents that the size test of
    [np.ndarray] multiplies are all of them. *)
Lemma no_zero_extent (shp : list Z) :
  Forall (fun d => 0 < d) shp ->
  List.filter (fun d => negb (d =? 0)) shp = shp.
Proof.
  induction 1 as [|d shp Hd _ IH]; [reflexivity|].
  cbn [List.filter]. rewrite IH.
  destruct (Z.eqb_spec d 0); [lia | reflexivity].
Qed.

(** An extent of zero makes the product zero. *)
Lemma product_positive (shp : list Z) :
  Forall (fun d => 0 <= d) shp -> 0 < product shp ->
  Forall (fun d => 0 < d) shp.
Proof.
  induction 1 as [|d shp Hd Hs IH]; [constructor|].
  change (product (d :: shp)) with (d * product shp). intros Hp.
  pose proof (product_nonneg _ Hs) as Hn.
  assert (0 < d) by nia. assert (0 < product shp) by nia.
  constructor; [assumption | apply IH; assumption].
Qed.

Lemma chunk_metadata_read (name : string) (slices : slice_spec)
    (dt : np_dtype) (rs : list (Z * Z)) :
  ranges_of slices = Some rs -> hasobject dt = false ->
  chunk_metadata name slices None (Some dt)
  = Ok (join [name; index_string (map fst rs)], shape_of rs).
Proof. intros Hr Ho. unfold chunk_metadata. rewrite Hr, Ho. reflexivity. Qed.

(** [get] of the RADOS store once the engine has accepted the request: one
    read of the exact byte count under the chunk key, then the array over
    what was read. *)
Lemma rados_get_request
    (self : RadosChunkStore.t) (array_name : string) (slices : slice_spec)
    (dt : np_dtype) (rs : list (Z * Z)) (c : cluster) :
  ranges_of slices = Some rs -> hasobject dt = false ->
  - 2 ^ 63 <= product (shape_of rs) * itemsize dt < 2 ^ 63 ->
  let key := join [array_name; index_string (map fst rs)] in
  let num_bytes := product (shape_of rs) * itemsize dt in
  RadosChunkStore.get self array_name slices dt c
  = (do data_str <- standard_errors (RadosChunkStore._error_map self)
                      (Some key) (ioctx_read key num_bytes) ;;
     lift (np_ndarray (shape_of rs) dt data_str)) c.
Proof.
  intros Hslices Hdtype Hfits key num_bytes.
  unfold RadosChunkStore.get.
  rewrite (chunk_metadata_read _ _ _ _ Hslices Hdtype), bind_lift_ok.
  rewrite num_bytes_exact by exact Hfits. reflexivity.
Qed.

(** The array over the first [product shp * itemsize] bytes of a buffer
    that has them. *)
Lemma np_ndarray_of_read (shp : list Z) (dt : np_dtype) (b : list Byte.byte) :
  Forall (fun d => 0 < d) shp -> 0 <= itemsize dt ->
  product shp * itemsize dt < 2 ^ 63 ->
  product shp * itemsize dt <= Z.of_nat (length b) ->
  np_ndarray shp dt (take (Z.to_nat (product shp * itemsize dt)) b)
  = Ok {| shape := shp; dtype := dt;
          data := take (Z.to_nat (product shp * itemsize dt)) b |}.
Proof.
  intros Hpos Hsize Hfits Hlen.
  pose proof (positive_nonneg _ Hpos) as Hshape.
  pose proof (product_nonneg _ Hshape) as Hprod.
  unfold np_ndarray. rewrite (no_negative_extent _ Hshape).
  rewrite (no_zero_extent _ Hpos).
  destruct (Z.leb_spec (2 ^ 63) (product shp * itemsize dt)); [lia|].
  rewrite length_take.
  destruct (Z.ltb_spec
              (Z.of_nat (Z.to_nat (product shp * itemsize dt) `min` length b))
              (product shp * itemsize dt)); [lia|].
  rewrite take_take, Nat.min_id. reflexivity.
Qed.



(** ** The path of a chunk *)

Lemma startswith_sep_relative (array_name rest : string) :
  relative_name array_name = true ->
  startswith_sep (array_name +:+ rest) = false.
Proof.
  destruct array_name as [|c s]; [discriminate|].
  rewrite append_cons. simpl.
  destruct (Ascii.eqb c "/"); [discriminate | reflexivity].
Qed.

(** The path of a chunk below a store directory written without a
    trailing separator. *)
Lemma filename_layout (self : NpyFileChunkStore.t) (array_name idx : string) :
  NpyFileChunkStore.path self <> "" ->
  endswith (NpyFileChunkStore.path self) "/" = false ->
  relative_name array_name = true ->
  NpyFileChunkStore.filename self (join [array_name; idx])
  = NpyFileChunkStore.path self +:+ "/" +:+ array_name +:+ "/" +:+ idx
    +:+ ".npy".
Proof.
  intros Hne Hend Hrel.
  unfold NpyFileChunkStore.filename, os_path_join, join. simpl String.concat.
  rewrite (startswith_sep_relative _ _ Hrel).
  apply String.eqb_neq in Hne. rewrite Hne, Hend. simpl orb. cbv iota.
  rewrite !append_assoc. reflexivity.
Qed.

(** ** What [put] of the file store does to the file system *)

Lemma np_save_effect (file : string) (chunk : ndarray) (fs : filesystem) :
  endswith file ".npy" = true ->
  let r := np_save file chunk fs in
  fs_fault (snd r) = fs_fault fs /\
  save_fault (snd r) = save_fault fs /\
  dirs (snd r) = dirs fs /\
  fs_log (snd r) = fs_log fs ++ [EvSave file] /\
  (fst r = Ok tt /\ fs_fault fs = None /\ save_fault fs = None /\
   files (snd r) = <[file := chunk]> (files fs) /\
   (fst (os_path_split file) = "" \/ fst (os_path_split file) ∈ dirs fs) /\
   file ∉ dirs fs
   \/ (exists e, fst r = Raise (Native e)) /\ files (snd r) = files fs).
Proof.
  intros Hext. unfold np_save. rewrite Hext.
  destruct (fs_fault fs) as [e|] eqn:Hf.
  { cbn [fst snd fs_record fs_fault save_fault dirs fs_log files].
    repeat split; auto. right. split; [exists e|]; reflexivity. }
  destruct (save_fault fs) as [e|] eqn:Hs.
  { cbn [fst snd fs_record fs_fault save_fault dirs fs_log files].
    repeat split; auto. right. split; [exists e|]; reflexivity. }
  destruct (String.eqb (fst (os_path_split file)) "") eqn:Hd;
    destruct (bool_decide (fst (os_path_split file) ∈ dirs fs)) eqn:Hin;
    destruct (bool_decide (file ∈ dirs fs)) eqn:Hfile;
    cbn [orb andb negb fst snd fs_record fs_set_file fs_fault save_fault dirs
         fs_log files];
    (split; [exact Hf|]); (split; [exact Hs|]); (split; [reflexivity|]);
    (split; [reflexivity|]).
  all: try (right; split; [exists IOError|]; reflexivity).
  all: left; split; [reflexivity|]; split; [reflexivity|];
    split; [reflexivity|]; split; [reflexivity|]; split;
    [|apply (bool_decide_eq_false_1 (file ∈ dirs fs)); exact Hfile].
  - left. apply String.eqb_eq. exact Hd.
  - left. apply String.eqb_eq. exact Hd.
  - right.
    apply (bool_decide_eq_true_1 (fst (os_path_split file) ∈ dirs fs)).
    exact Hin.
Qed.

Lemma ok_or_native_raise {A} (r : result A) (e : exn) :
  ok_or_native r = true -> r = Raise e -> exists n, e = Native n.
Proof.
  intros H ->. destruct e as [k o|n]; [discriminate | exists n; reflexivity].
Qed.

(** [put] of the file store, call by call. *)
Lemma npy_put_steps (self : NpyFileChunkStore.t) (array_name : string)
    (slices : slice_spec) (chunk : ndarray) (rs : list (Z * Z))
    (fs : filesystem) :
  ranges_of slices = Some rs ->
  let file :=
    NpyFileChunkStore.filename self
      (join [array_name; index_string (map fst rs)]) in
  let dirname := fst (os_path_split file) in
  NpyFileChunkStore.put self array_name slices chunk fs
  = if bool_decide (dirname ∈ dirs fs)
    then np_save file chunk (fs_record (EvIsDir dirname) fs)
    else match os_makedirs dirname (fs_record (EvIsDir dirname) fs) with
         | (Ok _, fs1) => np_save file chunk fs1
         | (Raise e, fs1) => (Raise e, fs1)
         end.
Proof.
  intros Hr file dirname. unfold NpyFileChunkStore.put.
  rewrite (chunk_name_accepted _ _ _ Hr), bind_lift_ok.
  fold file. fold dirname.
  unfold bind, os_path_isdir, ret.
  destruct (bool_decide (dirname ∈ dirs fs)); reflexivity.
Qed.

(** What [put] of the file store does to the file system, whatever the
    chunk and whatever the state, for a slice specification that the key
    derivation accepts: directories are made at most, and the file of the
    chunk is written exactly when [put] returns. *)
Lemma npy_put_effect (self : NpyFileChunkStore.t) (array_name : string)
    (slices : slice_spec) (chunk : ndarray) (rs : list (Z * Z))
    (fs : filesystem) :
  ranges_of slices = Some rs ->
  let file :=
    NpyFileChunkStore.filename self
      (join [array_name; index_string (map fst rs)]) in
  let dirname := fst (os_path_split file) in
  let r := NpyFileChunkStore.put self array_name slices chunk fs in
  fs_fault (snd r) = fs_fault fs /\
  save_fault (snd r) = save_fault fs /\
  (forall d, d ∈ dirs fs -> d ∈ dirs (snd r)) /\
  (fst r = Ok tt /\ fs_fault fs = None /\ save_fault fs = None /\
   files (snd r) = <[file := chunk]> (files fs) /\
   dirname ∈ dirs (snd r) /\ file ∉ dirs (snd r)
   \/ (exists e, fst r = Raise (Native e)) /\ files (snd r) = files fs).
Proof.
  intros Hr file dirname r. subst r.
  rewrite (npy_put_steps self array_name slices chunk rs fs Hr).
  fold file. fold dirname.
  assert (Hext : endswith file ".npy" = true) by apply endswith_append.
  destruct (bool_decide (dirname ∈ dirs fs)) eqn:Hdir.
  - apply bool_decide_eq_true_1 in Hdir.
    destruct (np_save_effect file chunk (fs_record (EvIsDir dirname) fs) Hext)
      as (Hf & Hs & Hd & _ & Hfiles).
    cbn [fs_record fs_fault save_fault dirs files] in Hf, Hs, Hd, Hfiles.
    split; [exact Hf|]. split; [exact Hs|].
    split; [intros d Hin; rewrite Hd; exact Hin|].
    destruct Hfiles as [(Hok & Hf0 & Hs0 & Hfiles & _ & Hnd)|Hfail].
    + left. rewrite Hd. repeat split; assumption.
    + right. exact Hfail.
  - destruct (os_makedirs_effect dirname (fs_record (EvIsDir dirname) fs))
      as (F1 & A1 & S1 & _ & D1 & O1 & N1).
    cbn [fs_record fs_fault save_fault dirs files] in F1, A1, S1, D1.
    destruct (os_makedirs dirname (fs_record (EvIsDir dirname) fs))
      as [[[]|e] fs1] eqn:Hmk; cbn [fst snd] in *.
    + destruct (np_save_effect file chunk fs1 Hext)
        as (Hf & Hs & Hd & _ & Hfiles).
      split; [congruence|]. split; [congruence|].
      split; [intros d Hin; rewrite Hd; auto|].
      destruct Hfiles as [(Hok & Hf0 & Hs0 & Hfiles & _ & Hnd)|[He Hfiles]].
      * left. rewrite Hd, Hfiles, F1.
        repeat split; try congruence. apply N1. reflexivity.
      * right. split; [exact He | congruence].
    + split; [exact A1|]. split; [exact S1|]. split; [exact D1|].
      right. split; [|exact F1].
      destruct (ok_or_native_raise _ e O1 eq_refl) as [n ->].
      exists n. reflexivity.
Qed.

(** After a [put] of the file store that returned, [get] under the same
    slices returns the chunk, whatever dtype it is called with. *)
Lemma npy_put_then_get (self : NpyFileChunkStore.t) (array_name : string)
    (slices : slice_spec) (chunk : ndarray) (rs : list (Z * Z))
    (dt : option np_dtype) (fs fs' : filesystem) :
  ranges_of slices = Some rs ->
  NpyFileChunkStore.put self array_name slices chunk fs = (Ok tt, fs') ->
  fst (NpyFileChunkStore.get self array_name slices dt fs') = Ok chunk.
Proof.
  intros Hr Hput.
  destruct (npy_put_effect self array_name slices chunk rs fs Hr)
    as (Hf & _ & _ & Heff).
  rewrite Hput in Hf, Heff. cbn [fst snd] in Hf, Heff.
  destruct Heff as [(_ & Hf0 & _ & Hfiles & _)|[[e He] _]]; [|discriminate].
  rewrite (npy_get_accepted _ _ _ _ _ _ Hr).
  unfold np_load. rewrite Hf, Hf0, Hfiles, lookup_insert_eq. reflexivity.
Qed.

(** ** C4: a chunk that was put is the chunk that is got *)

(** C4.  In the file store the round trip holds whenever [put] returns:
    after a [put] that returned normally, under a slice specification
    that the key derivation accepts, [get] with the dtype of the chunk
    returns the chunk that was put, with its shape, dtype and bytes.  In
    the RADOS store there is no round trip: [put] raises a [TypeError]
    for every chunk and leaves the cluster as it was, so that the [get]
    that follows finds what was there before. *)
Theorem put_then_get_returns_chunk
    (array_name : string) (slices : slice_spec) (chunk : ndarray)
    (rs : list (Z * Z))
    (Hslices : ranges_of slices = Some rs) :
  (forall (self : NpyFileChunkStore.t) (fs fs' : filesystem),
      NpyFileChunkStore.put self array_name slices chunk fs = (Ok tt, fs') ->
      fst (NpyFileChunkStore.get self array_name slices
             (Some (dtype chunk)) fs') = Ok chunk) /\
  (forall (self : RadosChunkStore.t) (c : cluster),
      RadosChunkStore.put self array_name slices chunk c
      = (Raise (Native TypeError), c)).
Proof.
  split.
  - intros self fs fs' Hput.
    exact (npy_put_then_get self array_name slices chunk rs _ fs fs'
             Hslices Hput).
  - intros self c. apply rados_put_raises_TypeError.
Qed.

Lemma put_then_get_returns_chunk_witness :
  (exists fs',
      NpyFileChunkStore.put npy_store "x" (Seq [slice2 3 5]) x_3_5 empty_dir
      = (Ok tt, fs') /\
      fst (NpyFileChunkStore.get npy_store "x" (Seq [slice2 3 5])
             (Some int64) fs') = Ok x_3_5) /\
  RadosChunkStore.put rados_store "x" (Seq [slice2 3 5]) x_3_5 empty_pool
  = (Raise (Native TypeError), empty_pool) /\
  fst (RadosChunkStore.get rados_store "x" (Seq [slice2 3 5]) int64
         empty_pool)
  = Raise (Standard ChunkNotFound (Some "x/00003")).
Proof.
  destruct (put_then_get_returns_chunk "x" (Seq [slice2 3 5]) x_3_5 [(3, 5)]
              eq_refl) as (Hnpy & Hrados).
  split; [|split].
  - eexists. split; [vm_compute; reflexivity|].
    apply (Hnpy npy_store empty_dir). vm_compute. reflexivity.
  - apply Hrados.
  - vm_compute. reflexivity.
Defined.

(** ** C5: chunk keys *)

Lemma to_uint_not_nil (n : N) : N.to_uint n <> Decimal.Nil.
Proof.
  destruct n as [|p]; [discriminate|].
  apply DecimalPos.Unsigned.to_uint_nonnil.
Qed.

Lemma str_N_digits (n : N) : str_N n = NilEmpty.string_of_uint (N.to_uint n).
Proof.
  unfold str_N, NilZero.string_of_uint.
  pose proof (to_uint_not_nil n) as H.
  destruct (N.to_uint n); [contradiction | reflexivity ..].
Qed.

Lemma int_of_digits_str_N (n : N) : int_of_digits (str_N n) = Some n.
Proof.
  unfold int_of_digits.
  rewrite str_N_digits, NilEmpty.usu. simpl.
  rewrite DecimalN.Unsigned.of_to. reflexivity.
Qed.

Lemma int_of_digits_zeros (k : nat) (s : string) :
  int_of_digits (zeros k +:+ s) = int_of_digits s.
Proof.
  induction k as [|k IH]; [reflexivity|].
  cbn [zeros]. rewrite append_cons. rewrite <- IH.
  unfold int_of_digits. cbn [NilEmpty.uint_of_string].
  destruct (NilEmpty.uint_of_string (zeros k +:+ s)); reflexivity.
Qed.

Lemma int_of_digits_format (i : Z) :
  0 <= i -> int_of_digits (format_05d i) = Some (Z.to_N i).
Proof.
  intros H. unfold format_05d.
  destruct (Z.ltb_spec i 0); [lia|].
  unfold zfill. rewrite int_of_digits_zeros. apply int_of_digits_str_N.
Qed.

Lemma format_05d_inj (a b : Z) :
  0 <= a -> 0 <= b -> format_05d a = format_05d b -> a = b.
Proof.
  intros Ha Hb H.
  pose proof (int_of_digits_format a Ha) as Pa.
  pose proof (int_of_digits_format b Hb) as Pb.
  rewrite H, Pb in Pa. injection Pa as Pa. lia.
Qed.

Lemma no_underscore_app (s t : string) :
  no_underscore (s +:+ t) = no_underscore s && no_underscore t.
Proof.
  induction s as [|c s IH]; [reflexivity|].
  rewrite append_cons. cbn [no_underscore]. rewrite IH. apply andb_assoc.
Qed.

Lemma no_underscore_zeros (k : nat) : no_underscore (zeros k) = true.
Proof. induction k as [|k IH]; [reflexivity|]. cbn [zeros no_underscore]. rewrite IH. reflexivity. Qed.

Lemma no_underscore_digits (d : Decimal.uint) :
  no_underscore (NilEmpty.string_of_uint d) = true.
Proof.
  induction d; cbn [NilEmpty.string_of_uint no_underscore];
    rewrite ?IHd; reflexivity.
Qed.

Lemma no_underscore_format (i : Z) : no_underscore (format_05d i) = true.
Proof.
  unfold format_05d, zfill.
  destruct (i <? 0); cbn [no_underscore];
    rewrite no_underscore_app, no_underscore_zeros, str_N_digits,
      no_underscore_digits; reflexivity.
Qed.

Lemma piece_split (x1 x2 r1 r2 : string) :
  no_underscore x1 = true -> no_underscore x2 = true ->
  starts_with_underscore_or_empty r1 -> starts_with_underscore_or_empty r2 ->
  x1 +:+ r1 = x2 +:+ r2 -> x1 = x2 /\ r1 = r2.
Proof.
  revert x2. induction x1 as [|c1 x1 IH]; intros [|c2 x2] N1 N2 R1 R2 H.
  - split; [reflexivity | exact H].
  - exfalso. change (r1 = String c2 (x2 +:+ r2)) in H.
    cbn [no_underscore] in N2. apply andb_true_iff in N2 as [N2 _].
    destruct R1 as [->|[r' ->]]; [discriminate|].
    injection H as <- _. discriminate.
  - exfalso. change (String c1 (x1 +:+ r1) = r2) in H.
    cbn [no_underscore] in N1. apply andb_true_iff in N1 as [N1 _].
    destruct R2 as [->|[r' ->]]; [discriminate|].
    injection H as -> _. discriminate.
  - rewrite !append_cons in H. injection H as -> H.
    cbn [no_underscore] in N1, N2.
    apply andb_true_iff in N1 as [_ N1]. apply andb_true_iff in N2 as [_ N2].
    destruct (IH x2 N1 N2 R1 R2 H) as [-> ->]. split; reflexivity.
Qed.

Lemma concat_cons (x : string) (l : list string) :
  String.concat "_" (x :: l)
  = x +:+ match l with [] => "" | _ => "_" +:+ String.concat "_" l end.
Proof.
  destruct l as [|y l]; cbn [String.concat]; [|reflexivity].
  induction x as [|c x IH]; [reflexivity|].
  rewrite append_cons, <- IH. reflexivity.
Qed.

Lemma concat_rest (l : list string) :
  starts_with_underscore_or_empty
    match l with [] => "" | _ => "_" +:+ String.concat "_" l end.
Proof.
  destruct l; [left; reflexivity|]. right. eexists. reflexivity.
Qed.

(** Joining with underscores loses nothing when no piece holds one. *)
Lemma concat_underscore_inj (l1 l2 : list string) :
  l1 <> [] -> l2 <> [] ->
  Forall (fun s => no_underscore s = true) l1 ->
  Forall (fun s => no_underscore s = true) l2 ->
  String.concat "_" l1 = String.concat "_" l2 -> l1 = l2.
Proof.
  revert l2. induction l1 as [|x1 l1 IH]; intros [|x2 l2] E1 E2 F1 F2 H;
    try contradiction.
  rewrite !concat_cons in H.
  apply Forall_cons in F1 as [N1 F1]. apply Forall_cons in F2 as [N2 F2].
  destruct (piece_split _ _ _ _ N1 N2 (concat_rest l1) (concat_rest l2) H)
    as [-> Hrest].
  f_equal.
  destruct l1 as [|y1 l1], l2 as [|y2 l2]; try discriminate; [reflexivity|].
  apply IH; try assumption; try discriminate.
  change (String "_" (String.concat "_" (y1 :: l1))
          = String "_" (String.concat "_" (y2 :: l2))) in Hrest.
  injection Hrest as Hrest. exact Hrest.
Qed.

Lemma map_format_05d_inj (l1 l2 : list Z) :
  Forall in_padding_range l1 -> Forall in_padding_range l2 ->
  map format_05d l1 = map format_05d l2 -> l1 = l2.
Proof.
  revert l2. induction l1 as [|a l1 IH]; intros [|b l2] F1 F2 H;
    try discriminate; [reflexivity|].
  apply Forall_cons in F1 as [[Ha _] F1]. apply Forall_cons in F2 as [[Hb _] F2].
  injection H as Hab H.
  f_equal; [apply format_05d_inj; assumption | apply IH; assumption].
Qed.

Lemma no_underscore_formats (l : list Z) :
  Forall (fun s => no_underscore s = true) (map format_05d l).
Proof.
  induction l as [|i l IH]; simpl; constructor;
    [apply no_underscore_format | exact IH].
Qed.

Lemma index_string_inj (l1 l2 : list Z) :
  l1 <> [] -> l2 <> [] ->
  Forall in_padding_range l1 -> Forall in_padding_range l2 ->
  index_string l1 = index_string l2 -> l1 = l2.
Proof.
  intros E1 E2 F1 F2 H. unfold index_string in H.
  apply map_format_05d_inj; [assumption ..|].
  apply concat_underscore_inj in H; [exact H | | | |].
  - destruct l1; [contradiction | discriminate].
  - destruct l2; [contradiction | discriminate].
  - apply no_underscore_formats.
  - apply no_underscore_formats.
Qed.

Lemma ranges_of_nonempty (slices : slice_spec) (rs : list (Z * Z)) :
  ranges_of slices = Some rs -> rs <> [].
Proof.
  destruct slices as [[|x l]|i]; try discriminate. simpl.
  destruct (range_of x); [|discriminate].
  simpl. destruct (mapM range_of l); simpl; [|discriminate].
  intros [= <-]. discriminate.
Qed.

Lemma chunk_name_ok (name : string) (slices : slice_spec) (key : string) :
  chunk_name name slices = Ok key ->
  exists rs,
    ranges_of slices = Some rs /\ starts_of slices = map fst rs /\
    key = name +:+ "/" +:+ index_string (map fst rs).
Proof.
  unfold chunk_name, starts_of.
  destruct (ranges_of slices) as [rs|]; [|discriminate].
  intros [= <-]. exists rs. repeat split.
Qed.

Lemma chunk_metadata_key (name : string) (slices : slice_spec)
    (chunk : option ndarray) (dt : option np_dtype) (key : string)
    (shp : list Z) (rs : list (Z * Z)) :
  ranges_of slices = Some rs ->
  chunk_metadata name slices chunk dt = Ok (key, shp) ->
  key = name +:+ "/" +:+ index_string (map fst rs) /\ shp = shape_of rs.
Proof.
  intros Hr. unfold chunk_metadata. rewrite Hr.
  destruct chunk as [c|], dt as [d|];
    repeat match goal with
           | |- context [if ?b then _ else _] => destruct b
           end;
    intros [= <- <-]; split; reflexivity.
Qed.

(** C5.  The chunk key is a function of the array name and the start
    offsets alone.  For one array name and two slice specifications that
    the engine accepts, with all start offsets within the five digits of
    the padding: equal specifications, and more generally equal start
    offsets, give the same key; different start offsets give different
    keys.  The metadata derivation returns that same key. *)
Theorem chunk_key_deterministic_and_injective
    (array_name : string) (slices1 slices2 : slice_spec) (key1 key2 : string)
    (H1 : chunk_name array_name slices1 = Ok key1)
    (H2 : chunk_name array_name slices2 = Ok key2)
    (Hrange1 : Forall in_padding_range (starts_of slices1))
    (Hrange2 : Forall in_padding_range (starts_of slices2)) :
  (slices1 = slices2 -> key1 = key2) /\
  (starts_of slices1 = starts_of slices2 -> key1 = key2) /\
  (starts_of slices1 <> starts_of slices2 -> key1 <> key2) /\
  (forall chunk dt key shp,
      chunk_metadata array_name slices1 chunk dt = Ok (key, shp) ->
      key = key1).
Proof.
  destruct (chunk_name_ok _ _ _ H1) as (rs1 & Hr1 & Hs1 & ->).
  destruct (chunk_name_ok _ _ _ H2) as (rs2 & Hr2 & Hs2 & ->).
  rewrite Hs1 in *. rewrite Hs2 in *.
  repeat split.
  - intros ->. rewrite Hr1 in Hr2. injection Hr2 as ->. reflexivity.
  - intros ->. reflexivity.
  - intros Hne Hkey. apply Hne.
    apply (inj (String.app array_name)) in Hkey.
    apply (inj (String.app "/")) in Hkey.
    apply index_string_inj; try assumption.
    + pose proof (ranges_of_nonempty _ _ Hr1). destruct rs1; [contradiction | discriminate].
    + pose proof (ranges_of_nonempty _ _ Hr2). destruct rs2; [contradiction | discriminate].
  - intros chunk dt key shp Hm.
    apply (chunk_metadata_key _ _ _ _ _ _ _ Hr1) in Hm as [-> _]. reflexivity.
Qed.

Lemma chunk_key_deterministic_and_injective_witness :
  chunk_name "y" (Seq [slice2 3 7; slice2 2 5; slice2 1 2])
  = Ok "y/00003_00002_00001" /\
  chunk_name "y" (Seq [slice2 3 7; slice2 4 5; slice2 1 2])
  = Ok "y/00003_00004_00001" /\
  "y/00003_00002_00001" <> "y/00003_00004_00001".
Proof.
  split; [reflexivity|]. split; [reflexivity|].
  assert (R1 : Forall in_padding_range
                 (starts_of (Seq [slice2 3 7; slice2 2 5; slice2 1 2])))
    by (change (Forall in_padding_range [3; 2; 1]);
        repeat constructor; unfold in_padding_range; lia).
  assert (R2 : Forall in_padding_range
                 (starts_of (Seq [slice2 3 7; slice2 4 5; slice2 1 2])))
    by (change (Forall in_padding_range [3; 4; 1]);
        repeat constructor; unfold in_padding_range; lia).
  destruct (chunk_key_deterministic_and_injective "y"
              (Seq [slice2 3 7; slice2 2 5; slice2 1 2])
              (Seq [slice2 3 7; slice2 4 5; slice2 1 2])
              "y/00003_00002_00001" "y/00003_00004_00001"
              eq_refl eq_refl R1 R2) as (_ & _ & Hdiff & _).
  apply Hdiff. discriminate.
Defined.

(** ** C8: the file of a chunk *)

Lemma rsplit_sep_no_sep (t : string) : no_sep t = true -> rsplit_sep t = None.
Proof.
  induction t as [|c t IH]; [reflexivity|].
  cbn [no_sep rsplit_sep]. intros H. apply andb_true_iff in H as [Hc Ht].
  rewrite (IH Ht). apply negb_true_iff in Hc. rewrite Hc. reflexivity.
Qed.

Lemma rsplit_sep_append (h t : string) :
  no_sep t = true -> rsplit_sep (h +:+ "/" +:+ t) = Some (h +:+ "/", t).
Proof.
  intros Ht. induction h as [|c h IH].
  - change ("" +:+ "/" +:+ t) with (String "/" t). cbn [rsplit_sep].
    rewrite (rsplit_sep_no_sep t Ht). reflexivity.
  - change (String c h +:+ "/" +:+ t) with (String c (h +:+ "/" +:+ t)).
    cbn [rsplit_sep]. rewrite IH. reflexivity.
Qed.

Lemma rstrip_sep_append_sep (h : string) :
  rstrip_sep (h +:+ "/") = rstrip_sep h.
Proof.
  induction h as [|c h IH]; [reflexivity|].
  rewrite append_cons. cbn [rstrip_sep]. rewrite IH. reflexivity.
Qed.

Lemma rstrip_sep_clean (s : string) :
  endswith s "/" = false -> rstrip_sep s = s.
Proof.
  induction s as [|c s IH]; [reflexivity|].
  cbn [endswith rstrip_sep]. intros H.
  apply orb_false_iff in H as [Hne Hs]. rewrite (IH Hs).
  destruct (Ascii.eqb c "/") eqn:Hc; [|reflexivity].
  destruct s as [|c' s']; [|reflexivity].
  apply Ascii.eqb_eq in Hc. subst c. discriminate.
Qed.

(** A path without trailing separator, a separator and a last component
    split into the two. *)
Lemma os_path_split_append (h t : string) :
  h <> "" -> endswith h "/" = false -> no_sep t = true ->
  os_path_split (h +:+ "/" +:+ t) = (h, t).
Proof.
  intros Hne Hend Ht. unfold os_path_split.
  rewrite (rsplit_sep_append h t Ht).
  rewrite rstrip_sep_append_sep, (rstrip_sep_clean h Hend).
  apply String.eqb_neq in Hne. rewrite Hne. reflexivity.
Qed.

Lemma append_not_empty_r (a b : string) : b <> "" -> a +:+ b <> "".
Proof.
  intros Hb H. apply (f_equal String.length) in H.
  rewrite length_append in H. destruct b; [contradiction|].
  cbn [String.length] in H. lia.
Qed.

Lemma endswith_append_sep (a b : string) :
  b <> "" -> endswith (a +:+ b) "/" = endswith b "/".
Proof.
  intros Hb. induction a as [|c a IH]; [reflexivity|].
  rewrite append_cons. cbn [endswith]. rewrite IH.
  pose proof (append_not_empty_r a b Hb) as Hne.
  destruct (a +:+ b) as [|c' s'] eqn:Hab; [contradiction|].
  destruct (String.eqb_spec (String c (String c' s')) "/") as [H|_];
    [discriminate | reflexivity].
Qed.

Lemma no_sep_endswith (t : string) : no_sep t = true -> endswith t "/" = false.
Proof.
  induction t as [|c t IH]; [reflexivity|].
  cbn [no_sep endswith]. intros H. apply andb_true_iff in H as [Hc Ht].
  rewrite (IH Ht), orb_false_r. apply negb_true_iff in Hc.
  destruct (String.eqb_spec (String c t) "/") as [H|_]; [|reflexivity].
  injection H as -> _. discriminate.
Qed.

Lemma no_sep_app (s t : string) : no_sep (s +:+ t) = no_sep s && no_sep t.
Proof.
  induction s as [|c s IH]; [reflexivity|].
  rewrite append_cons. cbn [no_sep]. rewrite IH. apply andb_assoc.
Qed.

Lemma segment_facts (s : string) :
  segment s = true -> no_sep s = true /\ s <> "" /\ s <> ".".
Proof.
  unfold segment. intros H.
  apply andb_true_iff in H as [H _]. apply andb_true_iff in H as [H H3].
  apply andb_true_iff in H as [H1 H2].
  apply negb_true_iff in H2, H3.
  apply String.eqb_neq in H2, H3. auto.
Qed.

Lemma concat_snoc (sep : string) (l : list string) (x : string) :
  l <> [] -> String.concat sep (l ++ [x]) = String.concat sep l +:+ sep +:+ x.
Proof.
  induction l as [|a l IH]; [contradiction|]. intros _.
  destruct l as [|b l]; [reflexivity|].
  change (String.concat sep ((a :: b :: l) ++ [x]))
    with (a +:+ sep +:+ String.concat sep ((b :: l) ++ [x])).
  rewrite IH by discriminate.
  change (String.concat sep (a :: b :: l))
    with (a +:+ sep +:+ String.concat sep (b :: l)).
  rewrite !append_assoc. reflexivity.
Qed.

Lemma path_exists_false (fs : filesystem) (p : string) :
  path_exists fs p = false <-> (p ∉ dirs fs) /\ files fs !! p = None.
Proof.
  unfold path_exists. rewrite orb_false_iff, !bool_decide_eq_false.
  rewrite <- eq_None_not_Some. reflexivity.
Qed.

Section directories.

Variables (root : string) (segments : list string).
Hypothesis Hroot : root <> "".
Hypothesis Hend : endswith root "/" = false.
Hypothesis Hsegments : forallb segment segments = true.

Lemma segments_lookup (k : nat) (seg : string) :
  segments !! k = Some seg -> no_sep seg = true /\ seg <> "" /\ seg <> ".".
Proof.
  intros Hk. apply segment_facts.
  rewrite forallb_forall in Hsegments. apply Hsegments.
  apply list_elem_of_In. apply (list_elem_of_lookup_2 _ k). exact Hk.
Qed.

Lemma directory_at_S (k : nat) (seg : string) :
  segments !! k = Some seg ->
  directory_at root segments (S k)
  = directory_at root segments k +:+ "/" +:+ seg.
Proof.
  intros Hk. unfold directory_at. rewrite (take_S_r _ _ _ Hk).
  change (root :: take k segments ++ [seg])
    with ((root :: take k segments) ++ [seg]).
  apply concat_snoc. discriminate.
Qed.

Lemma directory_at_beyond (k : nat) :
  segments !! k = None ->
  directory_at root segments (S k) = directory_at root segments k.
Proof.
  intros Hk. apply lookup_ge_None in Hk. unfold directory_at.
  rewrite !take_ge by lia. reflexivity.
Qed.

Lemma directory_at_clean (k : nat) :
  directory_at root segments k <> "" /\
  endswith (directory_at root segments k) "/" = false.
Proof.
  induction k as [|k [IH1 IH2]]; [split; assumption|].
  destruct (segments !! k) as [seg|] eqn:Hk.
  - destruct (segments_lookup k seg Hk) as (Hsep & Hne & _).
    rewrite (directory_at_S k seg Hk). split.
    + apply append_not_empty_r. discriminate.
    + rewrite endswith_append_sep by discriminate.
      change ("/" +:+ seg) with ("" +:+ "/" +:+ seg).
      rewrite endswith_append_sep by (apply append_not_empty_r; exact Hne).
      change ("/" +:+ seg) with (String "/" seg).
      cbn [endswith]. rewrite (no_sep_endswith seg Hsep), orb_false_r.
      destruct (String.eqb_spec (String "/" seg) "/") as [H|_];
        [|reflexivity].
      injection H as H. contradiction.
  - rewrite (directory_at_beyond k Hk). split; assumption.
Qed.

Lemma directory_at_longer (j k : nat) :
  (j < k <= length segments)%nat ->
  (String.length (directory_at root segments j)
   < String.length (directory_at root segments k))%nat.
Proof.
  intros [Hjk Hk]. induction k as [|k IH]; [lia|].
  destruct (lookup_lt_is_Some_2 segments k) as [seg Hseg]; [lia|].
  rewrite (directory_at_S k seg Hseg), !length_append.
  cbn [String.length].
  destruct (decide (j = k)) as [->|Hne]; [lia|].
  assert ((String.length (directory_at root segments j)
           < String.length (directory_at root segments k))%nat)
    by (apply IH; lia).
  lia.
Qed.

Lemma os_path_split_directory (k : nat) (seg : string) :
  segments !! k = Some seg ->
  os_path_split (directory_at root segments (S k))
  = (directory_at root segments k, seg).
Proof.
  intros Hk. rewrite (directory_at_S k seg Hk).
  destruct (directory_at_clean k) as [Hne Hcl].
  destruct (segments_lookup k seg Hk) as (Hsep & _).
  apply os_path_split_append; assumption.
Qed.

(** One level is made in its parent. *)
Lemma os_mkdir_level (k : nat) (seg : string) (fs : filesystem) :
  segments !! k = Some seg -> fs_fault fs = None ->
  directory_at root segments k ∈ dirs fs ->
  path_exists fs (directory_at root segments (S k)) = false ->
  os_mkdir (directory_at root segments (S k)) fs
  = (Ok tt,
     fs_set_dirs ({[ directory_at root segments (S k) ]} ∪ dirs fs) fs).
Proof.
  intros Hk Hf Hparent Hnew. unfold os_mkdir. rewrite Hf, Hnew.
  destruct (directory_at_clean (S k)) as [Hne _].
  apply String.eqb_neq in Hne. rewrite Hne. cbn [orb].
  rewrite (os_path_split_directory k seg Hk). cbn [fst].
  rewrite (bool_decide_eq_true_2 _ Hparent), orb_true_r. reflexivity.
Qed.

(** [makedirs] makes the levels that are missing, from the top down. *)
Lemma makedirs_levels (fuel : nat) :
  forall (n k : nat) (fs : filesystem),
    (k < n <= length segments)%nat -> (n - k <= S fuel)%nat ->
    fs_fault fs = None ->
    directory_at root segments k ∈ dirs fs ->
    (forall j, (k < j <= n)%nat ->
               path_exists fs (directory_at root segments j) = false) ->
    exists fs',
      makedirs fuel (directory_at root segments n) fs = (Ok tt, fs') /\
      files fs' = files fs /\ fs_fault fs' = None /\
      save_fault fs' = save_fault fs /\ fs_log fs' = fs_log fs /\
      (forall p, p ∈ dirs fs' <->
                 p ∈ dirs fs \/
                 exists j, (k < j <= n)%nat /\
                           p = directory_at root segments j).
Proof.
  induction fuel as [|fuel IH]; intros n k fs Hkn Hfuel Hf Hk Hmissing;
    (destruct n as [|m]; [lia|]);
    (destruct (lookup_lt_is_Some_2 segments m) as [seg Hseg]; [lia|]);
    destruct (segments_lookup m seg Hseg) as (Hsep & Hne & Hdot);
    destruct (directory_at_clean m) as [Hmne _];
    apply String.eqb_neq in Hne, Hdot, Hmne;
    cbn [makedirs]; rewrite (os_path_split_directory m seg Hseg);
    rewrite Hne; rewrite Hne, Hmne; cbn [negb andb].
  - assert (m = k) by lia. subst m.
    assert (He : path_exists fs (directory_at root segments k) = true).
    { unfold path_exists. rewrite (bool_decide_eq_true_2 _ Hk). reflexivity. }
    rewrite He. cbn [negb].
    rewrite (os_mkdir_level k seg fs Hseg Hf Hk) by (apply Hmissing; lia).
    eexists. split; [reflexivity|].
    cbn [fs_set_dirs files fs_fault save_fault fs_log dirs].
    repeat split; auto.
    + intros Hp. apply elem_of_union in Hp as [Hp|Hp]; [|left; exact Hp].
      apply elem_of_singleton in Hp. right. exists (S k). split; [lia|].
      exact Hp.
    + intros [Hp|(j & Hj & ->)]; apply elem_of_union; [right; exact Hp|].
      left. apply elem_of_singleton. f_equal. lia.
  - destruct (decide (m = k)) as [->|Hmk].
    + assert (He : path_exists fs (directory_at root segments k) = true).
      { unfold path_exists. rewrite (bool_decide_eq_true_2 _ Hk).
        reflexivity. }
      rewrite He. cbn [negb].
      rewrite (os_mkdir_level k seg fs Hseg Hf Hk) by (apply Hmissing; lia).
      eexists. split; [reflexivity|].
      cbn [fs_set_dirs files fs_fault save_fault fs_log dirs].
      repeat split; auto.
      * intros Hp. apply elem_of_union in Hp as [Hp|Hp]; [|left; exact Hp].
        apply elem_of_singleton in Hp. right. exists (S k). split; [lia|].
        exact Hp.
      * intros [Hp|(j & Hj & ->)]; apply elem_of_union; [right; exact Hp|].
        left. apply elem_of_singleton. f_equal. lia.
    + rewrite (Hmissing m) by lia. cbn [negb].
      destruct (IH m k fs) as (fs1 & Hrec & F1 & A1 & S1 & L1 & D1);
        try assumption; try lia.
      { intros j Hj. apply Hmissing. lia. }
      rewrite Hrec, Hdot.
      assert (Hparent : directory_at root segments m ∈ dirs fs1).
      { apply D1. right. exists m. split; [lia | reflexivity]. }
      assert (Hnew : path_exists fs1 (directory_at root segments (S m))
                     = false).
      { pose proof (Hmissing (S m)) as H0.
        rewrite path_exists_false in H0 |- *.
        destruct H0 as [Hnd Hnf]; [lia|]. split; [|rewrite F1; exact Hnf].
        intros Hin. apply D1 in Hin as [Hin|(j & Hj & Heq)];
          [contradiction|].
        pose proof (directory_at_longer j (S m)) as Hlen.
        rewrite <- Heq in Hlen. lia. }
      rewrite (os_mkdir_level m seg fs1 Hseg A1 Hparent Hnew).
      eexists. split; [reflexivity|].
      cbn [fs_set_dirs files fs_fault save_fault fs_log dirs].
      repeat split; auto.
      * intros Hp. apply elem_of_union in Hp as [Hp|Hp].
        -- apply elem_of_singleton in Hp. right. exists (S m).
           split; [lia | exact Hp].
        -- apply D1 in Hp as [Hp|(j & Hj & Hp)]; [left; exact Hp|].
           right. exists j. split; [lia | exact Hp].
      * intros [Hp|(j & Hj & ->)]; apply elem_of_union.
        -- right. apply D1. left. exact Hp.
        -- destruct (decide (j = S m)) as [->|Hjm].
           ++ left. apply elem_of_singleton. reflexivity.
           ++ right. apply D1. right. exists j. split; [lia | reflexivity].
Qed.

Lemma directory_at_length (k : nat) :
  (k <= length segments)%nat ->
  (k <= String.length (directory_at root segments k))%nat.
Proof.
  induction k as [|k IH]; [lia|]. intros Hk.
  pose proof (directory_at_longer k (S k)). lia.
Qed.

End directories.

Lemma directory_at_all (root : string) (segments : list string) :
  segments <> [] ->
  directory_at root segments (length segments)
  = root +:+ "/" +:+ String.concat "/" segments.
Proof.
  intros Hne. unfold directory_at. rewrite firstn_all.
  destruct segments as [|a l]; [contradiction | reflexivity].
Qed.

Lemma no_sep_zeros (k : nat) : no_sep (zeros k) = true.
Proof.
  induction k as [|k IH]; [reflexivity|].
  cbn [zeros no_sep]. rewrite IH. reflexivity.
Qed.

Lemma no_sep_digits (d : Decimal.uint) :
  no_sep (NilEmpty.string_of_uint d) = true.
Proof.
  induction d; cbn [NilEmpty.string_of_uint no_sep];
    rewrite ?IHd; reflexivity.
Qed.

Lemma no_sep_format (i : Z) : no_sep (format_05d i) = true.
Proof.
  unfold format_05d, zfill.
  destruct (i <? 0); cbn [no_sep];
    rewrite no_sep_app, no_sep_zeros, str_N_digits, no_sep_digits;
    reflexivity.
Qed.

Lemma no_sep_concat (sep : string) (l : list string) :
  no_sep sep = true -> Forall (fun s => no_sep s = true) l ->
  no_sep (String.concat sep l) = true.
Proof.
  intros Hsep. induction 1 as [|x l Hx Hl IH]; [reflexivity|].
  destruct l as [|y l]; [exact Hx|].
  change (String.concat sep (x :: y :: l))
    with (x +:+ sep +:+ String.concat sep (y :: l)).
  rewrite !no_sep_app, Hx, Hsep, IH. reflexivity.
Qed.

Lemma no_sep_index_file (starts : list Z) :
  no_sep (index_string starts +:+ ".npy") = true.
Proof.
  rewrite no_sep_app. unfold index_string.
  rewrite no_sep_concat; [reflexivity | reflexivity |].
  induction starts as [|i l IH]; constructor;
    [apply no_sep_format | exact IH].
Qed.

(** [put] of the file store when every level of the array name is a
    plain name: the levels that are missing below the store directory
    are made, then the file is written. *)
Lemma npy_put_makes_levels (self : NpyFileChunkStore.t)
    (segments : list string) (slices : slice_spec) (chunk : ndarray)
    (rs : list (Z * Z)) (fs : filesystem) (existing : nat) :
  let root := NpyFileChunkStore.path self in
  let file :=
    root +:+ "/" +:+ join segments +:+ "/" +:+ index_string (map fst rs)
    +:+ ".npy" in
  let dirname := directory_at root segments (length segments) in
  ranges_of slices = Some rs ->
  root <> "" -> endswith root "/" = false ->
  segments <> [] -> forallb segment segments = true ->
  fs_fault fs = None -> save_fault fs = None ->
  (existing <= length segments)%nat ->
  directory_at root segments existing ∈ dirs fs ->
  (forall k, (existing < k <= length segments)%nat ->
             path_exists fs (directory_at root segments k) = false) ->
  file ∉ dirs fs ->
  NpyFileChunkStore.filename self
    (join [join segments; index_string (map fst rs)]) = file ->
  exists fs',
    NpyFileChunkStore.put self (join segments) slices chunk fs
    = (Ok tt, fs') /\
    files fs' = <[file := chunk]> (files fs) /\
    (forall p, p ∈ dirs fs' <->
               p ∈ dirs fs \/
               exists k, (existing < k <= length segments)%nat /\
                         p = directory_at root segments k) /\
    fs_log fs'
    = fs_log fs ++ [EvIsDir dirname]
      ++ (if (existing <? length segments)%nat then [EvMakeDirs dirname]
          else [])
      ++ [EvSave file].
Proof.
  intros root file dirname Hr Hroot Hend Hne Hseg Hf Hs Hex Hthere Hmissing
    Hfile Hlayout.
  assert (Hfile_eq : file = dirname +:+ "/" +:+ index_string (map fst rs)
                            +:+ ".npy").
  { unfold file, dirname. rewrite (directory_at_all root segments Hne).
    unfold join. rewrite !append_assoc. reflexivity. }
  destruct (directory_at_clean root segments Hroot Hend Hseg
              (length segments)) as [Hdne Hdend].
  fold dirname in Hdne, Hdend.
  assert (Hsplit : os_path_split file
                   = (dirname, index_string (map fst rs) +:+ ".npy")).
  { rewrite Hfile_eq.
    apply os_path_split_append; [assumption | assumption |].
    apply no_sep_index_file. }
  assert (Hext : endswith file ".npy" = true).
  { rewrite <- Hlayout. apply endswith_append. }
  assert (Hlonger : forall k, (k <= length segments)%nat ->
                              file <> directory_at root segments k).
  { intros k Hk Heq. apply (f_equal String.length) in Heq.
    rewrite Hfile_eq, !length_append in Heq. cbn [String.length] in Heq.
    destruct (decide (k = length segments)) as [->|Hkn].
    - fold dirname in Heq. lia.
    - pose proof (directory_at_longer root segments k (length segments))
        as Hlt.
      fold dirname in Hlt. lia. }
  rewrite (npy_put_steps self (join segments) slices chunk rs fs Hr).
  rewrite Hlayout, Hsplit. cbn [fst].
  destruct (decide (existing = length segments)) as [Hall|Hsome].
  - rewrite Hall in Hthere. fold dirname in Hthere.
    rewrite (bool_decide_eq_true_2 _ Hthere).
    unfold np_save. rewrite Hext. cbn [fs_record fs_fault save_fault dirs].
    rewrite Hf, Hs, Hsplit. cbn [fst].
    rewrite (bool_decide_eq_true_2 _ Hthere), (bool_decide_eq_false_2 _ Hfile).
    rewrite orb_true_r. cbn [andb negb].
    eexists. split; [reflexivity|].
    cbn [fs_set_file fs_record files dirs fs_log].
    split; [reflexivity|]. split.
    + intros p. split; [intros Hp; left; exact Hp|].
      intros [Hp|(k & Hk & _)]; [exact Hp | lia].
    + rewrite Hall, Nat.ltb_irrefl, <- !app_assoc. reflexivity.
  - assert (Hno : dirname ∉ dirs fs).
    { pose proof (Hmissing (length segments)) as H0.
      rewrite path_exists_false in H0. apply H0. lia. }
    rewrite (bool_decide_eq_false_2 _ Hno).
    unfold os_makedirs.
    destruct (makedirs_levels root segments Hroot Hend Hseg
                (String.length dirname) (length segments) existing
                (fs_record (EvMakeDirs dirname)
                   (fs_record (EvIsDir dirname) fs)))
      as (fs1 & Hmk & F1 & A1 & S1 & L1 & D1); try assumption.
    { lia. }
    { pose proof (directory_at_length root segments (length segments))
        as Hlen.
      fold dirname in Hlen. lia. }
    fold dirname in Hmk. rewrite Hmk.
    cbn [fs_record files save_fault fs_log dirs] in F1, S1, L1, D1.
    assert (Hd1 : dirname ∈ dirs fs1).
    { apply D1. right. exists (length segments). split; [lia | reflexivity]. }
    assert (Hfile1 : file ∉ dirs fs1).
    { intros Hin. apply D1 in Hin as [Hin|(k & Hk & Heq)];
        [contradiction|].
      apply (Hlonger k); [lia | exact Heq]. }
    unfold np_save. rewrite Hext, A1, S1, Hs, Hsplit. cbn [fst].
    rewrite (bool_decide_eq_true_2 _ Hd1), (bool_decide_eq_false_2 _ Hfile1).
    rewrite orb_true_r. cbn [andb negb].
    eexists. split; [reflexivity|].
    cbn [fs_set_file fs_record files dirs fs_log].
    split; [rewrite F1; reflexivity|]. split; [exact D1|].
    rewrite L1.
    assert (Hlt : (existing <? length segments)%nat = true)
      by (apply Nat.ltb_lt; lia).
    rewrite Hlt, <- !app_assoc. reflexivity.
Qed.




(** ** The stores on the fixtures *)

Example rados_init_on_empty_pool :
  fst (RadosChunkStore.init (ConfFile "/etc/ceph/ceph.conf") "chunks" None
         (Some "5.0") empty_pool) = Ok rados_store.
Proof. vm_compute. reflexivity. Qed.

Example rados_init_missing_pool :
  fst (RadosChunkStore.init (ConfFile "/etc/ceph/ceph.conf") "nowhere" None
         (Some "5.0") empty_pool) = Raise (Standard StoreUnavailable None).
Proof. vm_compute. reflexivity. Qed.

Example npy_init_on_empty_dir :
  fst (NpyFileChunkStore.init "/data" empty_dir) = Ok npy_store.
Proof. vm_compute. reflexivity. Qed.

Example npy_init_missing_dir :
  fst (NpyFileChunkStore.init "/nowhere" empty_dir) = Raise (Native IOError).
Proof. vm_compute. reflexivity. Qed.

Example npy_put_makes_intermediate_dirs :
  let fs' :=
    snd (NpyFileChunkStore.put npy_store "obs/flags" (Seq [slice2 3 5]) x_3_5
           empty_dir) in
  bool_decide ("/data/obs" ∈ dirs fs') = true /\
  bool_decide ("/data/obs/flags" ∈ dirs fs') = true /\
  fs_log fs'
  = [EvIsDir "/data/obs/flags"; EvMakeDirs "/data/obs/flags";
     EvSave "/data/obs/flags/00003.npy"].
Proof. vm_compute. repeat split. Qed.

Example npy_put_file_in_the_way :
  fst (NpyFileChunkStore.put npy_store "x" (Seq [slice2 3 5]) x_3_5
         dir_with_file_x) = Raise (Native OSError).
Proof. vm_compute. reflexivity. Qed.

Example npy_put_full_disk :
  fst (NpyFileChunkStore.put npy_store "x" (Seq [slice2 3 5]) x_3_5
         full_disk) = Raise (Native IOError).
Proof. vm_compute. reflexivity. Qed.

Example rados_put_on_empty_pool :
  RadosChunkStore.put rados_store "x" (Seq [slice2 3 5]) x_3_5 empty_pool
  = (Raise (Native TypeError), empty_pool).
Proof. reflexivity. Qed.

Example np_ndarray_empty_but_too_big :
  np_ndarray [0; 2 ^ 62] int64 [] = Raise (Native ValueError).
Proof. reflexivity. Qed.

Example npy_put_absolute_array_name :
  NpyFileChunkStore.filename npy_store (join ["/tmp/x"; index_string [3]])
  = "/tmp/x/00003.npy".
Proof. reflexivity. Qed.

(** * Further properties of the chunk stores *)

(** ** What a connected RADOS store translates *)

Lemma serving_error_map_lookup (e : native_exn) :
  serving_error_map !! e
  = match e with
    | RadosTimedOut => Some StoreUnavailable
    | RadosObjectNotFound => Some ChunkNotFound
    | _ => None
    end.
Proof. destruct e; vm_compute; reflexivity. Qed.

Lemma standard_errors_serving {W A} (key : string) (body : M W A) (w : W) :
  fst (standard_errors serving_error_map (Some key) body w)
  = match fst (body w) with
    | Raise (Native e) => Raise (while_serving key e)
    | r => r
    end.
Proof.
  unfold standard_errors. destruct (body w) as [[a|[k o|e]] w']; try reflexivity.
  rewrite serving_error_map_lookup. destruct e; reflexivity.
Qed.



(** ** How [RadosChunkStore.init] fails *)

(** Without the [rados] module [init] raises [ImportError] and calls
    nothing.  A failure of [rados.Rados(...)] or of [conf_set] happens
    before the translated block: it is raised as it is, also when it is
    the library's timeout or object-not-found, and after a failure of
    [rados.Rados(...)] no further call is made.  A timeout of [connect]
    comes out as [StoreUnavailable]. *)
Theorem rados_init_failures
    (conf : rados_conf) (pool : string) (keyring timeout : option string)
    (c : cluster) :
  (rados_module c = false ->
   RadosChunkStore.init conf pool keyring timeout c
   = (Raise (Native ImportError), c)) /\
  (forall e, rados_module c = true -> on_rados c = Some e ->
   RadosChunkStore.init conf pool keyring timeout c
   = (Raise (Native e), rados_record (EvRados conf) c)) /\
  (forall e, rados_module c = true -> on_rados c = None ->
   sets_conf keyring timeout = true -> on_conf_set c = Some e ->
   fst (RadosChunkStore.init conf pool keyring timeout c)
   = Raise (Native e)) /\
  (rados_module c = true -> on_rados c = None -> on_conf_set c = None ->
   on_connect c = Some RadosTimedOut ->
   fst (RadosChunkStore.init conf pool keyring timeout c)
   = Raise (Standard StoreUnavailable None)).
Proof.
  repeat split.
  - intros Hm. unfold RadosChunkStore.init. rewrite Hm. reflexivity.
  - intros e Hm Hr. unfold RadosChunkStore.init. rewrite Hm. cbn [negb].
    unfold bind at 1. unfold rados_Rados, scripted. rewrite Hr. reflexivity.
  - intros e Hm Hr Hs He. rewrite init_outcome_correct.
    unfold init_outcome. rewrite Hm, Hr, Hs, He. reflexivity.
  - intros Hm Hr Hs Hc. rewrite init_outcome_correct.
    unfold init_outcome. rewrite Hm, Hr, Hs, Hc.
    destruct (sets_conf keyring timeout); reflexivity.
Qed.

(** ** What [get] of the RADOS store makes of the bytes it reads *)



(** [get] of an object that is there and long enough, on a cluster that
    answers. *)
Lemma rados_get_of_object (self : RadosChunkStore.t) (array_name : string)
    (slices : slice_spec) (dt : np_dtype) (rs : list (Z * Z)) (c : cluster)
    (b : list Byte.byte) :
  ranges_of slices = Some rs -> hasobject dt = false ->
  Forall (fun r => fst r < snd r) rs -> 0 <= itemsize dt ->
  product (shape_of rs) * itemsize dt < 2 ^ 63 ->
  io_fault c = None ->
  objects c !! join [array_name; index_string (map fst rs)] = Some b ->
  product (shape_of rs) * itemsize dt <= Z.of_nat (length b) ->
  fst (RadosChunkStore.get self array_name slices dt c)
  = Ok {| shape := shape_of rs; dtype := dt;
          data := take (Z.to_nat (product (shape_of rs) * itemsize dt)) b |}.
Proof.
  intros Hslices Hdtype Hextent Hsize Hfits Hio Hobj Hlen.
  pose proof (shape_of_positive _ Hextent) as Hpos.
  pose proof (product_nonneg _ (positive_nonneg _ Hpos)) as Hprod.
  rewrite (rados_get_request self array_name slices dt rs c Hslices Hdtype)
    by nia.
  unfold bind, standard_errors, ioctx_read, lift. rewrite Hio, Hobj.
  cbn [fst]. apply np_ndarray_of_read; assumption.
Qed.



(** ** The effect of [get] and [put] on what is stored *)

(** Within one store and one array, different index strings are different
    files. *)
Lemma filename_inj (self : NpyFileChunkStore.t) (array_name i1 i2 : string) :
  NpyFileChunkStore.filename self (join [array_name; i1])
  = NpyFileChunkStore.filename self (join [array_name; i2]) ->
  i1 = i2.
Proof.
  unfold NpyFileChunkStore.filename, join. cbn [String.concat].
  intros H. apply append_inj_r in H. revert H. unfold os_path_join.
  assert (Hs : startswith_sep (array_name +:+ "/" +:+ i1)
               = startswith_sep (array_name +:+ "/" +:+ i2)).
  { destruct array_name as [|c n]; [reflexivity|].
    rewrite !append_cons. reflexivity. }
  rewrite <- Hs.
  destruct (startswith_sep (array_name +:+ "/" +:+ i1));
    [|destruct (String.eqb (NpyFileChunkStore.path self) ""
                || endswith (NpyFileChunkStore.path self) "/")];
    intros H.
  - apply (inj (String.app array_name)) in H.
    apply (inj (String.app "/")) in H. exact H.
  - apply (inj (String.app _)) in H.
    apply (inj (String.app array_name)) in H.
    apply (inj (String.app "/")) in H. exact H.
  - apply (inj (String.app _)) in H.
    apply (inj (String.app "/")) in H.
    apply (inj (String.app array_name)) in H.
    apply (inj (String.app "/")) in H. exact H.
Qed.

(** [get] of the file store looks at the fault and at one file only. *)
Lemma npy_get_depends (self : NpyFileChunkStore.t) (array_name : string)
    (slices : slice_spec) (dt : option np_dtype) (rs : list (Z * Z))
    (fs fs' : filesystem) :
  ranges_of slices = Some rs ->
  fs_fault fs' = fs_fault fs ->
  files fs'
    !! NpyFileChunkStore.filename self
         (join [array_name; index_string (map fst rs)])
  = files fs
      !! NpyFileChunkStore.filename self
           (join [array_name; index_string (map fst rs)]) ->
  fst (NpyFileChunkStore.get self array_name slices dt fs')
  = fst (NpyFileChunkStore.get self array_name slices dt fs).
Proof.
  intros Hr Hf Hl. rewrite !(npy_get_accepted _ _ _ _ _ _ Hr).
  unfold np_load. rewrite Hf, Hl.
  destruct (fs_fault fs); [reflexivity|].
  destruct (files fs !! _); reflexivity.
Qed.

(** [get] of the RADOS store looks at the fault and at one object only. *)
Lemma rados_get_depends (self : RadosChunkStore.t) (array_name : string)
    (slices : slice_spec) (dt : np_dtype) (rs : list (Z * Z))
    (c c' : cluster) :
  ranges_of slices = Some rs ->
  io_fault c' = io_fault c ->
  objects c' !! join [array_name; index_string (map fst rs)]
  = objects c !! join [array_name; index_string (map fst rs)] ->
  fst (RadosChunkStore.get self array_name slices dt c')
  = fst (RadosChunkStore.get self array_name slices dt c).
Proof.
  intros Hr Hf Hl. unfold RadosChunkStore.get.
  destruct (chunk_metadata array_name slices None (Some dt))
    as [[key shp]|e] eqn:Hm; [|reflexivity].
  apply (chunk_metadata_key _ _ _ _ _ _ _ Hr) in Hm as [-> ->].
  rewrite !bind_lift_ok.
  unfold bind, standard_errors, ioctx_read, lift. rewrite Hf.
  change (array_name +:+ "/" +:+ index_string (map fst rs))
    with (join [array_name; index_string (map fst rs)]).
  rewrite Hl.
  destruct (io_fault c) as [e|].
  - destruct (RadosChunkStore._error_map self !! e); reflexivity.
  - destruct (objects c !! _).
    + reflexivity.
    + destruct (RadosChunkStore._error_map self !! RadosObjectNotFound);
        reflexivity.
Qed.

(** [get] only reads: whatever the arguments and the state, the
    directories and files of the file store, the objects and pools of the
    RADOS store and the faults of both are after the call what they were
    before. *)
Theorem get_changes_nothing
    (array_name : string) (slices : slice_spec) :
  (forall (self : NpyFileChunkStore.t) dt fs,
      let fs' := snd (NpyFileChunkStore.get self array_name slices dt fs) in
      dirs fs' = dirs fs /\ files fs' = files fs /\
      fs_fault fs' = fs_fault fs) /\
  (forall (self : RadosChunkStore.t) dt c,
      let c' := snd (RadosChunkStore.get self array_name slices dt c) in
      objects c' = objects c /\ pools c' = pools c /\
      io_fault c' = io_fault c).
Proof.
  split.
  - intros self dt fs. cbv zeta. unfold NpyFileChunkStore.get.
    destruct (chunk_name array_name slices) as [key|e].
    + rewrite bind_lift_ok. unfold np_load.
      destruct (fs_fault fs) eqn:Hf; [cbn; auto|].
      match goal with
      | |- context [files fs !! ?f] => destruct (files fs !! f)
      end; cbn; auto.
    + rewrite bind_lift_raise. repeat split.
  - intros self dt c. cbv zeta. unfold RadosChunkStore.get.
    destruct (chunk_metadata array_name slices None (Some dt))
      as [[key shp]|e].
    + rewrite bind_lift_ok. unfold bind, standard_errors, ioctx_read, lift.
      destruct (io_fault c) as [e|] eqn:Hio.
      * destruct (RadosChunkStore._error_map self !! e); cbn; auto.
      * destruct (objects c !! key).
        -- cbn. auto.
        -- destruct (RadosChunkStore._error_map self !! RadosObjectNotFound);
             cbn; auto.
    + rewrite bind_lift_raise. repeat split.
Qed.



Lemma distinct_starts_distinct_index (rs1 rs2 : list (Z * Z))
    (s1 s2 : slice_spec) :
  ranges_of s1 = Some rs1 -> ranges_of s2 = Some rs2 ->
  Forall in_padding_range (map fst rs1) ->
  Forall in_padding_range (map fst rs2) ->
  map fst rs1 <> map fst rs2 ->
  index_string (map fst rs1) <> index_string (map fst rs2).
Proof.
  intros H1 H2 R1 R2 Hne Heq. apply Hne.
  apply index_string_inj; try assumption.
  - pose proof (ranges_of_nonempty _ _ H1).
    destruct rs1; [contradiction | discriminate].
  - pose proof (ranges_of_nonempty _ _ H2).
    destruct rs2; [contradiction | discriminate].
Qed.



(** The file store hands back the array of the file as it is: after a
    [put] that returned, of any chunk at all, of whatever shape and dtype,
    under a slice specification that the key derivation accepts, [get]
    returns that chunk whatever dtype the caller names. *)
Theorem npy_get_returns_stored_array
    (self : NpyFileChunkStore.t) (array_name : string) (slices : slice_spec)
    (rs : list (Z * Z)) (chunk : ndarray) (dt : option np_dtype)
    (fs fs' : filesystem)
    (Hslices : ranges_of slices = Some rs)
    (Hput : NpyFileChunkStore.put self array_name slices chunk fs
            = (Ok tt, fs')) :
  fst (NpyFileChunkStore.get self array_name slices dt fs') = Ok chunk.
Proof.
  exact (npy_put_then_get self array_name slices chunk rs dt fs fs'
           Hslices Hput).
Qed.

Lemma npy_get_returns_stored_array_witness :
  shape ones11 <> shape_of [(0, 10)] /\
  exists fs',
    NpyFileChunkStore.put npy_store "x" (Seq [slice3 0 10 1]) ones11 empty_dir
    = (Ok tt, fs') /\
    fst (NpyFileChunkStore.get npy_store "x" (Seq [slice3 0 10 1])
           (Some int64) fs') = Ok ones11.
Proof.
  split; [discriminate|].
  eexists. split; [vm_compute; reflexivity|].
  apply (npy_get_returns_stored_array npy_store "x" (Seq [slice3 0 10 1])
           [(0, 10)] ones11 (Some int64) empty_dir _ eq_refl).
  vm_compute. reflexivity.
Defined.



(** * katfile/hdf5.py *)

(** ** [get_single_value] *)

Lemma np_equal_true {V} `{EqDecision V} `{HasNaN V} (a b : V) :
  np_equal a b = true <-> a = b /\ isnan b = false.
Proof.
  unfold np_equal. rewrite andb_true_iff, negb_true_iff, bool_decide_eq_true.
  split; [intros [Hn ->] | intros [-> Hn]]; auto.
Qed.

Lemma forallb_all_equal {V} `{EqDecision V} `{HasNaN V} (v0 : V) (l : list V) :
  forallb (fun v => np_equal v v0) (v0 :: l) = true
  <-> isnan v0 = false /\ forall w, w ∈ l -> w = v0.
Proof.
  rewrite forallb_forall. split.
  - intros Hall. split.
    + apply (np_equal_true v0 v0), Hall. left. reflexivity.
    + intros w Hw. apply (np_equal_true w v0), Hall. right.
      apply list_elem_of_In. exact Hw.
  - intros [Hn Heq] w [<-|Hw]; apply np_equal_true; [auto|].
    split; [|exact Hn]. apply Heq, list_elem_of_In, Hw.
Qed.

Lemma array_truth_true (a : list bool) :
  array_truth a = Returns true <-> a = [true].
Proof.
  destruct a as [|b [|c a]]; cbn; split; try discriminate.
  - intros [= ->]. reflexivity.
  - intros [= ->]. reflexivity.
Qed.

Lemma np_equal_arrays_single {V} `{EqDecision V} `{HasNaN V}
    (row : list V) (v : V) :
  np_equal_arrays row [v] = [true] <-> row = [v] /\ isnan v = false.
Proof.
  destruct row as [|w [|u row]]; cbn; split; try discriminate;
    try (intros [[=] _]; fail).
  - intros [= Hw]. apply np_equal_true in Hw as [-> Hn]. auto.
  - intros [[= ->] Hn]. f_equal. apply np_equal_true. auto.
Qed.

Lemma builtin_all_true (rows : list (list bool)) :
  builtin_all rows = Returns true <-> forall row, row ∈ rows -> row = [true].
Proof.
  induction rows as [|row rows IH]; cbn [builtin_all].
  - split; [intros _ row Hrow; inversion Hrow | reflexivity].
  - split.
    + intros Hall.
      destruct (array_truth row) as [[|]|e] eqn:Hrow; cbn [and_then] in Hall;
        try discriminate.
      apply array_truth_true in Hrow. pose proof (proj1 IH Hall) as Hrest.
      intros r Hr. apply elem_of_cons in Hr as [->|Hr]; auto.
    + intros Hall.
      rewrite (proj2 (array_truth_true row)) by (apply Hall; left).
      cbn [and_then]. apply IH. intros r Hr. apply Hall. right. exact Hr.
Qed.

(** The rows of a dataset that pass the test of [get_single_value]: each
    is the one cell of the first row, which is not a NaN. *)
Lemma rows_all_equal {V} `{EqDecision V} `{HasNaN V}
    (row0 : list V) (rows : list (list V)) :
  builtin_all (map (fun row => np_equal_arrays row row0) (row0 :: rows))
  = Returns true
  <-> exists v, row0 = [v] /\ isnan v = false /\
                forall row, row ∈ rows -> row = [v].
Proof.
  rewrite builtin_all_true. split.
  - intros Hall.
    assert (H0 : np_equal_arrays row0 row0 = [true]).
    { apply Hall. apply list_elem_of_fmap. exists row0. split; [reflexivity|].
      left. }
    destruct row0 as [|v [|u row0]]; try discriminate.
    exists v. split; [reflexivity|].
    apply np_equal_arrays_single in H0 as [_ Hn]. split; [exact Hn|].
    intros row Hrow.
    apply (np_equal_arrays_single row v), Hall.
    apply list_elem_of_fmap. exists row. split; [reflexivity|].
    right. exact Hrow.
  - intros (v & -> & Hn & Hrows) r Hr.
    apply list_elem_of_fmap in Hr as (row & -> & Hrow).
    apply np_equal_arrays_single. split; [|exact Hn].
    apply elem_of_cons in Hrow as [->|Hrow]; [reflexivity | auto].
Qed.

(** [get_single_value] returns in exactly three situations.  The group
    has the attribute, which is what is returned (the dataset of that
    name is then not looked at).  Or it has no such attribute and a
    one-dimensional dataset of that name whose first element is not a
    NaN and whose other elements all equal it: that element is returned.
    Or it has no such attribute and a dataset of more dimensions whose
    sub-arrays along the first axis all consist of one and the same cell,
    not a NaN: the first sub-array is returned. *)
Theorem get_single_value_returns {V} `{EqDecision V} `{HasNaN V}
    (group : h5_group V) (name : string) (r : single V) :
  get_single_value group name = Returns r <->
  (exists v, attrs group !! name = Some v /\ r = Value v) \/
  attrs group !! name = None /\
  ((exists v rest,
       members group !! name = Some (Dataset1D (v :: rest)) /\
       isnan v = false /\ (forall w, w ∈ rest -> w = v) /\ r = Value v) \/
   (exists v rows,
       members group !! name = Some (DatasetND ([v] :: rows)) /\
       isnan v = false /\ (forall row, row ∈ rows -> row = [v]) /\
       r = Row [v])).
Proof.
  unfold get_single_value, has_data.
  destruct (attrs group !! name) as [a|].
  - split.
    + intros [= <-]. left. exists a. split; reflexivity.
    + intros [(v & [= ->] & ->)|[[=] _]]. reflexivity.
  - split.
    + intros Hret. right. split; [reflexivity|].
      destruct (members group !! name) as [[|s|[|v0 l]|[|row0 rows]]|];
        try discriminate; cbn [and_then negb] in Hret.
      * left.
        destruct (forallb (fun w => np_equal w v0) (v0 :: l)) eqn:Hall;
          [|discriminate].
        injection Hret as <-.
        apply forallb_all_equal in Hall as [Hn Hall].
        exists v0, l. repeat split; assumption.
      * right.
        destruct (builtin_all
                    (map (fun row => np_equal_arrays row row0)
                       (row0 :: rows))) as [[|]|e] eqn:Hall;
          try discriminate.
        injection Hret as <-.
        apply rows_all_equal in Hall as (v & -> & Hn & Hall).
        exists v, rows. repeat split; assumption.
    + intros [(v & [=] & _)|[_ [(v & rest & -> & Hn & Hall & ->)
                                |(v & rows & -> & Hn & Hall & ->)]]];
        cbn [and_then negb].
      * rewrite (proj2 (forallb_all_equal v rest)) by (split; assumption).
        reflexivity.
      * rewrite (proj2 (rows_all_equal [v] rows))
          by (exists v; repeat split; assumption).
        reflexivity.
Qed.

Lemma get_single_value_returns_witness :
  get_single_value
    {| attrs := (∅ : gmap string Z);
       members := {[ "n_chans" := Dataset1D [512; 512] ]} |} "n_chans"
  = Returns (Value 512) /\
  get_single_value
    {| attrs := (∅ : gmap string Z);
       members := {[ "n_chans" := DatasetND [[512]; [512]] ]} |} "n_chans"
  = Returns (Row [512]) /\
  get_single_value
    {| attrs := (∅ : gmap string np_float);
       members := {[ "gain" := Dataset1D [NaN; NaN] ]} |} "gain"
  = Throws PyValueError.
Proof.
  split; [|split].
  - apply get_single_value_returns. right. split; [apply lookup_empty|].
    left. exists 512, [512]. split; [apply lookup_singleton_eq|].
    split; [reflexivity|]. split; [|reflexivity].
    intros w Hw. apply list_elem_of_singleton in Hw. exact Hw.
  - apply get_single_value_returns. right. split; [apply lookup_empty|].
    right. exists 512, [[512]]. split; [apply lookup_singleton_eq|].
    split; [reflexivity|]. split; [|reflexivity].
    intros row Hrow. apply list_elem_of_singleton in Hrow. exact Hrow.
  - vm_compute. reflexivity.
Defined.

(** Without the attribute, [get_single_value] raises [ValueError] when
    there is no dataset of that name, when it has shape [()], and when a
    one-dimensional dataset holds two different values; a dataset of
    length zero passes the emptiness test and makes the lookup of its
    first value raise [IndexError]. *)
Theorem get_single_value_raises {V} `{EqDecision V} `{HasNaN V}
    (group : h5_group V) (name : string)
    (Hattr : attrs group !! name = None) :
  (members group !! name = None ->
   get_single_value group name = Throws PyValueError) /\
  (forall v, members group !! name = Some (ScalarDataset v) ->
   get_single_value group name = Throws PyValueError) /\
  (forall values v w,
      members group !! name = Some (Dataset1D values) ->
      v ∈ values -> w ∈ values -> v <> w ->
      get_single_value group name = Throws PyValueError) /\
  (members group !! name = Some (Dataset1D []) ->
   get_single_value group name = Throws PyIndexError).
Proof.
  unfold get_single_value, has_data. rewrite Hattr.
  repeat split.
  - intros ->. reflexivity.
  - intros v ->. reflexivity.
  - intros values v w -> Hv Hw Hne. cbn.
    destruct values as [|v0 l]; [inversion Hv|].
    destruct (forallb (fun u => np_equal u v0) (v0 :: l)) eqn:Hall;
      [|reflexivity].
    exfalso. apply Hne.
    rewrite forallb_forall in Hall.
    apply list_elem_of_In, Hall, np_equal_true in Hv as [-> _].
    apply list_elem_of_In, Hall, np_equal_true in Hw as [-> _].
    reflexivity.
  - intros ->. reflexivity.
Qed.

Lemma get_single_value_raises_witness :
  get_single_value
    {| attrs := (∅ : gmap string Z);
       members := {[ "n_chans" := Dataset1D [] ]} |} "n_chans"
  = Throws PyIndexError /\
  get_single_value
    {| attrs := (∅ : gmap string Z);
       members := {[ "n_chans" := Dataset1D [512; 512; 1024] ]} |} "n_chans"
  = Throws PyValueError.
Proof.
  split.
  - apply get_single_value_raises; [apply lookup_empty|].
    apply lookup_singleton_eq.
  - eapply (proj1 (proj2 (proj2 (get_single_value_raises _ "n_chans" _)))
              [512; 512; 1024] 512 1024).
    + apply lookup_singleton_eq.
    + set_solver.
    + set_solver.
    + discriminate.
    Unshelve. apply lookup_empty.
Defined.

(** ** [remove_duplicates] *)

Lemma take_indices_returns {A} (a : list A) (idx : list nat) (l : list A) :
  take_indices a idx = Returns l <-> mapM (fun i => a !! i) idx = Some l.
Proof.
  unfold take_indices. destruct (mapM _ idx); split; congruence.
Qed.

Lemma take_indices_fmap {A B} (f : A -> B) (a : list A) (idx : list nat)
    (l : list A) :
  take_indices a idx = Returns l ->
  take_indices (map f a) idx = Returns (map f l).
Proof.
  rewrite !take_indices_returns. intros H. apply mapM_Some in H.
  apply mapM_Some. induction H as [|i v idx l Hi _ IH]; simpl; constructor.
  - change (map f a) with (f <$> a). rewrite list_lookup_fmap, Hi. reflexivity.
  - exact IH.
Qed.

Lemma take_indices_in_range {A} (a : list A) (idx : list nat) :
  Forall (fun i => (i < length a)%nat) idx ->
  exists l, take_indices a idx = Returns l /\ length l = length idx.
Proof.
  induction 1 as [|i idx Hi _ (l & Hl & Hlen)].
  - exists []. split; reflexivity.
  - apply lookup_lt_is_Some_2 in Hi as [v Hv].
    exists (v :: l). apply take_indices_returns in Hl.
    split; [|simpl; congruence].
    apply take_indices_returns. simpl. rewrite Hv. simpl. rewrite Hl.
    reflexivity.
Qed.

Lemma take_indices_seq {A} (a : list A) :
  take_indices a (seq 0 (length a)) = Returns a.
Proof.
  apply take_indices_returns, mapM_Some.
  assert (H : forall pre, Forall2 (fun i v => (pre ++ a) !! i = Some v)
                            (seq (length pre) (length a)) a).
  { induction a as [|v a IH]; intros pre; simpl; constructor.
    - rewrite lookup_app_r by lia. rewrite Nat.sub_diag. reflexivity.
    - specialize (IH (pre ++ [v])). rewrite length_app in IH. simpl in IH.
      rewrite <- app_assoc in IH. simpl in IH.
      replace (S (length pre)) with (length pre + 1)%nat by lia. exact IH. }
  exact (H []).
Qed.

Lemma take_indices_Permutation {A} (a : list A) (idx idx' : list nat)
    (l : list A) :
  idx ≡ₚ idx' -> take_indices a idx = Returns l ->
  exists l', take_indices a idx' = Returns l' /\ l ≡ₚ l'.
Proof.
  intros Hp. revert l.
  induction Hp as [|i idx idx' _ IH|i j idx|idx1 idx2 idx3 _ IH1 _ IH2];
    intros l; rewrite !take_indices_returns; simpl.
  - intros [= <-]. exists []. split; [reflexivity | constructor].
  - destruct (a !! i) as [v|] eqn:Hv; [|discriminate]. simpl.
    destruct (mapM _ idx) as [l0|] eqn:Hl0; [|discriminate]. simpl.
    intros [= <-].
    destruct (IH l0) as (l' & Hl' & Hp'); [apply take_indices_returns, Hl0|].
    apply take_indices_returns in Hl'.
    exists (v :: l'). split.
    + apply take_indices_returns. simpl. rewrite Hv. simpl. rewrite Hl'.
      reflexivity.
    + constructor. exact Hp'.
  - destruct (a !! j) as [w|] eqn:Hw; [|discriminate]. simpl.
    destruct (a !! i) as [v|] eqn:Hv; [|discriminate]. simpl.
    destruct (mapM _ idx) as [l0|] eqn:Hl0; [|discriminate]. simpl.
    intros [= <-]. exists (v :: w :: l0). split.
    + apply take_indices_returns. simpl. rewrite Hv, Hw. simpl.
      rewrite Hl0. reflexivity.
    + constructor.
  - intros H. apply take_indices_returns in H.
    destruct (IH1 _ H) as (l2 & H2 & P2).
    destruct (IH2 _ H2) as (l3 & H3 & P3).
    exists l3. split; [exact H3 | etransitivity; eassumption].
Qed.

Lemma mapM_lookup_pairs (x : list Z) (pairs : list (Z * nat)) :
  Forall (fun p => x !! p.2 = Some p.1) pairs ->
  mapM (fun i => x !! i) pairs.*2 = Some pairs.*1.
Proof.
  induction 1 as [|p pairs Hp _ IH]; [reflexivity|].
  cbn. rewrite Hp. cbn. rewrite IH. reflexivity.
Qed.

Lemma sorted_keys (pairs : list (Z * nat)) :
  StronglySorted key_then_index pairs -> StronglySorted Z.le pairs.*1.
Proof.
  induction 1 as [|p l _ IH Hall]; [constructor|].
  cbn. constructor; [exact IH|].
  apply Forall_fmap. eapply Forall_impl; [exact Hall|].
  intros q Hq. unfold key_then_index in Hq. simpl. lia.
Qed.

(** The samples in the order of the stable sort of their timestamps. *)
Lemma argsort_samples {V S} (sensor : list (sample V S)) :
  exists sorted,
    take_indices sensor (np_argsort_mergesort (map timestamp sensor))
    = Returns sorted /\
    sorted ≡ₚ sensor /\
    Sorted Z.le (map timestamp sorted).
Proof.
  set (x := map timestamp sensor).
  set (pairs := merge_sort key_then_index (zip x (seq 0 (length x)))).
  assert (Hperm : pairs ≡ₚ zip x (seq 0 (length x)))
    by apply merge_sort_Permutation.
  assert (Hidx : pairs.*2 ≡ₚ seq 0 (length sensor)).
  { rewrite Hperm. rewrite snd_zip by (rewrite length_seq; lia).
    unfold x. rewrite length_map. reflexivity. }
  destruct (take_indices_Permutation sensor _ _ sensor (symmetry Hidx)
              (take_indices_seq sensor)) as (sorted & Hs & Hp).
  exists sorted. split; [exact Hs|]. split; [symmetry; exact Hp|].
  assert (Hkeys : map timestamp sorted = pairs.*1).
  { apply (take_indices_fmap timestamp) in Hs. fold x in Hs.
    apply take_indices_returns in Hs.
    assert (Hp1 : mapM (fun i => x !! i) pairs.*2 = Some pairs.*1).
    { apply mapM_lookup_pairs.
      rewrite Hperm. apply Forall_forall. intros [k i] Hin.
      apply list_elem_of_lookup in Hin as (n & Hn).
      apply lookup_zip_with_Some in Hn as (k' & i' & [= <- <-] & Hk & Hi).
      apply lookup_seq in Hi as [-> _]. exact Hk. }
    unfold np_argsort_mergesort in Hs. fold x in Hs. fold pairs in Hs.
    congruence. }
  rewrite Hkeys.
  assert (Hsorted : Sorted key_then_index pairs) by apply Sorted_merge_sort, _.
  apply Sorted_StronglySorted in Hsorted; [|apply _].
  apply StronglySorted_Sorted, sorted_keys, Hsorted.
Qed.

Lemma zip_seq_sorted (x : list Z) (s : nat) :
  Sorted Z.le x -> Sorted key_then_index (zip x (seq s (length x))).
Proof.
  intros H. revert s. induction H as [|a x Hs IH Hhd]; intros s; simpl.
  - constructor.
  - constructor; [apply IH|].
    destruct Hhd as [|b x' Hab]; simpl; constructor.
    unfold key_then_index. simpl. lia.
Qed.

(** A stable sort leaves timestamps that are in order where they are. *)
Lemma argsort_sorted {A} (a : list A) (x : list Z) :
  length a = length x -> Sorted Z.le x ->
  take_indices a (np_argsort_mergesort x) = Returns a.
Proof.
  intros Hlen Hs. unfold np_argsort_mergesort.
  assert (Heq : merge_sort key_then_index (zip x (seq 0 (length x)))
                = zip x (seq 0 (length x))).
  { apply (Sorted_unique key_then_index).
    - apply Sorted_merge_sort, _.
    - apply zip_seq_sorted, Hs.
    - apply merge_sort_Permutation. }
  rewrite Heq, snd_zip by (rewrite length_seq; lia).
  rewrite <- Hlen. apply take_indices_seq.
Qed.

(** ** Masks *)

Lemma length_last_of_run (x : list Z) :
  x <> [] -> length (last_of_run x) = length x.
Proof.
  intros Hne. unfold last_of_run. rewrite length_app, length_map. simpl.
  induction x as [|a [|b x] IH]; [contradiction|reflexivity|].
  simpl in *. rewrite <- IH by discriminate. lia.
Qed.

Lemma last_of_run_cons (a b : Z) (x : list Z) :
  last_of_run (a :: b :: x) = negb (b - a =? 0) :: last_of_run (b :: x).
Proof. reflexivity. Qed.

Lemma last_last_of_run (x : list Z) : last (last_of_run x) = Some true.
Proof. unfold last_of_run. apply last_snoc. Qed.

Lemma nonzero_select {A} (a : list A) (mask : list bool) (k : nat) :
  length mask = length (drop k a) ->
  take_indices a (nonzero_from k mask) = Returns (select mask (drop k a)).
Proof.
  intros Hlen. apply take_indices_returns. revert k Hlen.
  induction mask as [|b m IH]; intros k Hlen; [reflexivity|].
  destruct (drop k a) as [|v d] eqn:Hd; [discriminate|].
  assert (Hk : a !! k = Some v).
  { rewrite <- (Nat.add_0_r k), <- lookup_drop, Hd. reflexivity. }
  assert (Hd' : drop (S k) a = d).
  { replace (S k) with (k + 1)%nat by lia.
    rewrite <- drop_drop, Hd. reflexivity. }
  specialize (IH (S k)). rewrite Hd' in IH. simpl in Hlen.
  specialize (IH ltac:(lia)).
  cbn [nonzero_from select]. destruct b; simpl.
  - rewrite Hk. simpl. rewrite IH. reflexivity.
  - exact IH.
Qed.

Lemma nonzero_from_bound (mask : list bool) (k : nat) :
  Forall (fun i => (k <= i < k + length mask)%nat) (nonzero_from k mask).
Proof.
  revert k. induction mask as [|b m IH]; intros k; [constructor|].
  cbn [nonzero_from]. apply Forall_app. split.
  - destruct b; constructor; [simpl; lia | constructor].
  - eapply Forall_impl; [apply IH|]. intros i Hi. simpl in *. lia.
Qed.

Lemma count_true_cons (b : bool) (m : list bool) :
  count_true (b :: m) = ((if b then 1 else 0) + count_true m)%nat.
Proof.
  unfold count_true. rewrite filter_cons. destruct b; reflexivity.
Qed.

Lemma count_true_app (m1 m2 : list bool) :
  count_true (m1 ++ m2) = (count_true m1 + count_true m2)%nat.
Proof. unfold count_true. rewrite filter_app, length_app. reflexivity. Qed.

Lemma count_true_rev (m : list bool) : count_true (rev m) = count_true m.
Proof.
  induction m as [|b m IH]; [reflexivity|].
  simpl. rewrite count_true_app, IH, !count_true_cons.
  change (count_true []) with 0%nat. lia.
Qed.

Lemma length_nonzero_from (mask : list bool) (k : nat) :
  length (nonzero_from k mask) = count_true mask.
Proof.
  revert k. induction mask as [|b m IH]; intros k; [reflexivity|].
  cbn [nonzero_from]. rewrite length_app, IH, count_true_cons.
  destruct b; reflexivity.
Qed.

Lemma cumsum_from_snoc (acc : nat) (m : list bool) (b : bool) :
  cumsum_from acc (m ++ [b])
  = cumsum_from acc m
    ++ [(acc + count_true m + (if b then 1 else 0))%nat].
Proof.
  revert acc. induction m as [|b0 m IH]; intros acc; simpl.
  - unfold count_true. simpl. f_equal. lia.
  - rewrite IH, count_true_cons. do 3 f_equal. lia.
Qed.

Lemma rev_cumsum_rev (m : list bool) :
  rev (np_cumsum (rev m)) = suffix_counts m.
Proof.
  unfold np_cumsum. induction m as [|b m IH]; [reflexivity|].
  simpl. rewrite cumsum_from_snoc, rev_app_distr. simpl.
  rewrite IH, count_true_rev. f_equal. lia.
Qed.

Lemma suffix_counts_le (m : list bool) :
  Forall (fun c => (c <= count_true m)%nat) (suffix_counts m).
Proof.
  induction m as [|b m IH]; [constructor|].
  simpl. rewrite count_true_cons. constructor; [lia|].
  eapply Forall_impl; [exact IH|]. intros c Hc. simpl in Hc. lia.
Qed.

Lemma mapM_ext_Forall {A B} (f g : A -> option B) (l : list A) :
  Forall (fun a => f a = g a) l -> mapM f l = mapM g l.
Proof.
  induction 1 as [|a l Ha _ IH]; [reflexivity|].
  cbn. rewrite Ha, IH. reflexivity.
Qed.

Lemma mapM_map {A B C} (f : B -> option C) (g : A -> B) (l : list A) :
  mapM f (map g l) = mapM (fun a => f (g a)) l.
Proof.
  induction l as [|a l IH]; [reflexivity|]. cbn. rewrite IH. reflexivity.
Qed.

Lemma next_true_from_nonempty (k : nat) (b : bool) (m : list bool) :
  exists j r, next_true_from k (b :: m) = j :: r.
Proof. cbn [next_true_from]. eauto. Qed.

Lemma Forall2_weaken_l {A B} (P : A -> Prop) (R R' : A -> B -> Prop)
    (l : list A) (k : list B) :
  Forall P l -> Forall2 R l k ->
  (forall a b, P a -> R a b -> R' a b) -> Forall2 R' l k.
Proof.
  intros HP HR Himp. revert HP.
  induction HR as [|a b l k Hab _ IH]; intros HP; constructor.
  - apply Forall_cons in HP as [Ha _]. apply Himp; assumption.
  - apply Forall_cons in HP as [_ HP]. apply IH, HP.
Qed.

Lemma replacement_lookups (m : list bool) (k : nat) :
  last m = Some true ->
  Forall2 (fun c j => nonzero_from k m !! (count_true m - c)%nat = Some j)
    (suffix_counts m) (next_true_from k m).
Proof.
  intros Hlast. revert k.
  induction m as [|b m IH]; intros k; [discriminate|].
  destruct m as [|b' m''].
  - injection Hlast as ->. repeat constructor.
  - assert (Hlast' : last (b' :: m'') = Some true) by exact Hlast.
    specialize (IH Hlast' (S k)).
    set (m' := b' :: m'') in *.
    cbn [suffix_counts nonzero_from next_true_from].
    rewrite count_true_cons.
    constructor.
    + rewrite Nat.sub_diag. destruct b; [reflexivity|].
      cbn [app]. subst m'. cbn [suffix_counts next_true_from] in IH.
      apply Forall2_cons in IH as [IH _].
      rewrite count_true_cons, Nat.sub_diag in IH. exact IH.
    + apply (Forall2_weaken_l (fun c => (c <= count_true m')%nat) _ _ _ _
               (suffix_counts_le m') IH).
      intros c j Hc Hj. destruct b; cbn [app].
      * replace (1 + count_true m' - c)%nat
          with (S (count_true m' - c)) by lia.
        exact Hj.
      * exact Hj.
Qed.

(** The index arithmetic of [replacement] picks, for each position, the
    next position where the mask is [True]. *)
Lemma replacement_next_true (m : list bool) (k : nat) :
  last m = Some true ->
  take_indices (nonzero_from k m)
    (map (fun c => (count_true m - c)%nat) (suffix_counts m))
  = Returns (next_true_from k m).
Proof.
  intros Hlast. apply take_indices_returns, mapM_Some.
  change (map ?f ?l) with (f <$> l). apply Forall2_fmap_l.
  apply replacement_lookups, Hlast.
Qed.

Lemma next_true_from_bound (m : list bool) (k : nat) :
  last m = Some true ->
  Forall (fun j => (j < k + length m)%nat) (next_true_from k m).
Proof.
  revert k. induction m as [|b m IH]; intros k Hlast; [constructor|].
  cbn [next_true_from].
  destruct m as [|b' m''].
  - injection Hlast as ->. constructor; [simpl; lia | constructor].
  - assert (Hlast' : last (b' :: m'') = Some true) by exact Hlast.
    specialize (IH (S k) Hlast').
    constructor.
    + destruct b; [simpl; lia|].
      destruct (next_true_from_nonempty (S k) b' m'') as (j & r & Hr).
      rewrite Hr in IH |- *. apply Forall_cons in IH as [Hj _].
      simpl in *. lia.
    + eapply Forall_impl; [exact IH|]. intros j Hj. simpl in *. lia.
Qed.

Lemma next_true_fill_lookups {A} (a : list A) (m : list bool) (k : nat) :
  last m = Some true -> length m = length (drop k a) ->
  Forall2 (fun j v => a !! j = Some v)
    (next_true_from k m) (fill_next m (drop k a)).
Proof.
  revert k. induction m as [|b m IH]; intros k Hlast Hlen; [discriminate|].
  destruct (drop k a) as [|v d] eqn:Hd; [discriminate|].
  assert (Hk : a !! k = Some v).
  { rewrite <- (Nat.add_0_r k), <- lookup_drop, Hd. reflexivity. }
  assert (Hd' : drop (S k) a = d).
  { replace (S k) with (k + 1)%nat by lia.
    rewrite <- drop_drop, Hd. reflexivity. }
  simpl in Hlen.
  destruct m as [|b' m''].
  - injection Hlast as ->. cbn. repeat constructor. exact Hk.
  - assert (Hlast' : last (b' :: m'') = Some true) by exact Hlast.
    specialize (IH (S k) Hlast'). rewrite Hd' in IH.
    specialize (IH ltac:(simpl in *; lia)).
    set (m' := b' :: m'') in *.
    cbn [next_true_from fill_next].
    constructor; [|exact IH].
    destruct b; [exact Hk|].
    subst m'. destruct d as [|w d']; [discriminate|].
    cbn [next_true_from fill_next hd] in IH |- *.
    apply Forall2_cons in IH as [IH _]. exact IH.
Qed.

Lemma next_true_fill {A} (a : list A) (m : list bool) :
  last m = Some true -> length m = length a ->
  take_indices a (next_true_from 0 m) = Returns (fill_next m a).
Proof.
  intros Hlast Hlen. apply take_indices_returns, mapM_Some.
  apply (next_true_fill_lookups a m 0 Hlast Hlen).
Qed.

(** [np.all(a == b)]: the arrays are equal and hold no NaN. *)
Lemma np_all_equal_arrays {V} `{EqDecision V} `{HasNaN V} (a b : list V) :
  np_all (np_equal_arrays a b)
  = bool_decide (a = b) && forallb (fun v => negb (isnan v)) b.
Proof.
  revert b. induction a as [|x a IH]; intros [|y b].
  - reflexivity.
  - reflexivity.
  - reflexivity.
  - cbn [np_equal_arrays]. unfold np_all in *. cbn [forallb]. rewrite IH.
    unfold np_equal.
    destruct (decide (x = y)) as [->|Hxy].
    + rewrite (bool_decide_eq_true_2 (y = y)) by reflexivity.
      destruct (decide (a = b)) as [->|Hab].
      * rewrite !bool_decide_eq_true_2 by reflexivity.
        rewrite !andb_true_r, !andb_true_l. reflexivity.
      * rewrite !bool_decide_eq_false_2 by congruence.
        rewrite andb_false_l, andb_false_r. reflexivity.
    + rewrite (bool_decide_eq_false_2 (x = y)) by exact Hxy.
      rewrite (bool_decide_eq_false_2 (x :: a = y :: b)) by congruence.
      rewrite andb_false_r. reflexivity.
Qed.

(** [remove_duplicates] on a sensor that is not empty, in terms of the
    samples in sorted order. *)
Lemma remove_duplicates_sorted_form {V S} `{EqDecision V} `{HasNaN V}
    `{EqDecision S} (sensor sorted : list (sample V S)) :
  sensor <> [] ->
  take_indices sensor (np_argsort_mergesort (map timestamp sensor))
  = Returns sorted ->
  length sorted = length sensor ->
  let x := map timestamp sorted in
  let y := map value sorted in
  let z := map status sensor in
  let mask := last_of_run x in
  remove_duplicates sensor
  = if bool_decide (fill_next mask y = y)
       && forallb (fun v => negb (isnan v)) y
       && bool_decide (fill_next mask z = z)
    then Returns (fromarrays (select mask x) (select mask y) (select mask z))
    else Throws PyNameError.
Proof.
  intros Hne Hsort Hlen x y z mask.
  assert (Hx : x <> []).
  { unfold x. destruct sorted; [|discriminate].
    destruct sensor; [contradiction | discriminate]. }
  assert (Hmask : length mask = length x) by apply length_last_of_run, Hx.
  assert (Hlx : length x = length sorted) by apply length_map.
  assert (Hly : length y = length sorted) by apply length_map.
  assert (Hlz : length z = length sensor) by apply length_map.
  unfold remove_duplicates.
  rewrite (take_indices_fmap timestamp _ _ _ Hsort).
  rewrite (take_indices_fmap value _ _ _ Hsort).
  cbn [and_then]. fold x. fold y. fold z. fold mask.
  rewrite rev_cumsum_rev. unfold nonzero. rewrite length_nonzero_from.
  rewrite (replacement_next_true mask 0 (last_last_of_run x)).
  cbn [and_then].
  rewrite (next_true_fill y mask (last_last_of_run x)) by congruence.
  cbn [and_then]. rewrite np_all_equal_arrays.
  destruct (bool_decide (fill_next mask y = y)
            && forallb (fun v => negb (isnan v)) y);
    cbn [negb andb and_then]; [|reflexivity].
  rewrite (next_true_fill z mask (last_last_of_run x)) by congruence.
  cbn [and_then].
  destruct (bool_decide (fill_next mask z = z)); cbn [negb];
    [|reflexivity].
  rewrite (nonzero_select x mask 0) by (rewrite drop_0; congruence).
  rewrite (nonzero_select y mask 0) by (rewrite drop_0; congruence).
  rewrite (nonzero_select z mask 0) by (rewrite drop_0; congruence).
  cbn [and_then]. rewrite !drop_0. reflexivity.
Qed.

(** ** What is selected *)

Lemma select_map {A B} (f : A -> B) (m : list bool) (a : list A) :
  select m (map f a) = map f (select m a).
Proof.
  revert a. induction m as [|b m IH]; intros [|v a]; try reflexivity.
  cbn [map select]. rewrite IH. destruct b; reflexivity.
Qed.

Lemma select_sublist {A} (m : list bool) (a : list A) :
  sublist (select m a) a.
Proof.
  revert a. induction m as [|b m IH]; intros [|v a]; cbn [select];
    try apply sublist_nil_l.
  destruct b; [apply sublist_skip | apply sublist_cons]; apply IH.
Qed.

Lemma fromarrays_columns {V S} (l : list (sample V S)) (z : list S) :
  length z = length l ->
  map timestamp (fromarrays (map timestamp l) (map value l) z)
  = map timestamp l /\
  map value (fromarrays (map timestamp l) (map value l) z) = map value l /\
  map status (fromarrays (map timestamp l) (map value l) z) = z.
Proof.
  revert z. induction l as [|a l IH]; intros [|c z] Hlen; try discriminate.
  - repeat split.
  - injection Hlen as Hlen. destruct (IH z Hlen) as (H1 & H2 & H3).
    cbn [map fromarrays timestamp value status].
    rewrite H1, H2, H3. repeat split.
Qed.

Lemma fromarrays_samples {V S} (l : list (sample V S)) :
  fromarrays (map timestamp l) (map value l) (map status l) = l.
Proof.
  induction l as [|[t v s] l IH]; [reflexivity|].
  cbn [map fromarrays timestamp value status]. rewrite IH. reflexivity.
Qed.

Lemma length_select {A} (m : list bool) (a : list A) :
  length m = length a -> length (select m a) = count_true m.
Proof.
  revert a. induction m as [|b m IH]; intros [|v a] Hlen; try discriminate.
  - reflexivity.
  - injection Hlen as Hlen. cbn [select]. rewrite count_true_cons.
    destruct b; cbn [length]; rewrite IH by exact Hlen; reflexivity.
Qed.

Lemma select_last_of_run_elem (x : list Z) (t : Z) :
  t ∈ x -> t ∈ select (last_of_run x) x.
Proof.
  induction x as [|a x IH]; [intros H; inversion H|].
  destruct x as [|b x'].
  - intros H. exact H.
  - rewrite last_of_run_cons. cbn [select]. intros H.
    apply elem_of_cons in H as [->|H].
    + destruct (Z.eqb_spec (b - a) 0) as [Hd|Hd]; cbn [negb].
      * apply IH. replace a with b by lia. apply elem_of_cons. left.
        reflexivity.
      * apply elem_of_cons. left. reflexivity.
    + destruct (negb (b - a =? 0)); [apply elem_of_cons; right|]; apply IH, H.
Qed.

Lemma select_last_of_run_increasing (x : list Z) :
  Sorted Z.le x -> StronglySorted Z.lt (select (last_of_run x) x).
Proof.
  intros Hs. apply Sorted_StronglySorted in Hs; [|apply _].
  induction Hs as [|a x Hs IH Hall]; [constructor|].
  destruct x as [|b x'].
  - repeat constructor.
  - rewrite last_of_run_cons. cbn [select].
    destruct (Z.eqb_spec (b - a) 0) as [Hd|Hd]; cbn [negb]; [exact IH|].
    constructor; [exact IH|].
    apply Forall_forall. intros t Ht.
    apply (fun H => elem_of_sublist _ _ _ H (select_sublist _ _)) in Ht.
    apply Forall_cons in Hall as [Hab Hall].
    apply elem_of_cons in Ht as [->|Ht]; [lia|].
    apply StronglySorted_inv in Hs as [_ Hb].
    rewrite Forall_forall in Hb. specialize (Hb t Ht). lia.
Qed.

Lemma last_of_run_nodup (x : list Z) :
  x <> [] -> NoDup x -> last_of_run x = repeat true (length x).
Proof.
  intros Hne Hnd. induction x as [|a x IH]; [contradiction|].
  destruct x as [|b x']; [reflexivity|].
  rewrite last_of_run_cons. apply NoDup_cons in Hnd as [Ha Hnd].
  rewrite IH by (discriminate || exact Hnd).
  destruct (Z.eqb_spec (b - a) 0) as [Hd|Hd]; [|reflexivity].
  exfalso. apply Ha. replace a with b by lia. apply elem_of_cons. left.
  reflexivity.
Qed.

Lemma fill_next_all_true {A} (a : list A) :
  fill_next (repeat true (length a)) a = a.
Proof.
  induction a as [|v a IH]; [reflexivity|].
  cbn [length repeat fill_next]. rewrite IH. reflexivity.
Qed.

Lemma select_all_true {A} (a : list A) :
  select (repeat true (length a)) a = a.
Proof.
  induction a as [|v a IH]; [reflexivity|].
  cbn [length repeat select]. rewrite IH. reflexivity.
Qed.

Lemma remove_duplicates_output {V S} (sorted : list (sample V S))
    (z : list S) (mask : list bool) :
  length mask = length sorted -> length z = length sorted ->
  let out :=
    fromarrays (select mask (map timestamp sorted))
      (select mask (map value sorted)) (select mask z) in
  map timestamp out = select mask (map timestamp sorted) /\
  map value out = select mask (map value sorted) /\
  map status out = select mask z.
Proof.
  intros Hm Hz out. subst out. rewrite !select_map.
  apply fromarrays_columns.
  rewrite !length_select by congruence. reflexivity.
Qed.

(** [remove_duplicates] of an empty sensor raises [IndexError].  Of any
    other sensor it either raises [NameError] (the branch that is to log
    differing duplicates) or returns records whose timestamps are strictly
    increasing and are exactly the timestamps of the sensor, no more
    records than the sensor has, with statuses that follow each other in
    the order they have in the sensor. *)
Theorem remove_duplicates_result {V S} `{EqDecision V} `{HasNaN V}
    `{EqDecision S} (sensor : list (sample V S)) :
  (sensor = [] -> remove_duplicates sensor = Throws PyIndexError) /\
  (sensor <> [] ->
   remove_duplicates sensor = Throws PyNameError \/
   exists r,
     remove_duplicates sensor = Returns r /\
     StronglySorted Z.lt (map timestamp r) /\
     (forall t, t ∈ map timestamp r <-> t ∈ map timestamp sensor) /\
     (length r <= length sensor)%nat /\
     sublist (map status r) (map status sensor)).
Proof.
  split; [intros ->; reflexivity|].
  intros Hne.
  destruct (argsort_samples sensor) as (sorted & Hsort & Hperm & Hsorted).
  assert (Hlen : length sorted = length sensor)
    by (apply Permutation_length, Hperm).
  rewrite (remove_duplicates_sorted_form sensor sorted Hne Hsort Hlen).
  match goal with
  | |- context [if ?c then _ else _] => destruct c
  end; [right | left; reflexivity].
  assert (Hx : map timestamp sorted <> []).
  { destruct sorted; [|discriminate].
    destruct sensor; [contradiction | discriminate]. }
  pose proof (length_last_of_run _ Hx) as Hmask. rewrite length_map in Hmask.
  destruct (remove_duplicates_output sorted (map status sensor)
              (last_of_run (map timestamp sorted)) Hmask)
    as (Hts & _ & Hst); [rewrite length_map; congruence|].
  eexists. split; [reflexivity|].
  rewrite Hts, Hst. repeat split.
  - apply select_last_of_run_increasing, Hsorted.
  - intros Ht. rewrite <- Hperm.
    exact (elem_of_sublist _ _ _ Ht (select_sublist _ _)).
  - intros Ht. apply select_last_of_run_elem. rewrite Hperm. exact Ht.
  - rewrite <- (length_map timestamp), Hts.
    etransitivity; [apply sublist_length, select_sublist|].
    rewrite length_map, Hlen. reflexivity.
  - apply select_sublist.
Qed.

Lemma no_nan_values {V S} `{HasNaN V} (l : list (sample V S)) :
  forallb (fun v => negb (isnan v)) (map value l) = no_nan l.
Proof.
  unfold no_nan. induction l as [|a l IH]; [reflexivity|].
  cbn [map forallb]. rewrite IH. reflexivity.
Qed.

Lemma no_nan_permutation {V S} `{HasNaN V} (l l' : list (sample V S)) :
  l ≡ₚ l' -> no_nan l = no_nan l'.
Proof.
  intros Hperm. apply Bool.eq_iff_eq_true. unfold no_nan.
  rewrite !forallb_forall. split; intros Hall a Ha; apply Hall;
    apply list_elem_of_In; apply list_elem_of_In in Ha;
    [rewrite Hperm | rewrite <- Hperm]; exact Ha.
Qed.

(** When all timestamps of the sensor differ and no value is a NaN,
    [remove_duplicates] returns the timestamps with their values in
    increasing order of time, but the statuses in the order of the
    sensor: a sensor that is not in order of time comes back with
    statuses on the wrong records.  A value that is a NaN differs from
    itself, so a sensor with one makes [remove_duplicates] raise the
    [NameError] of the branch for duplicates that differ, though it has
    no duplicates. *)
Theorem remove_duplicates_distinct_timestamps
    {V S} `{EqDecision V} `{HasNaN V} `{EqDecision S}
    (sensor : list (sample V S))
    (Hne : sensor <> [])
    (Hnodup : NoDup (map timestamp sensor)) :
  exists sorted,
    sorted ≡ₚ sensor /\
    StronglySorted Z.lt (map timestamp sorted) /\
    remove_duplicates sensor
    = if no_nan sensor
      then Returns (fromarrays (map timestamp sorted) (map value sorted)
                      (map status sensor))
      else Throws PyNameError.
Proof.
  destruct (argsort_samples sensor) as (sorted & Hsort & Hperm & Hsorted).
  assert (Hlen : length sorted = length sensor)
    by (apply Permutation_length, Hperm).
  exists sorted. split; [exact Hperm|].
  assert (Hx : map timestamp sorted <> []).
  { destruct sorted; [|discriminate].
    destruct sensor; [contradiction | discriminate]. }
  assert (Hnd : NoDup (map timestamp sorted)).
  { change (map timestamp sorted) with (timestamp <$> sorted).
    rewrite Hperm. exact Hnodup. }
  pose proof (last_of_run_nodup _ Hx Hnd) as Hmask.
  split.
  - pose proof (select_last_of_run_increasing _ Hsorted) as Hinc.
    rewrite Hmask, select_all_true in Hinc. exact Hinc.
  - rewrite (remove_duplicates_sorted_form sensor sorted Hne Hsort Hlen).
    rewrite Hmask.
    rewrite (select_all_true (map timestamp sorted)).
    replace (length (map timestamp sorted))
      with (length (map value sorted)) by (rewrite !length_map; reflexivity).
    rewrite fill_next_all_true, select_all_true.
    replace (length (map value sorted))
      with (length (map status sensor)) by (rewrite !length_map; congruence).
    rewrite fill_next_all_true, select_all_true.
    rewrite !bool_decide_eq_true_2 by reflexivity.
    rewrite no_nan_values, (no_nan_permutation sorted sensor Hperm).
    rewrite andb_true_l, andb_true_r. reflexivity.
Qed.

(** ** Timestamps that are already in order *)

Lemma select_keep_last {V S} (l : list (sample V S)) :
  l <> [] -> select (last_of_run (map timestamp l)) l = keep_last l.
Proof.
  intros Hne. induction l as [|a l IH]; [contradiction|].
  destruct l as [|b t]; [reflexivity|].
  cbn [map]. rewrite last_of_run_cons. cbn [select keep_last].
  specialize (IH ltac:(discriminate)). cbn [map] in IH. rewrite IH.
  destruct (timestamp b - timestamp a =? 0); reflexivity.
Qed.

Lemma fill_next_fixed {V S A} (f : sample V S -> A) (l : list (sample V S)) :
  l <> [] ->
  fill_next (last_of_run (map timestamp l)) (map f l) = map f l <->
  neighbours_agree_on f l.
Proof.
  intros Hne. induction l as [|a l IH]; [contradiction|].
  destruct l as [|b t]; [split; [intros; exact I | reflexivity]|].
  specialize (IH ltac:(discriminate)).
  cbn [map]. rewrite last_of_run_cons.
  cbn [fill_next neighbours_agree_on]. cbn [map] in IH.
  split.
  - intros [= Hhd Htl]. split; [|apply IH, Htl].
    intros Hd. rewrite Htl in Hhd.
    apply Z.eqb_eq in Hd. rewrite Hd in Hhd. symmetry. exact Hhd.
  - intros [Hab Hrest]. apply IH in Hrest. rewrite Hrest. f_equal.
    destruct (Z.eqb_spec (timestamp b - timestamp a) 0) as [Hd|Hd];
      [|reflexivity].
    cbn [negb hd]. symmetry. apply Hab, Hd.
Qed.

Lemma agreeing_neighbours_on {V S} `{EqDecision V} `{EqDecision S}
    (l : list (sample V S)) :
  agreeing_neighbours l = true <->
  neighbours_agree_on value l /\ neighbours_agree_on status l.
Proof.
  induction l as [|a l IH]; [split; [intros; split; exact I | reflexivity]|].
  destruct l as [|b t]; [split; [intros; split; exact I | reflexivity]|].
  cbn [agreeing_neighbours neighbours_agree_on].
  rewrite andb_true_iff, IH.
  destruct (Z.eqb_spec (timestamp b - timestamp a) 0) as [Hd|Hd].
  - rewrite andb_true_iff, !bool_decide_eq_true. tauto.
  - split.
    + intros [_ [Hv Hs]]. repeat split; try assumption; intros; contradiction.
    + intros [[_ Hv] [_ Hs]]. repeat split; assumption.
Qed.

Lemma remove_duplicates_check {V S} `{EqDecision V} `{EqDecision S}
    (l : list (sample V S)) :
  l <> [] ->
  bool_decide (fill_next (last_of_run (map timestamp l)) (map value l)
               = map value l)
  && bool_decide (fill_next (last_of_run (map timestamp l)) (map status l)
                  = map status l)
  = agreeing_neighbours l.
Proof.
  intros Hne. apply Bool.eq_iff_eq_true.
  rewrite andb_true_iff, !bool_decide_eq_true, agreeing_neighbours_on.
  rewrite (fill_next_fixed value l Hne), (fill_next_fixed status l Hne).
  reflexivity.
Qed.

Lemma agreeing_head {V S} `{EqDecision V} `{EqDecision S}
    (a : sample V S) (t : list (sample V S)) :
  StronglySorted Z.le (map timestamp (a :: t)) ->
  agreeing_neighbours (a :: t) = true ->
  forall q, q ∈ t -> timestamp q = timestamp a -> q = a.
Proof.
  revert a. induction t as [|b t IH]; intros a Hs Hag q Hq Hts;
    [inversion Hq|].
  cbn [map] in Hs. apply StronglySorted_inv in Hs as [Hs Hall].
  apply Forall_cons in Hall as [Hab Hall].
  cbn [agreeing_neighbours] in Hag. apply andb_true_iff in Hag as [Hhd Hag].
  assert (Hbq : timestamp b <= timestamp q).
  { apply elem_of_cons in Hq as [->|Hq]; [lia|].
    apply StronglySorted_inv in Hs as [_ Hb]. rewrite Forall_forall in Hb.
    apply Hb. change (map timestamp t) with (timestamp <$> t).
    apply list_elem_of_fmap. exists q. split; [reflexivity | exact Hq]. }
  assert (Hd : timestamp b - timestamp a = 0) by lia.
  apply Z.eqb_eq in Hd. rewrite Hd in Hhd.
  apply andb_true_iff in Hhd as [Hv Hst].
  apply bool_decide_eq_true_1 in Hv. apply bool_decide_eq_true_1 in Hst.
  assert (Hba : b = a).
  { apply Z.eqb_eq in Hd. destruct a, b. cbn in *. f_equal; [lia | auto ..]. }
  apply elem_of_cons in Hq as [->|Hq]; [exact Hba|].
  rewrite <- Hba. apply (IH b Hs Hag q Hq). rewrite Hba. exact Hts.
Qed.

Lemma agreeing_neighbours_sorted {V S} `{EqDecision V} `{EqDecision S}
    (l : list (sample V S)) :
  Sorted Z.le (map timestamp l) ->
  agreeing_neighbours l = true <->
  forall a b, a ∈ l -> b ∈ l -> timestamp a = timestamp b -> a = b.
Proof.
  intros Hs. apply Sorted_StronglySorted in Hs; [|apply _].
  split.
  - intros Hag. induction l as [|c l IH]; [intros a b Ha; inversion Ha|].
    assert (Hag' : agreeing_neighbours l = true).
    { destruct l as [|d l']; [reflexivity|].
      cbn [agreeing_neighbours] in Hag.
      apply andb_true_iff in Hag as [_ Hag]. exact Hag. }
    assert (Hs' : StronglySorted Z.le (map timestamp l)).
    { cbn [map] in Hs. apply StronglySorted_inv in Hs as [Hs' _]. exact Hs'. }
    intros a b Ha Hb Hts.
    apply elem_of_cons in Ha as [->|Ha]; apply elem_of_cons in Hb as [->|Hb].
    + reflexivity.
    + symmetry. apply (agreeing_head c l Hs Hag b Hb). symmetry. exact Hts.
    + apply (agreeing_head c l Hs Hag a Ha Hts).
    + apply (IH Hs' Hag' a b Ha Hb Hts).
  - intros Hall. induction l as [|c l IH]; [reflexivity|].
    destruct l as [|d l']; [reflexivity|].
    cbn [agreeing_neighbours]. apply andb_true_iff. split.
    + destruct (Z.eqb_spec (timestamp d - timestamp c) 0) as [Hd|Hd];
        [|reflexivity].
      assert (Hcd : c = d).
      { apply Hall; [set_solver | set_solver | lia]. }
      rewrite Hcd, !bool_decide_eq_true_2 by reflexivity. reflexivity.
    + apply IH.
      * cbn [map] in Hs. apply StronglySorted_inv in Hs as [Hs' _]. exact Hs'.
      * intros a b Ha Hb. apply Hall; apply elem_of_cons; right; assumption.
Qed.

(** On a sensor whose timestamps are in order, [remove_duplicates]
    returns the sensor without every record that is followed by one of the
    same timestamp, provided any two records of the same timestamp are the
    same record and no value is a NaN; when two records of one timestamp
    differ in value or status, or some value is a NaN, it raises
    [NameError] instead of logging a warning. *)
Theorem remove_duplicates_sorted_input
    {V S} `{EqDecision V} `{HasNaN V} `{EqDecision S}
    (sensor : list (sample V S))
    (Hne : sensor <> [])
    (Hsorted : Sorted Z.le (map timestamp sensor)) :
  remove_duplicates sensor
  = (if agreeing_neighbours sensor && no_nan sensor
     then Returns (keep_last sensor)
     else Throws PyNameError) /\
  (agreeing_neighbours sensor = true <->
   forall a b, a ∈ sensor -> b ∈ sensor ->
               timestamp a = timestamp b -> a = b).
Proof.
  split; [|apply agreeing_neighbours_sorted, Hsorted].
  assert (Hsort : take_indices sensor
                    (np_argsort_mergesort (map timestamp sensor))
                  = Returns sensor).
  { apply argsort_sorted; [rewrite length_map; reflexivity | exact Hsorted]. }
  rewrite (remove_duplicates_sorted_form sensor sensor Hne Hsort eq_refl).
  rewrite <- (remove_duplicates_check sensor Hne), no_nan_values.
  match goal with
  | |- (if ?a && ?n && ?c then _ else _) = _ =>
      replace (a && n && c) with (a && c && n)
        by (destruct a, n, c; reflexivity)
  end.
  match goal with
  | |- context [if ?c then _ else _] => destruct c
  end; [|reflexivity].
  rewrite !select_map, (select_keep_last sensor Hne), fromarrays_samples.
  reflexivity.
Qed.

Lemma remove_duplicates_distinct_timestamps_witness :
  NoDup (map timestamp sensor_out_of_order) /\
  (exists sorted,
      sorted ≡ₚ sensor_out_of_order /\
      StronglySorted Z.lt (map timestamp sorted) /\
      remove_duplicates sensor_out_of_order
      = Returns (fromarrays (map timestamp sorted) (map value sorted)
                   ["error"; "nominal"])) /\
  NoDup (map timestamp sensor_with_nan) /\
  remove_duplicates sensor_with_nan = Throws PyNameError.
Proof.
  assert (Hnodup : NoDup (map timestamp sensor_out_of_order)).
  { apply (bool_decide_unpack _). vm_compute. exact I. }
  assert (Hnodup' : NoDup (map timestamp sensor_with_nan)).
  { apply (bool_decide_unpack _). vm_compute. exact I. }
  split; [exact Hnodup|]. split; [|split; [exact Hnodup'|]].
  - destruct (remove_duplicates_distinct_timestamps sensor_out_of_order)
      as (sorted & Hperm & Hinc & Hret); [discriminate | exact Hnodup|].
    exists sorted. split; [exact Hperm|]. split; [exact Hinc | exact Hret].
  - destruct (remove_duplicates_distinct_timestamps sensor_with_nan)
      as (sorted & _ & _ & Hraise); [discriminate | exact Hnodup'|].
    exact Hraise.
Defined.

Lemma remove_duplicates_sorted_input_witness :
  remove_duplicates sensor_with_repeat
  = Returns [reading 1 10 "nominal"; reading 2 20 "warn";
             reading 3 30 "nominal"] /\
  remove_duplicates sensor_with_nan = Throws PyNameError.
Proof.
  split.
  - assert (Hne : sensor_with_repeat <> []) by discriminate.
    assert (Hsorted : Sorted Z.le (map timestamp sensor_with_repeat)).
    { cbn. repeat constructor; lia. }
    exact (proj1 (remove_duplicates_sorted_input sensor_with_repeat
                    Hne Hsorted)).
  - assert (Hne : sensor_with_nan <> []) by discriminate.
    assert (Hsorted : Sorted Z.le (map timestamp sensor_with_nan)).
    { cbn. repeat constructor; lia. }
    exact (proj1 (remove_duplicates_sorted_input sensor_with_nan
                    Hne Hsorted)).
Defined.

(** * The HDF5 factory *)

Lemma str_split_head (sep : ascii) (v rest : string) :
  exists ws, str_split sep (v +:+ String sep rest) = up_to sep v :: ws.
Proof.
  induction v as [|c v IH].
  - exists (str_split sep rest). change ("" +:+ String sep rest)
      with (String sep rest). cbn [str_split up_to].
    rewrite Ascii.eqb_refl. reflexivity.
  - rewrite append_cons. cbn [str_split up_to].
    destruct (Ascii.eqb c sep); [eauto|].
    destruct IH as [ws ->]. eauto.
Qed.

Lemma str_split_before (sep : ascii) (p t : string) :
  contains sep p = false ->
  str_split sep (p +:+ String sep t) = p :: str_split sep t.
Proof.
  induction p as [|c p IH]; intros Hp.
  - change ("" +:+ String sep t) with (String sep t). cbn [str_split].
    rewrite Ascii.eqb_refl. reflexivity.
  - cbn [contains] in Hp. apply orb_false_iff in Hp as [Hc Hp].
    rewrite append_cons. cbn [str_split]. rewrite Hc, (IH Hp). reflexivity.
Qed.

Lemma str_split_second (sep : ascii) (p v rest : string) :
  contains sep p = false ->
  str_split sep (p +:+ String sep (v +:+ String sep rest)) !! 1%nat
  = Some (up_to sep v).
Proof.
  intros Hp. rewrite (str_split_before _ _ _ Hp).
  destruct (str_split_head sep v rest) as [ws ->]. reflexivity.
Qed.

Lemma up_to_without (sep : ascii) (s : string) :
  contains sep s = false -> up_to sep s = s.
Proof.
  induction s as [|c s IH]; [reflexivity|].
  cbn [contains up_to]. intros [Hc Hs]%orb_false_iff.
  rewrite Hc, (IH Hs). reflexivity.
Qed.

Lemma loader_message_version (v : string) :
  str_split apostrophe
    ("Attempting to load version '" +:+ v +:+ "' file with version 1 loader")
    !! 1%nat
  = Some (up_to apostrophe v).
Proof.
  exact (str_split_second apostrophe "Attempting to load version " v
           " file with version 1 loader" eq_refl).
Qed.

(** When the version of a file starts with neither [2.] nor [1.],
    [h5_data] raises [WrongH5Version] with the message
    [Unknown HDF5 version '...'], whatever the rest of the loaders would
    do.  The version it names is the version of the file up to its first
    apostrophe: all of it when it has no apostrophe. *)
Theorem h5_data_unknown_version {A} (f : h5_group string)
    (load_v2 load_v1 : h5_group string -> outcome A)
    (Hv2 : startswith (file_version f) "2." = false)
    (Hv1 : startswith (file_version f) "1." = false) :
  h5_data (Returns tt) (Returns f) load_v2 load_v1
  = Throws (WrongH5Version
              ("Unknown HDF5 version '"
               +:+ up_to apostrophe (file_version f) +:+ "'")) /\
  (contains apostrophe (file_version f) = false ->
   up_to apostrophe (file_version f) = file_version f).
Proof.
  split; [|apply up_to_without].
  unfold h5_data, H5DataV2_init, H5DataV1_init, and_then.
  fold (file_version f). rewrite Hv2, Hv1. cbn [negb].
  replace (startswith _ "Attempting to load") with true by reflexivity.
  rewrite loader_message_version. reflexivity.
Qed.

Lemma h5_data_unknown_version_witness :
  h5_data (Returns tt) (Returns (file_of_version "3.0"))
    (loaded_as "H5DataV2") (loaded_as "H5DataV1")
  = Throws (WrongH5Version "Unknown HDF5 version '3.0'") /\
  h5_data (Returns tt) (Returns (file_of_version "3'0"))
    (loaded_as "H5DataV2") (loaded_as "H5DataV1")
  = Throws (WrongH5Version "Unknown HDF5 version '3'").
Proof.
  split.
  - exact (proj1 (h5_data_unknown_version (file_of_version "3.0")
                    (loaded_as "H5DataV2") (loaded_as "H5DataV1")
                    eq_refl eq_refl)).
  - exact (proj1 (h5_data_unknown_version (file_of_version "3'0")
                    (loaded_as "H5DataV2") (loaded_as "H5DataV1")
                    eq_refl eq_refl)).
Defined.

(** [h5_data] on a file that opens, when the rest of the two loaders
    raises no [WrongH5Version]: a version that starts with [2.] gives what
    the version 2 loader gives, also its [ValueError] for a file that is
    not augmented, and the version 1 loader is not tried; any other version
    that starts with [1.], and a file without version, gives what the
    version 1 loader gives. *)
Theorem h5_data_known_version {A} (f : h5_group string)
    (load_v2 load_v1 : h5_group string -> outcome A)
    (Hload_v2 : raises_WrongH5Version (load_v2 f) = false)
    (Hload_v1 : raises_WrongH5Version (load_v1 f) = false) :
  (startswith (file_version f) "2." = true ->
   h5_data (Returns tt) (Returns f) load_v2 load_v1
   = if bool_decide (is_Some (attrs f !! "augment_ts")) then load_v2 f
     else Throws PyValueError) /\
  (startswith (file_version f) "2." = false ->
   startswith (file_version f) "1." = true ->
   h5_data (Returns tt) (Returns f) load_v2 load_v1
   = if bool_decide (is_Some (attrs f !! "augment")) then load_v1 f
     else Throws PyValueError) /\
  (attrs f !! "version" = None ->
   h5_data (Returns tt) (Returns f) load_v2 load_v1
   = if bool_decide (is_Some (attrs f !! "augment")) then load_v1 f
     else Throws PyValueError).
Proof.
  assert (Hcase2 : startswith (file_version f) "2." = false ->
                   startswith (file_version f) "1." = true ->
                   h5_data (Returns tt) (Returns f) load_v2 load_v1
                   = if bool_decide (is_Some (attrs f !! "augment"))
                     then load_v1 f else Throws PyValueError).
  { intros H2 H1. unfold h5_data, H5DataV2_init, H5DataV1_init, and_then.
    fold (file_version f). rewrite H2, H1. cbn [negb].
    destruct (bool_decide (is_Some (attrs f !! "augment"))); cbn [negb];
      [|reflexivity].
    destruct (load_v1 f) as [a|[]]; try reflexivity. discriminate. }
  split; [|split; [exact Hcase2|]].
  - intros H2. unfold h5_data, H5DataV2_init, and_then.
    fold (file_version f). rewrite H2. cbn [negb].
    destruct (bool_decide (is_Some (attrs f !! "augment_ts"))); cbn [negb];
      [|reflexivity].
    destruct (load_v2 f) as [a|[]]; try reflexivity. discriminate.
  - intros Hnone. apply Hcase2; unfold file_version; rewrite Hnone;
      reflexivity.
Qed.

Lemma h5_data_known_version_witness :
  h5_data (Returns tt) (Returns (augmented_file "2.0" "augment_ts"))
    (loaded_as "H5DataV2") (loaded_as "H5DataV1")
  = Returns ("H5DataV2", "2.0") /\
  h5_data (Returns tt) (Returns (augmented_file "1.1" "augment"))
    (loaded_as "H5DataV2") (loaded_as "H5DataV1")
  = Returns ("H5DataV1", "1.1") /\
  h5_data (Returns tt) (Returns (file_of_version "2.0"))
    (loaded_as "H5DataV2") (loaded_as "H5DataV1")
  = Throws PyValueError.
Proof.
  split; [|split].
  - exact (proj1 (h5_data_known_version (augmented_file "2.0" "augment_ts")
                    (loaded_as "H5DataV2") (loaded_as "H5DataV1")
                    eq_refl eq_refl) eq_refl).
  - exact (proj1 (proj2 (h5_data_known_version
                           (augmented_file "1.1" "augment")
                           (loaded_as "H5DataV2") (loaded_as "H5DataV1")
                           eq_refl eq_refl)) eq_refl eq_refl).
  - exact (proj1 (h5_data_known_version (file_of_version "2.0")
                    (loaded_as "H5DataV2") (loaded_as "H5DataV1")
                    eq_refl eq_refl) eq_refl).
Defined.

(** * katdal/datasources.py *)

(** ** The name of a data source *)

Lemma prefix_append (p s : string) : String.prefix p (p +:+ s) = true.
Proof.
  induction p as [|c p IH]; [destruct s; reflexivity|].
  rewrite append_cons. cbn [String.prefix].
  destruct (ascii_dec c c); [exact IH | congruence].
Qed.

Lemma prefix_refl (p : string) : String.prefix p p = true.
Proof.
  induction p as [|c p IH]; [reflexivity|].
  cbn [String.prefix]. destruct (ascii_dec c c); [exact IH | congruence].
Qed.

Lemma append_nonempty_neq (p s : string) :
  s <> EmptyString -> p +:+ s <> p.
Proof.
  intros Hs Heq. apply (f_equal String.length) in Heq.
  rewrite length_append in Heq. destruct s; [congruence|].
  cbn [String.length] in Heq. lia.
Qed.

(** The name of a data source starts with the name of its metadata, and
    is that name exactly when the source has no data or its data goes by
    the same name. *)
Theorem data_source_name (self : DataSource.t) :
  startswith (DataSource.name self) (DataSource.metadata_name self) = true /\
  (DataSource.name self = DataSource.metadata_name self <->
   forall d, DataSource.data self = Some d ->
             VisFlagsWeights.name d = DataSource.metadata_name self).
Proof.
  unfold DataSource.name, startswith.
  destruct (DataSource.data self) as [d|].
  - destruct (String.eqb_spec (VisFlagsWeights.name d)
                (DataSource.metadata_name self)) as [Heq|Hne]; cbn [negb].
    + split; [apply prefix_refl|].
      split; [intros _ ? [= <-]; exact Heq | reflexivity].
    + split; [apply prefix_append|].
      split.
      * intros Heq. exfalso. revert Heq. apply append_nonempty_neq.
        discriminate.
      * intros H. destruct Hne. apply H. reflexivity.
  - split; [apply prefix_refl|]. split; [discriminate | reflexivity].
Qed.

(** ** The keywords of a URL *)

Lemma foldl_insert_lookup (pairs : list (string * string))
    (m : gmap string string) (k : string) :
  foldl (fun m kv => <[kv.1 := kv.2]> m) m pairs !! k
  = match last_value k pairs with
    | Some v => Some v
    | None => m !! k
    end.
Proof.
  revert m. induction pairs as [|[k' v'] pairs IH]; intros m; [reflexivity|].
  cbn [foldl last_value]. rewrite IH.
  destruct (last_value k pairs); [reflexivity|]. cbn [fst snd].
  destruct (String.eqb_spec k' k) as [->|Hne].
  - apply lookup_insert_eq.
  - rewrite lookup_insert_ne by exact Hne. reflexivity.
Qed.

Lemma dict_lookup (pairs : list (string * string)) (k : string) :
  dict pairs !! k = last_value k pairs.
Proof.
  unfold dict. rewrite foldl_insert_lookup.
  destruct (last_value k pairs); [reflexivity | apply lookup_empty].
Qed.

Lemma last_value_is_Some (pairs : list (string * string)) (k : string) :
  is_Some (last_value k pairs) <-> k ∈ pairs.*1.
Proof.
  induction pairs as [|[k' v'] pairs IH].
  - cbn. split; [intros [? [=]] | intros H; inversion H].
  - cbn [last_value fmap list_fmap fst]. rewrite elem_of_cons, <- IH.
    destruct (last_value k pairs) as [v|].
    + split; [right|]; eauto.
    + destruct (String.eqb_spec k' k) as [->|Hne].
      * split; eauto.
      * split; [intros [? [=]]|]. intros [->|[? [=]]]. congruence.
Qed.

(** The keywords a URL leaves for the constructor, by key. *)
Lemma url_kwargs_lookup (pairs : list (string * string))
    (source_name k : string) :
  (<["source_name" := source_name]> (delete "db" (dict pairs))) !! k
  = if String.eqb k "source_name" then Some source_name
    else if String.eqb k "db" then None
    else last_value k pairs.
Proof.
  destruct (String.eqb_spec k "source_name") as [->|Hs].
  - apply lookup_insert_eq.
  - rewrite lookup_insert_ne by congruence.
    destruct (String.eqb_spec k "db") as [->|Hd].
    + apply lookup_delete_eq.
    + rewrite lookup_delete_ne by congruence. apply dict_lookup.
Qed.

Lemma elem_of_init_keywords (k : string) :
  k ∈ init_keywords <->
  k = "capture_block_id" \/ k = "stream_name" \/ k = "source_name".
Proof.
  unfold init_keywords. rewrite !elem_of_union, !elem_of_singleton. tauto.
Qed.

Lemma elem_of_url_keywords (k : string) :
  k ∈ url_keywords <-> k = "db" \/ k ∈ init_keywords.
Proof.
  rewrite elem_of_init_keywords. unfold url_keywords.
  rewrite !elem_of_cons, elem_of_nil. tauto.
Qed.

Lemma url_kwargs_accepted (pairs : list (string * string))
    (source_name : string) :
  bool_decide
    (dom (<["source_name" := source_name]> (delete "db" (dict pairs)))
     ⊆ init_keywords)
  = known_keys pairs.
Proof.
  apply eq_true_iff_eq. rewrite bool_decide_eq_true.
  unfold known_keys. rewrite forallb_forall.
  split.
  - intros Hsub [k v] Hin. apply bool_decide_eq_true. cbn [fst].
    apply elem_of_url_keywords.
    destruct (String.eqb_spec k "db") as [->|Hd]; [left; reflexivity|].
    right. apply Hsub, elem_of_dom. rewrite url_kwargs_lookup.
    destruct (String.eqb k "source_name"); [eauto|].
    destruct (String.eqb_spec k "db"); [congruence|].
    apply last_value_is_Some. apply list_elem_of_fmap.
    exists (k, v). split; [reflexivity|].
    apply list_elem_of_In. exact Hin.
  - intros Hall k [v Hk]%elem_of_dom. rewrite url_kwargs_lookup in Hk.
    destruct (String.eqb_spec k "source_name") as [->|Hs];
      [apply elem_of_init_keywords; auto|].
    destruct (String.eqb_spec k "db") as [->|Hd]; [discriminate|].
    assert (Hin : k ∈ pairs.*1) by (apply last_value_is_Some; eauto).
    apply list_elem_of_fmap in Hin as ([k' v'] & -> & Hin).
    apply list_elem_of_In, Hall, bool_decide_eq_true in Hin.
    cbn [fst] in *. apply elem_of_url_keywords in Hin as [?|?];
      [congruence | assumption].
Qed.

Lemma from_url_with_telstate {T D} (env : services T D) (url : string)
    (n : Z) (telstate : T) :
  url_db env url = Some n ->
  (scheme (urlparse env url) = "file" /\
   load_from_file env (path (urlparse env url)) = Returns telstate) \/
  (scheme (urlparse env url) = "redis" /\
   TelescopeState env (netloc (urlparse env url)) n = Returns telstate) ->
  from_url env url
  = let* d :=
      TelstateDataSource env telstate
        (<["source_name" := geturl (urlparse env url)]>
           (delete "db" (dict (url_pairs env url)))) in
    Returns (Some d).
Proof.
  intros Hdb Hstate. unfold from_url. fold (url_pairs env url).
  rewrite dict_lookup. fold (url_db env url). rewrite Hdb.
  cbn [and_then].
  destruct Hstate as [[-> ->]|[-> ->]]; reflexivity.
Qed.

(** When the telescope state of a URL is obtained, [from_url] raises
    [TypeError] for a query with a key other than [db],
    [capture_block_id], [stream_name] and [source_name]; otherwise it
    constructs the data source from that state, the last
    [capture_block_id] and the last [stream_name] of the query, and, as
    its source name, the text that [geturl] gives for the parsed URL (a
    path without scheme comes back with [file://] in front): a
    [source_name] in the query is never used, and [db] is not passed
    on. *)
Theorem from_url_keywords {T D} (env : services T D) (url : string)
    (n : Z) (telstate : T)
    (Hdb : url_db env url = Some n)
    (Hstate :
       (scheme (urlparse env url) = "file" /\
        load_from_file env (path (urlparse env url)) = Returns telstate) \/
       (scheme (urlparse env url) = "redis" /\
        TelescopeState env (netloc (urlparse env url)) n
        = Returns telstate)) :
  from_url env url
  = if known_keys (url_pairs env url) then
      let* d :=
        construct env telstate
          (last_value "capture_block_id" (url_pairs env url))
          (last_value "stream_name" (url_pairs env url))
          (geturl (urlparse env url)) in
      Returns (Some d)
    else Throws PyTypeError.
Proof.
  rewrite (from_url_with_telstate env url n telstate Hdb Hstate).
  unfold TelstateDataSource. rewrite url_kwargs_accepted.
  destruct (known_keys (url_pairs env url)); [|reflexivity].
  rewrite !url_kwargs_lookup. reflexivity.
Qed.

Lemma from_url_keywords_witness :
  url_db empty_world "/dump.rdb?stream_name=a&source_name=b&stream_name=c"
  = Some 0 /\
  from_url empty_world "/dump.rdb?stream_name=a&source_name=b&stream_name=c"
  = Returns
      (Some (None, Some "c",
             "file:///dump.rdb?stream_name=a&source_name=b&stream_name=c")).
Proof.
  split; [reflexivity|].
  exact (from_url_keywords empty_world
           "/dump.rdb?stream_name=a&source_name=b&stream_name=c" 0 tt
           eq_refl (or_introl (conj eq_refl eq_refl))).
Defined.

(** ** Sources that cannot be reached *)

Lemma from_url_db {T D} (env : services T D) (url : string) (n : Z) :
  url_db env url = Some n ->
  from_url env url
  = let kwargs :=
      <["source_name" := geturl (urlparse env url)]>
        (delete "db" (dict (url_pairs env url))) in
    if String.eqb (scheme (urlparse env url)) "file" then
      let* telstate :=
        match load_from_file env (path (urlparse env url)) with
        | Throws (PyOSError err) => Throws (DataSourceNotFound err)
        | o => o
        end in
      let* d := TelstateDataSource env telstate kwargs in
      Returns (Some d)
    else if String.eqb (scheme (urlparse env url)) "redis" then
      let* telstate :=
        match TelescopeState env (netloc (urlparse env url)) n with
        | Throws (RedisConnectionError e) => Throws (DataSourceNotFound e)
        | Throws (RedisTimeoutError e) => Throws (DataSourceNotFound e)
        | o => o
        end in
      let* d := TelstateDataSource env telstate kwargs in
      Returns (Some d)
    else Returns None.
Proof.
  intros Hdb. unfold from_url. fold (url_pairs env url).
  rewrite dict_lookup. fold (url_db env url). rewrite Hdb. reflexivity.
Qed.

(** When the Redis server of a URL refuses the connection or times out,
    [from_url] raises [DataSourceNotFound] with the message of that error,
    and [open_data_source] raises nothing: it returns [None]. *)
Theorem open_data_source_server_failure {T D} (env : services T D)
    (url : string) (n : Z) (e : string)
    (Hscheme : scheme (urlparse env url) = "redis")
    (Hdb : url_db env url = Some n)
    (Hfail :
       TelescopeState env (netloc (urlparse env url)) n
       = Throws (RedisConnectionError e) \/
       TelescopeState env (netloc (urlparse env url)) n
       = Throws (RedisTimeoutError e)) :
  from_url env url = Throws (DataSourceNotFound e) /\
  open_data_source env url = Returns None.
Proof.
  assert (Hfrom : from_url env url = Throws (DataSourceNotFound e)).
  { rewrite (from_url_db env url n Hdb), Hscheme. cbn [String.eqb].
    destruct Hfail as [-> | ->]; reflexivity. }
  split; [exact Hfrom|].
  unfold open_data_source. rewrite Hfrom, Hscheme. reflexivity.
Qed.

Lemma open_data_source_server_failure_witness :
  from_url empty_world "redis://localhost:6379?db=1"
  = Throws (DataSourceNotFound "Connection refused") /\
  open_data_source empty_world "redis://localhost:6379?db=1" = Returns None.
Proof.
  exact (open_data_source_server_failure empty_world
           "redis://localhost:6379?db=1" 1 "Connection refused"
           eq_refl eq_refl (or_introl eq_refl)).
Defined.

(** When loading the file of a URL raises [OSError], [open_data_source]
    raises [DataSourceNotFound] with the hint about the URL scheme added
    to the message if the path is no file, and returns [None] if the path
    is a file.  Any other exception of the load, an [IOError] for one,
    leaves [open_data_source] as it is. *)
Theorem open_data_source_file_failure {T D} (env : services T D)
    (url : string) (n : Z) (e : py_exn)
    (Hscheme : scheme (urlparse env url) = "file")
    (Hdb : url_db env url = Some n)
    (Hfail : load_from_file env (path (urlparse env url)) = Throws e) :
  open_data_source env url
  = match e with
    | PyOSError err =>
        if isfile env (path (urlparse env url)) then Returns None
        else Throws (DataSourceNotFound
                       (err +:+ scheme_hint env (path (urlparse env url))))
    | DataSourceNotFound err =>
        if isfile env (path (urlparse env url)) then Returns None
        else Throws (DataSourceNotFound
                       (err +:+ scheme_hint env (path (urlparse env url))))
    | _ => Throws e
    end.
Proof.
  unfold open_data_source.
  rewrite (from_url_db env url n Hdb), Hscheme, Hfail. cbn [String.eqb].
  destruct e; cbn [and_then]; try reflexivity;
    cbn [String.eqb andb]; destruct (isfile env _); reflexivity.
Qed.

Lemma open_data_source_file_failure_witness :
  open_data_source empty_world "10.0.0.1"
  = Throws (DataSourceNotFound
              "[Errno 2] No such file or directory (add a URL scheme if '10.0.0.1' is not meant to be a file)").
Proof.
  exact (open_data_source_file_failure empty_world "10.0.0.1" 0
           (PyOSError "[Errno 2] No such file or directory")
           eq_refl eq_refl eq_refl).
Defined.

(** [open_data_source] raises [DataSourceNotFound] for no URL but one
    of scheme [file] whose path is no file, and then the message is the
    message of [from_url] with the hint about the URL scheme. *)
Theorem open_data_source_not_found {T D} (env : services T D)
    (url message : string)
    (Hraises : open_data_source env url
               = Throws (DataSourceNotFound message)) :
  scheme (urlparse env url) = "file" /\
  isfile env (path (urlparse env url)) = false /\
  exists err,
    from_url env url = Throws (DataSourceNotFound err) /\
    message = err +:+ scheme_hint env (path (urlparse env url)).
Proof.
  unfold open_data_source in Hraises.
  destruct (from_url env url) as [r|e]; [discriminate|].
  destruct e; try discriminate.
  destruct (String.eqb_spec (scheme (urlparse env url)) "file")
    as [Hs|Hs]; cbn [andb] in Hraises; [|discriminate].
  destruct (isfile env (path (urlparse env url))); cbn [negb] in Hraises;
    [discriminate|].
  injection Hraises as <-. eauto.
Qed.

Lemma open_data_source_not_found_witness :
  scheme (urlparse empty_world "10.0.0.1") = "file" /\
  isfile empty_world (path (urlparse empty_world "10.0.0.1")) = false /\
  exists err,
    from_url empty_world "10.0.0.1" = Throws (DataSourceNotFound err) /\
    "[Errno 2] No such file or directory (add a URL scheme if '10.0.0.1' is not meant to be a file)"
    = err +:+ scheme_hint empty_world (path (urlparse empty_world "10.0.0.1")).
Proof.
  exact (open_data_source_not_found empty_world "10.0.0.1" _ eq_refl).
Defined.

(** For a URL of a scheme other than [file] and [redis], [from_url] and
    [open_data_source] return [None] without loading or connecting to
    anything, unless the [db] of the query is no integer, which is a
    [ValueError]. *)
Theorem from_url_other_scheme {T D} (env : services T D) (url : string)
    (Hfile : scheme (urlparse env url) <> "file")
    (Hredis : scheme (urlparse env url) <> "redis") :
  from_url env url
  = match url_db env url with
    | Some _ => Returns None
    | None => Throws PyValueError
    end /\
  open_data_source env url = from_url env url.
Proof.
  assert (Hfrom : from_url env url
                  = match url_db env url with
                    | Some _ => Returns None
                    | None => Throws PyValueError
                    end).
  { destruct (url_db env url) as [n|] eqn:Hdb.
    - rewrite (from_url_db env url n Hdb).
      destruct (String.eqb_spec (scheme (urlparse env url)) "file");
        [contradiction|].
      destruct (String.eqb_spec (scheme (urlparse env url)) "redis");
        [contradiction|]. reflexivity.
    - unfold from_url. fold (url_pairs env url).
      rewrite dict_lookup. fold (url_db env url). rewrite Hdb.
      reflexivity. }
  split; [exact Hfrom|].
  unfold open_data_source. rewrite Hfrom.
  destruct (url_db env url); reflexivity.
Qed.

Lemma from_url_other_scheme_witness :
  from_url empty_world "ftp://host/dump.rdb" = Returns None /\
  open_data_source empty_world "ftp://host/dump.rdb" = Returns None.
Proof.
  assert (Hfile : scheme (urlparse empty_world "ftp://host/dump.rdb")
                  <> "file") by discriminate.
  assert (Hredis : scheme (urlparse empty_world "ftp://host/dump.rdb")
                   <> "redis") by discriminate.
  destruct (from_url_other_scheme empty_world "ftp://host/dump.rdb"
              Hfile Hredis) as (Hfrom & Hopen).
  split; [exact Hfrom | rewrite Hopen; exact Hfrom].
Defined.

(** * The scans of a version 2 file *)

(** ** The indices at which the state changes *)

Lemma filter_seq_nonzero (P : nat -> bool) (n k : nat) :
  List.filter P (seq k n) = nonzero_from k (map P (seq k n)).
Proof.
  revert k. induction n as [|n IH]; intros k; [reflexivity|].
  cbn [seq List.filter map nonzero_from]. rewrite IH.
  destruct (P k); reflexivity.
Qed.

Lemma change_mask_seq (pre : list string) (prev : string)
    (rest : list string) :
  map (fun n => (n =? 0)%nat
                || negb (String.eqb (nth n (pre ++ prev :: rest) "")
                           (nth (n - 1) (pre ++ prev :: rest) "")))
    (seq (S (length pre)) (length rest))
  = change_mask prev rest.
Proof.
  revert pre prev. induction rest as [|x rest IH]; intros pre prev;
    [reflexivity|].
  cbn [length seq map change_mask]. f_equal.
  - cbn [Nat.eqb orb]. f_equal. f_equal.
    + change (pre ++ prev :: x :: rest) with (pre ++ [prev] ++ x :: rest).
      rewrite app_assoc.
      rewrite app_nth2 by (rewrite length_app; cbn; lia).
      rewrite length_app. cbn [length].
      replace (S (length pre) - (length pre + 1))%nat with 0%nat by lia.
      reflexivity.
    + rewrite app_nth2 by lia.
      replace (S (length pre) - 1 - length pre)%nat with 0%nat by lia.
      reflexivity.
  - specialize (IH (pre ++ [prev]) x).
    rewrite length_app in IH. cbn [length] in IH.
    replace (length pre + 1)%nat with (S (length pre)) in IH by lia.
    rewrite <- app_assoc in IH. exact IH.
Qed.

Lemma state_changes_mask (s : string) (rest : list string) :
  state_changes (s :: rest) = nonzero (true :: change_mask s rest).
Proof.
  unfold state_changes, nonzero. rewrite filter_seq_nonzero. f_equal.
  cbn [length seq map]. f_equal.
  exact (change_mask_seq [] s rest).
Qed.

Lemma length_change_mask (prev : string) (l : list string) :
  length (change_mask prev l) = length l.
Proof.
  revert prev. induction l as [|x l IH]; intros prev; [reflexivity|].
  cbn [change_mask length]. rewrite IH. reflexivity.
Qed.

Lemma select_change_mask (prev : string) (l : list string) :
  select (change_mask prev l) l = collapse_after prev l.
Proof.
  revert prev. induction l as [|x l IH]; intros prev; [reflexivity|].
  cbn [change_mask select collapse_after]. rewrite IH.
  destruct (String.eqb x prev); reflexivity.
Qed.

Lemma take_indices_changes {A} (a : list A) (s : string)
    (rest : list string) :
  length a = S (length rest) ->
  take_indices a (state_changes (s :: rest))
  = Returns (select (true :: change_mask s rest) a).
Proof.
  intros Hlen. rewrite state_changes_mask. unfold nonzero.
  rewrite (nonzero_select a _ 0); [rewrite drop_0; reflexivity|].
  rewrite drop_0. cbn [length]. rewrite length_change_mask. lia.
Qed.

(** The tables of a sensor that is not empty. *)
Lemma partition_into_scans_tables {S} (dump_endtimes : list Z)
    (activity_sensor : list (sample string S)) :
  activity_sensor <> [] ->
  partition_into_scans dump_endtimes activity_sensor
  = Returns
      {| _scan_states :=
           collapse_runs (map (fun s => simplify (value s)) activity_sensor);
         _scan_starts :=
           map (searchsorted dump_endtimes)
             (state_change_times activity_sensor);
         _scan_ends :=
           map (fun s => s - 1)
             (tail (map (searchsorted dump_endtimes)
                      (state_change_times activity_sensor)))
           ++ [Z.of_nat (length dump_endtimes) - 1] |}.
Proof.
  intros Hne. unfold partition_into_scans, state_change_times.
  destruct activity_sensor as [|a sensor]; [congruence|].
  cbn [map]. set (s := simplify (value a)).
  set (rest := map (fun s => simplify (value s)) sensor).
  rewrite (take_indices_changes (s :: rest) s rest) by reflexivity.
  cbn [and_then].
  rewrite (take_indices_changes (timestamp a :: map timestamp sensor) s rest)
    by (cbn [length]; unfold rest; rewrite !length_map; reflexivity).
  cbn [and_then]. do 2 f_equal.
  cbn [select collapse_runs]. rewrite select_change_mask. reflexivity.
Qed.

(** ** The states of the scans *)

Lemma adjacent_differ_collapse (prev : string) (l : list string) :
  adjacent_differ (prev :: collapse_after prev l).
Proof.
  revert prev. induction l as [|x l IH]; intros prev; [exact I|].
  cbn [collapse_after].
  destruct (String.eqb_spec x prev) as [->|Hne]; [apply IH|].
  split; [congruence | apply IH].
Qed.

Lemma Forall_collapse_after (P : string -> Prop) (prev : string)
    (l : list string) :
  Forall P l -> Forall P (collapse_after prev l).
Proof.
  revert prev. induction l as [|x l IH]; intros prev Hl; [constructor|].
  inversion Hl as [|? ? Hx Hl']; subst. cbn [collapse_after].
  destruct (String.eqb x prev); [apply IH, Hl'|].
  constructor; [exact Hx | apply IH, Hl'].
Qed.

Lemma simplify_states (act : string) :
  simplify act ∈ ["scan"; "track"; "slew"; "stop"].
Proof.
  unfold simplify.
  repeat match goal with
         | |- context [String.eqb ?a ?b] => destruct (String.eqb a b)
         end;
    rewrite !elem_of_cons; auto 6.
Qed.

Lemma length_state_change_times {S}
    (activity_sensor : list (sample string S)) :
  length (state_change_times activity_sensor)
  = length (collapse_runs
              (map (fun s => simplify (value s)) activity_sensor)).
Proof.
  unfold state_change_times.
  destruct activity_sensor as [|a sensor]; [reflexivity|].
  cbn [map collapse_runs]. rewrite <- select_change_mask.
  change (simplify (value a)
          :: select (change_mask (simplify (value a))
                      (map (fun s => simplify (value s)) sensor))
               (map (fun s => simplify (value s)) sensor))
    with (select (true :: change_mask (simplify (value a))
                            (map (fun s => simplify (value s)) sensor))
            (simplify (value a)
             :: map (fun s => simplify (value s)) sensor)).
  rewrite !length_select; [reflexivity | |];
    cbn [length]; rewrite length_change_mask, !length_map; reflexivity.
Qed.

Lemma partition_into_scans_lengths {St} (dump_endtimes : list Z)
    (activity_sensor : list (sample string St)) (st : scan_tables) :
  activity_sensor <> [] ->
  partition_into_scans dump_endtimes activity_sensor = Returns st ->
  _scan_states st <> [] /\
  length (_scan_starts st) = length (_scan_states st) /\
  length (_scan_ends st) = length (_scan_states st).
Proof.
  intros Hne Hst.
  rewrite (partition_into_scans_tables _ _ Hne) in Hst.
  injection Hst as <-. cbn [_scan_states _scan_starts _scan_ends].
  assert (Hlen := length_state_change_times activity_sensor).
  destruct activity_sensor as [|a sensor]; [congruence|].
  cbn [map collapse_runs] in *.
  split; [discriminate|]. split.
  - rewrite length_map. exact Hlen.
  - rewrite length_app, length_map. cbn [length] in *.
    destruct (state_change_times (a :: sensor)); cbn [length] in *;
      [discriminate|].
    cbn [map tail]. rewrite length_map. lia.
Qed.

(** The states of the scans are the activities of the sensor, each
    simplified to one of [scan], [track], [slew] and [stop], without the
    ones that repeat the state before them: two scans that follow each
    other differ in state, and there are as many starts and ends as
    states. *)
Theorem scan_states_collapse_activities {S} (dump_endtimes : list Z)
    (activity_sensor : list (sample string S))
    (Hne : activity_sensor <> []) :
  exists tables,
    partition_into_scans dump_endtimes activity_sensor = Returns tables /\
    _scan_states tables
    = collapse_runs (map (fun s => simplify (value s)) activity_sensor) /\
    adjacent_differ (_scan_states tables) /\
    Forall (fun s => s ∈ ["scan"; "track"; "slew"; "stop"])
      (_scan_states tables) /\
    _scan_states tables <> [] /\
    length (_scan_starts tables) = length (_scan_states tables) /\
    length (_scan_ends tables) = length (_scan_states tables).
Proof.
  destruct (partition_into_scans_lengths dump_endtimes activity_sensor _ Hne
              (partition_into_scans_tables _ _ Hne))
    as (Hstates & Hstarts & Hends).
  eexists. split; [apply (partition_into_scans_tables _ _ Hne)|].
  cbn [_scan_states _scan_starts _scan_ends] in *.
  split; [reflexivity|].
  split; [|split; [|split; [exact Hstates | split; assumption]]].
  - destruct activity_sensor as [|a sensor]; [congruence|].
    apply adjacent_differ_collapse.
  - destruct activity_sensor as [|a sensor]; [congruence|].
    cbn [map collapse_runs].
    constructor; [apply simplify_states|].
    apply Forall_collapse_after. clear.
    induction sensor; constructor; [apply simplify_states | assumption].
Qed.

Lemma scan_states_collapse_activities_witness :
  exists tables,
    partition_into_scans dump_endtimes_of_pass activity_of_pass
    = Returns tables /\
    _scan_states tables
    = collapse_runs (map (fun s => simplify (value s)) activity_of_pass) /\
    adjacent_differ (_scan_states tables) /\
    Forall (fun s => s ∈ ["scan"; "track"; "slew"; "stop"])
      (_scan_states tables) /\
    _scan_states tables <> [] /\
    length (_scan_starts tables) = length (_scan_states tables) /\
    length (_scan_ends tables) = length (_scan_states tables).
Proof.
  apply (scan_states_collapse_activities dump_endtimes_of_pass
           activity_of_pass).
  discriminate.
Defined.

(** ** The dumps of the scans *)

Lemma searchsorted_bounds (a : list Z) (v : Z) :
  0 <= searchsorted a v <= Z.of_nat (length a).
Proof.
  unfold searchsorted. split; [lia|].
  apply inj_le. induction a as [|x a IH]; [reflexivity|].
  cbn [List.filter length]. destruct (x <? v); cbn [length]; lia.
Qed.

Lemma searchsorted_mono (a : list Z) (v w : Z) :
  v <= w -> searchsorted a v <= searchsorted a w.
Proof.
  intros Hvw. unfold searchsorted. apply inj_le.
  induction a as [|x a IH]; [reflexivity|].
  cbn [List.filter].
  destruct (Z.ltb_spec x v), (Z.ltb_spec x w); cbn [length]; lia.
Qed.

Lemma searchsorted_none_below (a : list Z) (v : Z) :
  Forall (fun x => v <= x) a -> searchsorted a v = 0.
Proof.
  unfold searchsorted. induction 1 as [|x a Hx _ IH]; [reflexivity|].
  cbn [List.filter]. destruct (Z.ltb_spec x v); [lia | exact IH].
Qed.

(** In a sorted array, the index that [searchsorted] finds for [v]
    separates the elements below [v] from the others. *)
Lemma searchsorted_sorted (a : list Z) (v : Z) (k : nat) (e : Z) :
  StronglySorted Z.le a -> a !! k = Some e ->
  (searchsorted a v <= Z.of_nat k <-> v <= e).
Proof.
  intros Hs. revert k. induction Hs as [|x a Hs IH Hx]; intros k Hk;
    [discriminate|].
  assert (Hcons : searchsorted (x :: a) v
                  = (if x <? v then 1 else 0) + searchsorted a v).
  { unfold searchsorted. cbn [List.filter].
    destruct (x <? v); cbn [length]; lia. }
  rewrite Hcons. pose proof (searchsorted_bounds a v) as Hb.
  destruct k as [|k]; cbn in Hk.
  - injection Hk as ->.
    destruct (Z.ltb_spec e v) as [Hlt|Hge]; [lia|].
    rewrite searchsorted_none_below; [lia|].
    eapply Forall_impl; [exact Hx|]. cbn. intros; lia.
  - specialize (IH k Hk).
    destruct (Z.ltb_spec x v) as [Hlt|Hge]; [lia|].
    rewrite searchsorted_none_below.
    + assert (x <= e).
      { rewrite Forall_lookup in Hx. exact (Hx k e Hk). }
      lia.
    + eapply Forall_impl; [exact Hx|]. cbn. intros; lia.
Qed.

Lemma py_slice_within {A} (a : list A) (i j : Z) :
  0 <= i <= j -> j <= Z.of_nat (length a) ->
  py_slice a i j = take (Z.to_nat j - Z.to_nat i) (drop (Z.to_nat i) a).
Proof.
  intros Hij Hj. unfold py_slice, slice_bound.
  destruct (Z.ltb_spec i 0), (Z.ltb_spec j 0); try lia.
  rewrite !Z.min_l by lia. f_equal. lia.
Qed.

Lemma drop_take_swap {A} (a : list A) (i n : nat) :
  (i <= n)%nat -> drop i (take n a) = take (n - i) (drop i a).
Proof.
  intros Hin. rewrite take_drop_commute. do 2 f_equal. lia.
Qed.

Lemma segments_join {A} (a : list A) (i j n : nat) :
  (i <= j <= n)%nat ->
  take (j - i) (drop i a) ++ drop j (take n a) = drop i (take n a).
Proof.
  intros Hijn. rewrite !drop_take_swap by lia.
  rewrite <- (take_drop (j - i) (take (n - i) (drop i a))).
  rewrite take_take, drop_take_swap, drop_drop by lia.
  f_equal; f_equal; try lia. f_equal. lia.
Qed.

Lemma lookup_map {A B} (f : A -> B) (l : list A) (i : nat) :
  map f l !! i = f <$> l !! i.
Proof.
  revert i. induction l as [|x l IH]; intros [|i]; try reflexivity.
  apply IH.
Qed.

Lemma zip_with_cons {A B C} (f : A -> B -> C) (x : A) (y : B)
    (l : list A) (k : list B) :
  zip_with f (x :: l) (y :: k) = f x y :: zip_with f l k.
Proof. reflexivity. Qed.

(** Scans that start at [starts], each ending where the next one starts
    and the last one at dump [n - 1], cover the dumps from the first start
    to [n - 1], in order and once each. *)
Lemma scans_cover {A} (a : list A) (n : nat) (s : Z) (starts : list Z) :
  (n <= length a)%nat ->
  Sorted Z.le (s :: starts) ->
  Forall (fun x => 0 <= x <= Z.of_nat n) (s :: starts) ->
  concat
    (zip_with (fun first last => py_slice a first (last + 1)) (s :: starts)
       (map (fun x => x - 1) starts ++ [Z.of_nat n - 1]))
  = drop (Z.to_nat s) (take n a).
Proof.
  intros Hn. revert s. induction starts as [|s' starts IH];
    intros s Hsorted Hbounds.
  - cbn [map app zip_with concat]. rewrite app_nil_r.
    inversion Hbounds as [|? ? Hs _]; subst.
    replace (Z.of_nat n - 1 + 1) with (Z.of_nat n) by lia.
    rewrite py_slice_within by lia. rewrite Nat2Z.id.
    rewrite drop_take_swap by lia. reflexivity.
  - inversion Hsorted as [|? ? Hsorted' Hhd]; subst.
    inversion Hhd as [|? ? Hle]; subst.
    inversion Hbounds as [|? ? Hs Hbounds']; subst.
    inversion Hbounds' as [|? ? Hs' _]; subst.
    cbn [map app]. rewrite zip_with_cons. cbn [concat].
    rewrite (IH s' Hsorted' Hbounds').
    replace (s' - 1 + 1) with s' by lia.
    rewrite py_slice_within by lia.
    apply segments_join. lia.
Qed.

Lemma Sorted_map_searchsorted (a : list Z) (times : list Z) :
  StronglySorted Z.lt times ->
  Sorted Z.le (map (searchsorted a) times).
Proof.
  induction 1 as [|t times Hs IH Ht]; [constructor|].
  cbn [map]. constructor; [exact IH|].
  destruct times as [|t' times]; [constructor|].
  cbn [map]. constructor. apply searchsorted_mono.
  inversion Ht; subst. lia.
Qed.

Lemma select_Forall {A} (P : A -> Prop) (m : list bool) (a : list A) :
  Forall P a -> Forall P (select m a).
Proof.
  intros Ha. revert m. induction Ha as [|x a Hx Ha IH]; intros [|b m];
    try constructor.
  cbn [select]. destruct b; [constructor; [exact Hx|]|]; apply IH.
Qed.

Lemma select_StronglySorted {A} (R : A -> A -> Prop) (m : list bool)
    (a : list A) :
  StronglySorted R a -> StronglySorted R (select m a).
Proof.
  intros Ha. revert m. induction Ha as [|x a Ha IH Hx]; intros [|b m];
    try constructor.
  cbn [select]. destruct b; [|apply IH].
  constructor; [apply IH | apply select_Forall, Hx].
Qed.

Lemma state_change_times_sorted {S}
    (activity_sensor : list (sample string S)) :
  StronglySorted Z.lt (map timestamp activity_sensor) ->
  StronglySorted Z.lt (state_change_times activity_sensor).
Proof.
  intros Hs. unfold state_change_times.
  destruct (map (fun s => simplify (value s)) activity_sensor);
    [constructor|].
  apply select_StronglySorted, Hs.
Qed.

Lemma state_change_times_nonempty {S}
    (activity_sensor : list (sample string S)) :
  activity_sensor <> [] ->
  exists t times,
    state_change_times activity_sensor = t :: times /\
    head (map timestamp activity_sensor) = Some t.
Proof.
  intros Hne. destruct activity_sensor as [|a sensor]; [congruence|].
  unfold state_change_times. cbn [map select]. eauto.
Qed.

Lemma scans_tile {St} (dump_endtimes _data_timestamps : list Z)
    (activity_sensor : list (sample string St)) :
  activity_sensor <> [] ->
  StronglySorted Z.lt (map timestamp activity_sensor) ->
  (length dump_endtimes <= length _data_timestamps)%nat ->
  exists tables first,
    partition_into_scans dump_endtimes activity_sensor = Returns tables /\
    head (_scan_starts tables) = Some first /\
    (forall i next,
        _scan_starts tables !! S i = Some next ->
        _scan_ends tables !! i = Some (next - 1)) /\
    last (_scan_ends tables) = Some (Z.of_nat (length dump_endtimes) - 1) /\
    Forall2 (fun first last =>
               0 <= first <= last + 1 /\
               last < Z.of_nat (length dump_endtimes))
      (_scan_starts tables) (_scan_ends tables) /\
    concat (zip_with (V2_timestamps _data_timestamps)
              (_scan_starts tables) (_scan_ends tables))
    = drop (Z.to_nat first)
        (take (length dump_endtimes) _data_timestamps).
Proof.
  intros Hne Htimes Hlen.
  destruct (state_change_times_nonempty activity_sensor Hne)
    as (t & times & Htimes_eq & _).
  pose proof (state_change_times_sorted activity_sensor Htimes) as Hsorted.
  rewrite Htimes_eq in Hsorted.
  apply (Sorted_map_searchsorted dump_endtimes) in Hsorted.
  assert (Hbounds : Forall (fun x => 0 <= x
                                     <= Z.of_nat (length dump_endtimes))
                      (map (searchsorted dump_endtimes) (t :: times))).
  { clear. induction (t :: times); constructor;
      [apply searchsorted_bounds | assumption]. }
  eexists. exists (searchsorted dump_endtimes t).
  split; [apply (partition_into_scans_tables _ _ Hne)|].
  cbn [_scan_states _scan_starts _scan_ends]. rewrite Htimes_eq.
  cbn [map tail] in *.
  set (s := searchsorted dump_endtimes t) in *.
  set (starts := map (searchsorted dump_endtimes) times) in *.
  set (n := length dump_endtimes) in *.
  clearbody s starts. clear Htimes_eq.
  split; [reflexivity|]. split.
  { intros i next Hnext. change (starts !! i = Some next) in Hnext.
    rewrite lookup_app_l
      by (rewrite length_map; eapply lookup_lt_Some; exact Hnext).
    rewrite lookup_map, Hnext. reflexivity. }
  split; [apply last_snoc|]. split.
  { clear Hlen. revert s Hsorted Hbounds.
    induction starts as [|s' starts IH]; intros s Hsorted Hbounds.
    - inversion Hbounds; subst. cbn. constructor; [lia | constructor].
    - inversion Hsorted as [|? ? Hsorted' Hhd]; subst.
      inversion Hhd; subst.
      inversion Hbounds as [|? ? Hs Hbounds']; subst.
      pose proof Hbounds' as Hb. inversion Hb; subst.
      cbn [map app]. constructor; [lia | apply IH; assumption]. }
  apply (scans_cover _data_timestamps n s starts Hlen Hsorted Hbounds).
Qed.

Lemma Forall_removelast {A} (P : A -> Prop) (l : list A) :
  Forall P l -> Forall P (removelast l).
Proof.
  induction 1 as [|x l Hx Hl IH]; [constructor|].
  cbn [removelast]. destruct l; [constructor|].
  constructor; assumption.
Qed.

Lemma StronglySorted_removelast {A} (R : A -> A -> Prop) (l : list A) :
  StronglySorted R l -> StronglySorted R (removelast l).
Proof.
  induction 1 as [|x l Hl IH Hx]; [constructor|].
  cbn [removelast]. destruct l; [constructor|].
  constructor; [exact IH | apply Forall_removelast, Hx].
Qed.

Lemma length_removelast {A} (l : list A) :
  (length (removelast l) <= length l)%nat.
Proof.
  induction l as [|x l IH]; [reflexivity|].
  cbn [removelast]. destruct l; cbn [length] in *; lia.
Qed.

Lemma discard_stop_packet_sorted (dump_endtimes : list Z) :
  StronglySorted Z.le dump_endtimes ->
  StronglySorted Z.le (discard_stop_packet dump_endtimes).
Proof.
  intros Hs. unfold discard_stop_packet.
  destruct (rev dump_endtimes) as [|last [|before ?]]; try exact Hs.
  destruct (last =? before); [apply StronglySorted_removelast|]; exact Hs.
Qed.

Lemma length_discard_stop_packet (dump_endtimes : list Z) :
  (length (discard_stop_packet dump_endtimes) <= length dump_endtimes)%nat.
Proof.
  unfold discard_stop_packet.
  destruct (rev dump_endtimes) as [|last [|before ?]]; try reflexivity.
  destruct (last =? before); [apply length_removelast | reflexivity].
Qed.

(** The scans tile the dumps.  For dumps in ascending order of end time,
    of which the last is dropped when its end time repeats the one before,
    and a sensor in ascending order of time: every scan but the last ends
    with the dump before the start of the next, the last scan ends with
    the last dump, and the timestamps of the scans, one after the other,
    are the timestamps of the data from the start of the first scan to the
    last dump.  No dump from there on is left out and none is in two
    scans. *)
Theorem scans_tile_the_dumps {St} (dump_endtimes _data_timestamps : list Z)
    (activity_sensor : list (sample string St))
    (Hne : activity_sensor <> [])
    (Hdumps : StronglySorted Z.le dump_endtimes)
    (Htimes : StronglySorted Z.lt (map timestamp activity_sensor))
    (Hlen : length dump_endtimes = length _data_timestamps) :
  let dumps := discard_stop_packet dump_endtimes in
  StronglySorted Z.le dumps /\
  exists tables first,
    partition_into_scans dumps activity_sensor = Returns tables /\
    head (_scan_starts tables) = Some first /\
    (forall i next,
        _scan_starts tables !! S i = Some next ->
        _scan_ends tables !! i = Some (next - 1)) /\
    last (_scan_ends tables) = Some (Z.of_nat (length dumps) - 1) /\
    Forall2 (fun first last =>
               0 <= first <= last + 1 /\ last < Z.of_nat (length dumps))
      (_scan_starts tables) (_scan_ends tables) /\
    concat (zip_with (V2_timestamps _data_timestamps)
              (_scan_starts tables) (_scan_ends tables))
    = drop (Z.to_nat first) (take (length dumps) _data_timestamps).
Proof.
  intros dumps. split; [apply discard_stop_packet_sorted, Hdumps|].
  apply scans_tile; [exact Hne | exact Htimes |].
  rewrite <- Hlen. apply length_discard_stop_packet.
Qed.

Lemma scans_tile_the_dumps_witness :
  discard_stop_packet raw_dump_endtimes_of_pass = dump_endtimes_of_pass /\
  exists tables first,
    partition_into_scans (discard_stop_packet raw_dump_endtimes_of_pass)
      activity_of_pass = Returns tables /\
    head (_scan_starts tables) = Some first /\
    concat (zip_with (V2_timestamps data_timestamps_of_pass)
              (_scan_starts tables) (_scan_ends tables))
    = drop (Z.to_nat first)
        (take (length (discard_stop_packet raw_dump_endtimes_of_pass))
           data_timestamps_of_pass).
Proof.
  split; [reflexivity|].
  assert (Hne : activity_of_pass <> []) by discriminate.
  assert (Hdumps : StronglySorted Z.le raw_dump_endtimes_of_pass).
  { unfold raw_dump_endtimes_of_pass.
    repeat (constructor; [|repeat (constructor; try lia)]). constructor. }
  assert (Htimes : StronglySorted Z.lt (map timestamp activity_of_pass)).
  { cbn. repeat (constructor; [|repeat (constructor; try lia)]).
    constructor. }
  destruct (scans_tile_the_dumps raw_dump_endtimes_of_pass
              data_timestamps_of_pass activity_of_pass Hne Hdumps Htimes
              eq_refl)
    as (_ & tables & first & Htables & Hfirst & _ & _ & _ & Hconcat).
  exists tables, first. split; [exact Htables|]. split; assumption.
Defined.

(** Where a scan starts.  For dumps in ascending order of end time, the
    dumps from the start of a scan on are exactly the dumps that end at or
    after the time at which the sensor changed to the state of the scan:
    a scan starts with the first dump that ends at or after that time. *)
Theorem scan_starts_at_state_change {S} (dump_endtimes : list Z)
    (activity_sensor : list (sample string S))
    (Hne : activity_sensor <> [])
    (Hdumps : StronglySorted Z.le dump_endtimes) :
  exists tables,
    partition_into_scans dump_endtimes activity_sensor = Returns tables /\
    Forall2 (fun time first =>
               forall k e, dump_endtimes !! k = Some e ->
                           (first <= Z.of_nat k <-> time <= e))
      (state_change_times activity_sensor) (_scan_starts tables).
Proof.
  eexists. split; [apply (partition_into_scans_tables _ _ Hne)|].
  cbn [_scan_starts].
  induction (state_change_times activity_sensor) as [|t times IH];
    cbn [map]; constructor; [|exact IH].
  intros k e Hk. apply searchsorted_sorted; assumption.
Qed.

Lemma scan_starts_at_state_change_witness :
  exists tables,
    partition_into_scans dump_endtimes_of_pass activity_of_pass
    = Returns tables /\
    Forall2 (fun time first =>
               forall k e, dump_endtimes_of_pass !! k = Some e ->
                           (first <= Z.of_nat k <-> time <= e))
      (state_change_times activity_of_pass) (_scan_starts tables).
Proof.
  apply (scan_starts_at_state_change dump_endtimes_of_pass activity_of_pass).
  - discriminate.
  - unfold dump_endtimes_of_pass.
    repeat (constructor; [|repeat (constructor; try lia)]). constructor.
Defined.

(** ** The compound scans and the generator of scans *)

Lemma take_indices_length {A} (a : list A) (idx : list nat) (l : list A) :
  take_indices a idx = Returns l -> length l = length idx.
Proof.
  intros H. apply take_indices_returns in H.
  symmetry. eapply length_mapM. exact H.
Qed.

Lemma comprehension_length {A B} (f : A -> outcome B) (l : list A)
    (r : list B) :
  comprehension f l = Returns r -> length r = length l.
Proof.
  revert r. induction l as [|x l IH]; intros r H; cbn in H.
  - injection H as <-. reflexivity.
  - destruct (f x); [|discriminate]. cbn in H.
    destruct (comprehension f l) as [ys|]; [|discriminate].
    cbn in H. injection H as <-. cbn [length]. rewrite (IH ys eq_refl).
    reflexivity.
Qed.

Lemma partition_into_compscans_returns {St Tg}
    (Target : string -> outcome Tg) (dump_endtimes : list Z)
    (target_sensor : list (sample string St)) (starts : list Z)
    (ct : compscan_tables Tg) :
  partition_into_compscans Target dump_endtimes target_sensor starts
  = Returns ct ->
  exists compscan_starts,
    length compscan_starts = length (_compscan_targets ct) /\
    _scan_compscans ct
    = map (fun s => searchsorted_right compscan_starts s - 1) starts.
Proof.
  unfold partition_into_compscans. intros H.
  destruct (take_indices (map value target_sensor) _) as [targets|] eqn:H1;
    [|discriminate].
  cbn [and_then] in H.
  destruct (take_indices (map timestamp target_sensor) _) as [times|] eqn:H2;
    [|discriminate].
  cbn [and_then] in H.
  destruct (comprehension _ targets) as [tg|] eqn:H3; [|discriminate].
  cbn [and_then] in H. injection H as <-.
  cbn [_compscan_targets _scan_compscans].
  eexists. split; [|reflexivity].
  rewrite length_map, (comprehension_length _ _ _ H3).
  rewrite (take_indices_length _ _ _ H1), (take_indices_length _ _ _ H2).
  reflexivity.
Qed.

Lemma searchsorted_right_bounds (a : list Z) (v : Z) :
  0 <= searchsorted_right a v <= Z.of_nat (length a).
Proof.
  unfold searchsorted_right. split; [lia|].
  apply inj_le. induction a as [|x a IH]; [reflexivity|].
  cbn [List.filter length]. destruct (x <=? v); cbn [length]; lia.
Qed.

Lemma searchsorted_right_mono (a : list Z) (v w : Z) :
  v <= w -> searchsorted_right a v <= searchsorted_right a w.
Proof.
  intros Hvw. unfold searchsorted_right. apply inj_le.
  induction a as [|x a IH]; [reflexivity|].
  cbn [List.filter].
  destruct (Z.leb_spec x v), (Z.leb_spec x w); cbn [length]; lia.
Qed.

Lemma py_index_nat {A} (l : list A) (i : nat) (x : A) :
  l !! i = Some x -> py_index l (Z.of_nat i) = Returns x.
Proof.
  intros Hi. pose proof (lookup_lt_Some _ _ _ Hi) as Hlt.
  unfold py_index.
  destruct (Z.ltb_spec (Z.of_nat i) 0); [lia|].
  destruct (Z.ltb_spec (Z.of_nat i) 0); [lia|].
  destruct (Z.leb_spec (Z.of_nat (length l)) (Z.of_nat i)); [lia|].
  cbn [orb]. rewrite Nat2Z.id, Hi. reflexivity.
Qed.

Lemma py_index_last {A} (l : list A) (x : A) :
  last l = Some x -> py_index l (-1) = Returns x.
Proof.
  intros Hlast. unfold py_index.
  assert (Hlen : (0 < length l)%nat) by (destruct l; [discriminate | cbn; lia]).
  change (-1 <? 0) with true. cbn match.
  destruct (Z.ltb_spec (-1 + Z.of_nat (length l)) 0); [lia|].
  destruct (Z.leb_spec (Z.of_nat (length l)) (-1 + Z.of_nat (length l)));
    [lia|].
  cbn [orb]. rewrite last_lookup in Hlast.
  replace (Z.to_nat (-1 + Z.of_nat (length l))) with (pred (length l)) by lia.
  rewrite Hlast. reflexivity.
Qed.

Lemma py_index_empty {A} (i : Z) : py_index (@nil A) i = Throws PyIndexError.
Proof.
  unfold py_index. cbn [length]. 
  destruct (Z.ltb_spec i 0).
  - destruct (Z.ltb_spec (i + Z.of_nat 0) 0); [reflexivity | lia].
  - destruct (Z.ltb_spec i 0); [lia|].
    destruct (Z.leb_spec (Z.of_nat 0) i); [reflexivity | lia].
Qed.

Lemma generate_all {A B} (body : A -> outcome B) (P : A -> B -> Prop)
    (l : list A) :
  Forall (fun x => exists y, body x = Returns y /\ P x y) l ->
  exists ys, generate body l = (ys, None) /\ Forall2 P l ys.
Proof.
  induction 1 as [|x l (y & Hy & HP) _ (ys & Hys & Hall)].
  - exists []. split; [reflexivity | constructor].
  - exists (y :: ys). cbn [generate]. rewrite Hy, Hys.
    split; [reflexivity | constructor; assumption].
Qed.

(** What [scans] yields.  With no compound scan at all, which is a target
    sensor without a target that is not empty, the generator raises
    [IndexError] before its first item.  Otherwise it yields every scan
    of the tables, in order, with its state and its first and last dump;
    the index of its compound scan is [-1] or the index of a compound
    scan, and its target is the target of that compound scan, which for
    [-1] is the last compound scan of the file. *)
Theorem scans_yield_every_scan {St Tg} (Target : string -> outcome Tg)
    (dump_endtimes : list Z)
    (activity_sensor target_sensor : list (sample string St))
    (st : scan_tables) (ct : compscan_tables Tg)
    (Hne : activity_sensor <> [])
    (Hscans : partition_into_scans dump_endtimes activity_sensor
              = Returns st)
    (Hcompscans : partition_into_compscans Target dump_endtimes
                    target_sensor (_scan_starts st) = Returns ct) :
  (_compscan_targets ct = [] -> scans st ct = ([], Some PyIndexError)) /\
  (_compscan_targets ct <> [] ->
   exists ys,
     scans st ct = (ys, None) /\
     length ys = length (_scan_states st) /\
     forall i y, ys !! i = Some y ->
       scan_index y = i /\
       _scan_states st !! i = Some (state y) /\
       _scan_starts st !! i = Some (_first_sample y) /\
       _scan_ends st !! i = Some (_last_sample y) /\
       _scan_compscans ct !! i = Some (compscan_index y) /\
       -1 <= compscan_index y
       < Z.of_nat (length (_compscan_targets ct)) /\
       (compscan_index y = -1 ->
        last (_compscan_targets ct) = Some (target y)) /\
       (0 <= compscan_index y ->
        _compscan_targets ct !! Z.to_nat (compscan_index y)
        = Some (target y))).
Proof.
  destruct (partition_into_scans_lengths _ _ _ Hne Hscans)
    as (Hstates & Hstarts & Hends).
  destruct (partition_into_compscans_returns _ _ _ _ _ Hcompscans)
    as (cs & Hcs & Hidx).
  assert (Hlen_idx : length (_scan_compscans ct) = length (_scan_states st)).
  { rewrite Hidx, length_map. exact Hstarts. }
  assert (Hrange : forall i c, _scan_compscans ct !! i = Some c ->
                     -1 <= c < Z.of_nat (length (_compscan_targets ct))).
  { intros i c Hc. rewrite Hidx, lookup_map in Hc.
    destruct (_scan_starts st !! i) as [s|]; [|discriminate].
    injection Hc as <-. pose proof (searchsorted_right_bounds cs s).
    rewrite <- Hcs.
    (* the index is at most the number of compound scans, less one *)
    lia. }
  split.
  - intros Hnone. unfold scans.
    destruct (_scan_states st) as [|s0 states] eqn:Hs; [congruence|].
    cbn [length seq generate].
    destruct (_scan_compscans ct) as [|c cs'] eqn:Hc; [discriminate|].
    unfold scans_body. rewrite Hc, Hs.
    rewrite (py_index_nat (c :: cs') 0 c eq_refl). cbn [and_then].
    rewrite (py_index_nat (s0 :: states) 0 s0 eq_refl). cbn [and_then].
    rewrite Hnone, py_index_empty. reflexivity.
  - intros Hsome. unfold scans.
    destruct (generate_all (scans_body st ct)
                (fun i y =>
                   scan_index y = i /\
                   _scan_states st !! i = Some (state y) /\
                   _scan_starts st !! i = Some (_first_sample y) /\
                   _scan_ends st !! i = Some (_last_sample y) /\
                   _scan_compscans ct !! i = Some (compscan_index y) /\
                   -1 <= compscan_index y
                   < Z.of_nat (length (_compscan_targets ct)) /\
                   (compscan_index y = -1 ->
                    last (_compscan_targets ct) = Some (target y)) /\
                   (0 <= compscan_index y ->
                    _compscan_targets ct !! Z.to_nat (compscan_index y)
                    = Some (target y)))
                (seq 0 (length (_scan_states st)))) as (ys & Hys & Hall).
    { apply Forall_forall. intros i Hi. apply elem_of_seq in Hi.
      destruct (lookup_lt_is_Some_2 (_scan_states st) i) as [s Hs]; [lia|].
      destruct (lookup_lt_is_Some_2 (_scan_starts st) i) as [f Hf]; [lia|].
      destruct (lookup_lt_is_Some_2 (_scan_ends st) i) as [l Hl]; [lia|].
      destruct (lookup_lt_is_Some_2 (_scan_compscans ct) i) as [c Hc];
        [lia|].
      pose proof (Hrange i c Hc) as Hcr.
      assert (Htarget : exists tg,
                 py_index (_compscan_targets ct) c = Returns tg /\
                 (c = -1 -> last (_compscan_targets ct) = Some tg) /\
                 (0 <= c -> _compscan_targets ct !! Z.to_nat c = Some tg)).
      { destruct (Z.eq_dec c (-1)) as [->|Hc1].
        - destruct (last (_compscan_targets ct)) as [tg|] eqn:Hlast.
          + exists tg. split; [apply py_index_last, Hlast|].
            split; [reflexivity | lia].
          + apply last_None in Hlast. contradiction.
        - destruct (lookup_lt_is_Some_2 (_compscan_targets ct) (Z.to_nat c))
            as [tg Htg]; [lia|].
          exists tg. split; [|split; [lia | intros _; exact Htg]].
          rewrite <- (Z2Nat.id c) by lia. apply py_index_nat, Htg. }
      destruct Htarget as (tg & Htg & Hm1 & Hge).
      eexists. unfold scans_body.
      rewrite (py_index_nat _ _ _ Hc). cbn [and_then].
      rewrite (py_index_nat _ _ _ Hs). cbn [and_then].
      rewrite Htg. cbn [and_then].
      rewrite (py_index_nat _ _ _ Hf). cbn [and_then].
      rewrite (py_index_nat _ _ _ Hl). cbn [and_then].
      split; [reflexivity|].
      cbn [scan_index state target _first_sample _last_sample
             compscan_index].
      auto 10. }
    exists ys. split; [exact Hys|]. split.
    + apply Forall2_length in Hall. rewrite length_seq in Hall.
      symmetry. exact Hall.
    + intros i y Hy.
      destruct (Forall2_lookup_r _ _ _ _ _ Hall Hy) as (i' & Hi' & HP).
      apply lookup_seq in Hi' as [-> _]. exact HP.
Qed.

Lemma scans_yield_every_scan_witness :
  scans scan_tables_of_pass compscan_tables_of_pass
  = ([ {| scan_index := 0; compscan_index := -1; state := "slew";
          target := "Moon, special";
          _first_sample := 0; _last_sample := 1 |};
       {| scan_index := 1; compscan_index := 0; state := "track";
          target := "Sun, special";
          _first_sample := 2; _last_sample := 3 |};
       {| scan_index := 2; compscan_index := 1; state := "stop";
          target := "Moon, special";
          _first_sample := 4; _last_sample := 4 |} ], None) /\
  exists ys,
    scans scan_tables_of_pass compscan_tables_of_pass = (ys, None) /\
    length ys = length (_scan_states scan_tables_of_pass).
Proof.
  split; [reflexivity|].
  assert (Hne : activity_of_pass <> []) by discriminate.
  assert (Hsome : _compscan_targets compscan_tables_of_pass <> [])
    by discriminate.
  destruct (proj2 (scans_yield_every_scan
                     (fun s => Returns s) dump_endtimes_of_pass
                     activity_of_pass targets_of_pass scan_tables_of_pass
                     compscan_tables_of_pass Hne eq_refl eq_refl) Hsome)
    as (ys & Hys & Hlen & _).
  exists ys. split; assumption.
Defined.
